(** * Option open-interest dashboard: shaper, presenter and fetcher

    A shallow embedding of [data_fetchers.py], [plotting_utils.py] and the
    export path of [streamlit_app.py], followed by the properties the
    specification states about them.

    Conventions of the embedding.
    - A Python object is a [value]; numbers (int and float alike) are exact
      rationals.  The figures sum and compare them on columns of whole
      numbers within the range where int64 and float64 are exact, and are
      modelled there only.
    - A raised exception is [Raise e]; [Unmodelled] marks the places that
      are deliberately left out: pandas on cells that are neither numbers
      nor nulls, where its behaviour depends on its version, and the figures
      on columns outside the exact range, on an open-interest or strike
      column of nulls alone, and on types the colours are not given for.  No
      theorem claims a result there, and [try_except] does not catch it.
    - The external services (market-data client, scraper, wall clock) are an
      [Env]; effectful functions thread a [state] made of the services' world
      and a trace of the requests and prints issued. *)

From Stdlib Require Import List String Ascii Bool ZArith QArith Lia.
From Stdlib Require Import Permutation Sorted DecimalString.
Import ListNotations.

Set Warnings "-register-all".
Local Close Scope Q_scope.
Local Open Scope string_scope.
Local Open Scope list_scope.

(** ** Python objects *)

Inductive value : Type :=
| VNone
| VBool (b : bool)
| VNum (q : Q)
| VStr (s : string)
| VTime (t : Z)
| VList (items : list value)
| VDict (entries : list (string * value))
| VFrame (frame_rows : list (list (string * value))).

(** A pandas [Series] indexed by labels: one row of an input table. *)
Definition series : Type := list (string * value).

Inductive exn : Type :=
| KeyError (key : string)
| TypeError
| AttributeError
| ValueError
| ProviderError (msg : string)
| Unmodelled.

Inductive res (A : Type) : Type :=
| Ok (a : A)
| Raise (e : exn).
Arguments Ok {A} a.
Arguments Raise {A} e.

(** ** The exception monad *)

Definition res_bind {A B : Type} (m : res A) (k : A -> res B) : res B :=
  match m with
  | Ok a => k a
  | Raise e => Raise e
  end.

Declare Scope res_scope.
Delimit Scope res_scope with res.
Notation "x <- m ;; k" := (res_bind m (fun x => k))
  (at level 100, m at next level, right associativity) : res_scope.
Local Open Scope res_scope.

(** ** Primitive operations on Python objects *)

(** A dictionary binds a key once; [lookup] reads the first binding. *)
Fixpoint lookup {A : Type} (k : string) (d : list (string * A)) : option A :=
  match d with
  | [] => None
  | (k', v) :: d' => if k' =? k then Some v else lookup k d'
  end.

Definition has_key {A : Type} (k : string) (d : list (string * A)) : bool :=
  match lookup k d with Some _ => true | None => false end.

Definition is_substring (k s : string) : bool :=
  match index 0 k s with Some _ => true | None => false end.

Fixpoint chars (s : string) : list value :=
  match s with
  | EmptyString => []
  | String c s' => VStr (String c EmptyString) :: chars s'
  end.

Definition is_str (k : string) (v : value) : bool :=
  match v with VStr s => s =? k | _ => false end.

Definition is_none (v : value) : bool :=
  match v with VNone => true | _ => false end.

(** [bool(v)]: the truth value used by [if v] and [not v]. *)
Definition truthy (v : value) : res bool :=
  match v with
  | VNone => Ok false
  | VBool b => Ok b
  | VNum q => Ok (negb (Qeq_bool q 0))
  | VStr s => Ok (negb (s =? EmptyString))
  | VTime _ => Ok true
  | VList l => Ok (match l with [] => false | _ => true end)
  | VDict d => Ok (match d with [] => false | _ => true end)
  | VFrame _ => Raise ValueError
  end.

(** [k in v] for a string [k]. *)
Definition contains (k : string) (v : value) : res bool :=
  match v with
  | VDict d => Ok (has_key k d)
  | VList l => Ok (existsb (is_str k) l)
  | VStr s => Ok (is_substring k s)
  | VFrame _ => Raise Unmodelled
  | VNone | VBool _ | VNum _ | VTime _ => Raise TypeError
  end.

(** [v[k]] for a string [k]. *)
Definition subscript (v : value) (k : string) : res value :=
  match v with
  | VDict d => match lookup k d with Some x => Ok x | None => Raise (KeyError k) end
  | VFrame _ => Raise Unmodelled
  | _ => Raise TypeError
  end.

(** [d.get(k)] on a dictionary: [None] for a missing key. *)
Definition dict_get (d : list (string * value)) (k : string) : value :=
  match lookup k d with Some x => x | None => VNone end.

(** [v.get(k)]: only dictionaries have the method. *)
Definition py_get (v : value) (k : string) : res value :=
  match v with
  | VDict d => Ok (dict_get d k)
  | VFrame _ => Raise Unmodelled
  | _ => Raise AttributeError
  end.

(** [for item in v]. *)
Definition iterate (v : value) : res (list value) :=
  match v with
  | VList l => Ok l
  | VDict d => Ok (map (fun kv => VStr (fst kv)) d)
  | VStr s => Ok (chars s)
  | VFrame _ => Raise Unmodelled
  | VNone | VBool _ | VNum _ | VTime _ => Raise TypeError
  end.

(** [v.iterrows()], the index dropped: only a table has rows. *)
Definition iterrows (v : value) : res (list series) :=
  match v with
  | VFrame rows => Ok rows
  | _ => Raise AttributeError
  end.

(** [row.get(k, default)] on a row of a table. *)
Definition series_get (row : series) (k : string) (default : value) : value :=
  match lookup k row with Some x => x | None => default end.

(** ** Tables of shaped records *)

(** A numeric cell of a frame: a number, or null ([None] and [NaN] alike). *)
Definition cell : Type := option Q.

(** Building a numeric column accepts numbers and nulls. *)
Definition to_cell (v : value) : res cell :=
  match v with
  | VNone => Ok None
  | VNum q => Ok (Some q)
  | _ => Raise Unmodelled
  end.

Record DataFrame (R : Type) : Type := {
  columns : list string;
  rows : list R
}.
Arguments columns {R} d.
Arguments rows {R} d.

Definition empty {R : Type} (df : DataFrame R) : bool :=
  match columns df, rows df with
  | _ :: _, _ :: _ => false
  | _, _ => true
  end.

Fixpoint mapM {A B : Type} (f : A -> res B) (l : list A) : res (list B) :=
  match l with
  | [] => Ok []
  | a :: l' => b <- f a ;; bs <- mapM f l' ;; Ok (b :: bs)
  end.

(** [pd.DataFrame(records)] for records that all carry the keys [cols]: an
    empty list gives a frame without columns. *)
Definition pd_DataFrame {Raw R : Type} (cols : list string)
    (conv : Raw -> res R) (records : list Raw) : res (DataFrame R) :=
  match records with
  | [] => Ok {| columns := []; rows := [] |}
  | _ => rs <- mapM conv records ;; Ok {| columns := cols; rows := rs |}
  end.

(** What the sort and the aggregations read in a shaped record. *)
Class OptionRow (R : Type) : Type := {
  row_type : R -> string;
  row_strike : R -> cell;
  row_volume : R -> cell;
  row_open_interest : R -> cell
}.

(** *** Stable sorting *)

Section StableSort.
Context {A : Type} (leb : A -> A -> bool).

Fixpoint insert_sorted (x : A) (l : list A) : list A :=
  match l with
  | [] => [x]
  | y :: l' => if leb x y then x :: l else y :: insert_sorted x l'
  end.

(** Elements that compare equal keep their input order: an element goes
    in front of the first one it is not greater than. *)
Fixpoint stable_sort (l : list A) : list A :=
  match l with
  | [] => []
  | x :: l' => insert_sorted x (stable_sort l')
  end.
End StableSort.

(** Ascending order of cells, nulls last. *)
Definition cell_leb (a b : cell) : bool :=
  match a, b with
  | Some x, Some y => Qle_bool x y
  | Some _, None => true
  | None, Some _ => false
  | None, None => true
  end.

Definition cell_eqb (a b : cell) : bool :=
  match a, b with
  | Some x, Some y => Qeq_bool x y
  | None, None => true
  | _, _ => false
  end.

(** The order of [by=['Type', 'Strike']]. *)
Definition type_strike_leb {R : Type} `{OptionRow R} (a b : R) : bool :=
  if String.ltb (row_type a) (row_type b) then true
  else if row_type a =? row_type b then cell_leb (row_strike a) (row_strike b)
  else false.

(** [df.sort_values(by=['Type', 'Strike'])] *)
Definition sort_values {R : Type} `{OptionRow R} (df : DataFrame R) : DataFrame R :=
  {| columns := columns df; rows := stable_sort type_strike_leb (rows df) |}.

(** ** Shaper, equity path ([process_options_data]) *)

Module US.

(** A record of the equity table; [C] is the type of its numeric cells:
    [value] in the dictionaries appended to [records], [cell] in the frame. *)
Record record (C : Type) : Type := {
  Symbol : value;
  Type_ : string;
  Strike : C;
  Last_Price : C;
  Bid : C;
  Ask : C;
  Volume : C;
  Open_Interest : C;
  Implied_Volatility : C;
  Expiration_Date : value
}.
Arguments Symbol {C} r.
Arguments Type_ {C} r.
Arguments Strike {C} r.
Arguments Last_Price {C} r.
Arguments Bid {C} r.
Arguments Ask {C} r.
Arguments Volume {C} r.
Arguments Open_Interest {C} r.
Arguments Implied_Volatility {C} r.
Arguments Expiration_Date {C} r.

Definition raw : Type := record value.
Definition row : Type := record cell.

Definition column_names : list string :=
  ["Symbol"; "Type"; "Strike"; "Last_Price"; "Bid"; "Ask"; "Volume";
   "Open_Interest"; "Implied_Volatility"; "Expiration_Date"].

Definition to_row (r : raw) : res row :=
  strike <- to_cell (Strike r) ;;
  last_price <- to_cell (Last_Price r) ;;
  bid <- to_cell (Bid r) ;;
  ask <- to_cell (Ask r) ;;
  volume <- to_cell (Volume r) ;;
  open_interest <- to_cell (Open_Interest r) ;;
  implied_volatility <- to_cell (Implied_Volatility r) ;;
  Ok {| Symbol := Symbol r; Type_ := Type_ r; Strike := strike;
        Last_Price := last_price; Bid := bid; Ask := ask; Volume := volume;
        Open_Interest := open_interest;
        Implied_Volatility := implied_volatility;
        Expiration_Date := Expiration_Date r |}.

#[global] Instance option_row : OptionRow row := {
  row_type := Type_;
  row_strike := Strike;
  row_volume := Volume;
  row_open_interest := Open_Interest
}.

End US.

Definition zero : value := VNum (0 # 1).

(** The dictionary appended for one row of the [option_type] table. *)
Definition us_record (symbol expiration_date : value) (option_type : string)
    (row : series) : US.raw :=
  {| US.Symbol := symbol;
     US.Type_ := if option_type =? "calls" then "Call" else "Put";
     US.Strike := series_get row "strike" zero;
     US.Last_Price := series_get row "lastPrice" zero;
     US.Bid := series_get row "bid" zero;
     US.Ask := series_get row "ask" zero;
     US.Volume := series_get row "volume" zero;
     US.Open_Interest := series_get row "openInterest" zero;
     US.Implied_Volatility := series_get row "impliedVolatility" zero;
     US.Expiration_Date := expiration_date |}.

(** One turn of [for option_type in ['calls', 'puts']]. *)
Definition process_side (options_data symbol expiration_date : value)
    (records : list US.raw) (option_type : string) : res (list US.raw) :=
  present <- contains option_type options_data ;;
  if present then
    df_slice <- subscript options_data option_type ;;
    if is_none df_slice then Ok records
    else
      slice_rows <- iterrows df_slice ;;
      Ok (records ++ map (us_record symbol expiration_date option_type) slice_rows)
  else Ok records.

Fixpoint foldM {A B : Type} (f : A -> B -> res A) (l : list B) (a : A) : res A :=
  match l with
  | [] => Ok a
  | b :: l' => a' <- f a b ;; foldM f l' a'
  end.

(** [None] is Python's [None]; [Some df] a frame. *)
Definition process_options_data (options_data : value)
    : res (option (DataFrame US.row)) :=
  t <- truthy options_data ;;
  if negb t then Ok None
  else
    symbol <- subscript options_data "symbol" ;;
    expiration_date <- subscript options_data "expiration_date" ;;
    records <- foldM (process_side options_data symbol expiration_date)
                     ["calls"; "puts"] [] ;;
    df <- pd_DataFrame US.column_names US.to_row records ;;
    Ok (Some (if negb (empty df) then sort_values df else df)).

(** ** External services and effects *)

(** What a service answers: a payload, or a failure with its message. *)
Inductive response (A : Type) : Type :=
| Reply (a : A)
| Failure (msg : string).
Arguments Reply {A} a.
Arguments Failure {A} msg.

(** The market-data client, the scraper and the clock.  Each call may change
    the world and may fail; nothing is assumed about them. *)
Record Env : Type := {
  World : Type;
  (** [datetime.now()] *)
  datetime_now : World -> Z * World;
  (** [yf.Ticker(symbol).options] *)
  ticker_options : string -> World -> response (list string) * World;
  (** [yf.Ticker(symbol).option_chain(date)]: the calls and puts tables *)
  ticker_option_chain : string -> string -> World -> response (value * value) * World;
  (** [nse_optionchain_scrapper(index)] *)
  scrapper : string -> World -> response value * World
}.

Inductive event : Type :=
| ListedExpirations (symbol : string)
| RequestedChain (symbol date : string)
| Scraped (index : string)
| Printed (msg : string).

Record state (E : Env) : Type := {
  world : World E;
  trace : list event
}.
Arguments world {E} s.
Arguments trace {E} s.

Definition M (E : Env) (A : Type) : Type := state E -> res A * state E.

Definition M_ret {E : Env} {A : Type} (a : A) : M E A := fun s => (Ok a, s).

Definition M_bind {E : Env} {A B : Type} (m : M E A) (k : A -> M E B) : M E B :=
  fun s => match m s with
           | (Ok a, s') => k a s'
           | (Raise e, s') => (Raise e, s')
           end.

Definition lift {E : Env} {A : Type} (r : res A) : M E A := fun s => (r, s).

Declare Scope M_scope.
Delimit Scope M_scope with M.
Notation "x <- m ;; k" := (M_bind m (fun x => k))
  (at level 100, m at next level, right associativity) : M_scope.
Notation "m ;;; k" := (M_bind m (fun _ => k))
  (at level 100, right associativity) : M_scope.

(** [try: body except Exception as e: handler e].  Effects of the body made
    before the exception stay. *)
Definition try_except {E : Env} {A : Type} (body : M E A) (handler : exn -> M E A)
    : M E A :=
  fun s => match body s with
           | (Ok a, s') => (Ok a, s')
           | (Raise Unmodelled, s') => (Raise Unmodelled, s')
           | (Raise e, s') => handler e s'
           end.

Definition emit {E : Env} (ev : event) : M E unit :=
  fun s => (Ok tt, {| world := world s; trace := trace s ++ [ev] |}).

Definition print {E : Env} (msg : string) : M E unit := emit (Printed msg).

Definition now {E : Env} : M E Z :=
  fun s => let (t, w) := datetime_now E (world s) in
           (Ok t, {| world := w; trace := trace s |}).

(** A call to a service: recorded in the trace, then performed; a failure
    is raised as an exception. *)
Definition request {E : Env} {A : Type} (ev : event)
    (call : World E -> response A * World E) : M E A :=
  fun s => let (r, w) := call (world s) in
           (match r with
            | Reply a => Ok a
            | Failure msg => Raise (ProviderError msg)
            end,
            {| world := w; trace := trace s ++ [ev] |}).

(** [str(e)] in the printed messages.  The message of a failed service is
    the one it failed with, and that of a key error is the key, quoted.  For
    the errors of the interpreter the class name stands for a message whose
    wording is not modelled: the statements about such a line fix its prefix
    and leave the message open. *)
Definition str_exn (e : exn) : string :=
  match e with
  | KeyError k => "'" ++ k ++ "'"
  | TypeError => "TypeError"
  | AttributeError => "AttributeError"
  | ValueError => "ValueError"
  | ProviderError msg => msg
  | Unmodelled => EmptyString
  end.

(** ** Shaper, index path ([process_nifty_options_data]) *)

Module NIFTY.

Record record (C : Type) : Type := {
  Symbol : string;
  Type_ : string;
  Strike : C;
  Open_Interest : C;
  Change_in_OI : C;
  Volume : C;
  IV : C;
  Last_Price : C;
  Underlying : C;
  Bid : C;
  Ask : C;
  Timestamp : Z
}.
Arguments Symbol {C} r.
Arguments Type_ {C} r.
Arguments Strike {C} r.
Arguments Open_Interest {C} r.
Arguments Change_in_OI {C} r.
Arguments Volume {C} r.
Arguments IV {C} r.
Arguments Last_Price {C} r.
Arguments Underlying {C} r.
Arguments Bid {C} r.
Arguments Ask {C} r.
Arguments Timestamp {C} r.

Definition raw : Type := record value.
Definition row : Type := record cell.

Definition column_names : list string :=
  ["Symbol"; "Type"; "Strike"; "Open_Interest"; "Change_in_OI"; "Volume";
   "IV"; "Last_Price"; "Underlying"; "Bid"; "Ask"; "Timestamp"].

Definition to_row (r : raw) : res row :=
  strike <- to_cell (Strike r) ;;
  open_interest <- to_cell (Open_Interest r) ;;
  change_in_oi <- to_cell (Change_in_OI r) ;;
  volume <- to_cell (Volume r) ;;
  iv <- to_cell (IV r) ;;
  last_price <- to_cell (Last_Price r) ;;
  underlying <- to_cell (Underlying r) ;;
  bid <- to_cell (Bid r) ;;
  ask <- to_cell (Ask r) ;;
  Ok {| Symbol := Symbol r; Type_ := Type_ r; Strike := strike;
        Open_Interest := open_interest; Change_in_OI := change_in_oi;
        Volume := volume; IV := iv; Last_Price := last_price;
        Underlying := underlying; Bid := bid; Ask := ask;
        Timestamp := Timestamp r |}.

#[global] Instance option_row : OptionRow row := {
  row_type := Type_;
  row_strike := Strike;
  row_volume := Volume;
  row_open_interest := Open_Interest
}.

(** The record with its clock reading blanked. *)
Definition untimed {C : Type} (r : record C) : record C :=
  {| Symbol := Symbol r; Type_ := Type_ r; Strike := Strike r;
     Open_Interest := Open_Interest r; Change_in_OI := Change_in_OI r;
     Volume := Volume r; IV := IV r; Last_Price := Last_Price r;
     Underlying := Underlying r; Bid := Bid r; Ask := Ask r;
     Timestamp := 0%Z |}.

End NIFTY.

Section Shaper.
Context {E : Env}.
Local Open Scope M_scope.

(** The dictionary appended for the [kind] sub-object [sub] of a strike
    entry; the clock is read last, as the literal's last item. *)
Definition nifty_record (kind : string) (strike_price sub : value)
    : M E NIFTY.raw :=
  open_interest <- lift (py_get sub "openInterest") ;;
  change_in_oi <- lift (py_get sub "changeinOpenInterest") ;;
  volume <- lift (py_get sub "totalTradedVolume") ;;
  iv <- lift (py_get sub "impliedVolatility") ;;
  last_price <- lift (py_get sub "lastPrice") ;;
  underlying <- lift (py_get sub "underlyingValue") ;;
  bid <- lift (py_get sub "bidprice") ;;
  ask <- lift (py_get sub "askPrice") ;;
  timestamp <- now ;;
  M_ret {| NIFTY.Symbol := "NIFTY"; NIFTY.Type_ := kind;
           NIFTY.Strike := strike_price;
           NIFTY.Open_Interest := open_interest;
           NIFTY.Change_in_OI := change_in_oi;
           NIFTY.Volume := volume; NIFTY.IV := iv;
           NIFTY.Last_Price := last_price;
           NIFTY.Underlying := underlying;
           NIFTY.Bid := bid; NIFTY.Ask := ask;
           NIFTY.Timestamp := timestamp |}.

(** [if sub: records.append({...})] *)
Definition append_side (kind : string) (strike_price sub : value)
    (records : list NIFTY.raw) : M E (list NIFTY.raw) :=
  present <- lift (truthy sub) ;;
  if present then
    r <- nifty_record kind strike_price sub ;;
    M_ret (records ++ [r])
  else M_ret records.

(** The body of [for item in data['records']['data']]. *)
Definition process_item (records : list NIFTY.raw) (item : value)
    : M E (list NIFTY.raw) :=
  strike_price <- lift (py_get item "strikePrice") ;;
  ce_data <- lift (py_get item "CE") ;;
  pe_data <- lift (py_get item "PE") ;;
  records1 <- append_side "CE" strike_price ce_data records ;;
  append_side "PE" strike_price pe_data records1.

Fixpoint for_each (items : list value) (records : list NIFTY.raw)
    : M E (list NIFTY.raw) :=
  match items with
  | [] => M_ret records
  | item :: rest =>
      records' <- process_item records item ;;
      for_each rest records'
  end.

(** [if 'records' in data and 'data' in data['records']: for ...] *)
Definition collect (data : value) : M E (list NIFTY.raw) :=
  has_records <- lift (contains "records" data) ;;
  if has_records then
    recs <- lift (subscript data "records") ;;
    has_data <- lift (contains "data" recs) ;;
    if has_data then
      recs' <- lift (subscript data "records") ;;
      payload <- lift (subscript recs' "data") ;;
      items <- lift (iterate payload) ;;
      for_each items []
    else M_ret []
  else M_ret [].

Definition process_nifty_options_data (data : value)
    : M E (option (DataFrame NIFTY.row)) :=
  t <- lift (truthy data) ;;
  if negb t then M_ret None
  else
    try_except
      (records <- collect data ;;
       df <- lift (pd_DataFrame NIFTY.column_names NIFTY.to_row records) ;;
       M_ret (Some (if negb (empty df) then sort_values df else df)))
      (fun e =>
         print ("Error processing NIFTY data: " ++ str_exn e) ;;;
         M_ret None).

End Shaper.

(** ** Fetcher *)

Section Fetcher.
Context {E : Env}.
Local Open Scope M_scope.

(** The result is Python's [None] ([VNone]) or the chain dictionary. *)
Definition fetch_options_chain (symbol : string) : M E value :=
  try_except
    (expiration_dates <-
       request (ListedExpirations symbol) (ticker_options E symbol) ;;
     match expiration_dates with
     | [] =>
         print ("No options available for " ++ symbol) ;;;
         M_ret VNone
     | expiration_date :: _ =>
         print ("Using nearest expiration date: " ++ expiration_date) ;;;
         options <-
           request (RequestedChain symbol expiration_date)
                   (ticker_option_chain E symbol expiration_date) ;;
         timestamp <- now ;;
         M_ret (VDict [("symbol", VStr symbol);
                       ("expiration_date", VStr expiration_date);
                       ("calls", fst options);
                       ("puts", snd options);
                       ("timestamp", VTime timestamp)])
     end)
    (fun e =>
       print ("Error fetching options for " ++ symbol ++ ": " ++ str_exn e) ;;;
       M_ret VNone).

Definition fetch_nifty_options : M E value :=
  try_except
    (print "Fetching NIFTY options data..." ;;;
     data <- request (Scraped "NIFTY") (scrapper E "NIFTY") ;;
     print "NIFTY data fetched successfully!" ;;;
     M_ret data)
    (fun e =>
       print ("Error fetching NIFTY data: " ++ str_exn e) ;;;
       M_ret VNone).

End Fetcher.

(** ** Presenter *)

(** A null cell counts for nothing in a sum ([skipna]). *)
Definition cell_value (c : cell) : Q :=
  match c with Some q => q | None => 0%Q end.

Definition Qsum (l : list Q) : Q := fold_right Qplus 0%Q l.

Section GroupBy.
Context {R K : Type} (keq kleb : K -> K -> bool).

Fixpoint add_to_group (k : K) (v : Q) (groups : list (K * Q)) : list (K * Q) :=
  match groups with
  | [] => [(k, v)]
  | (k', s) :: groups' =>
      if keq k' k then (k', (s + v)%Q) :: groups'
      else (k', s) :: add_to_group k v groups'
  end.

Definition accumulate (key : R -> option K) (col : R -> cell)
    (groups : list (K * Q)) (r : R) : list (K * Q) :=
  match key r with
  | Some k => add_to_group k (cell_value (col r)) groups
  | None => groups
  end.

(** [df.groupby(key)[col].sum()]: one entry per key met, rows with a null
    key dropped, null cells skipped, entries in ascending key order.  The
    sums are those of the rationals; the figures call it on columns whose
    sums are exact in int64 and float64 alike ([exact_column] below). *)
Definition groupby_sum (key : R -> option K) (col : R -> cell) (rs : list R)
    : list (K * Q) :=
  stable_sort (fun a b => kleb (fst a) (fst b))
              (fold_left (accumulate key col) rs []).
End GroupBy.

(** [s.nlargest(n)]: greatest values first, the first met winning a tie. *)
Definition nlargest {K : Type} (n : nat) (s : list (K * Q)) : list (K * Q) :=
  firstn n (stable_sort (fun a b => Qle_bool (snd b) (snd a)) s).

Inductive oi_figure : Type :=
| OIPie (slices : list (string * Q)) (colors : list (option string))
| OIText (msg : string).

Inductive volume_figure (R : Type) : Type :=
| VolumeBars (data : list R) (order : list Q)
| VolumeText (msg : string).
Arguments VolumeBars {R} data order.
Arguments VolumeText {R} msg.

Inductive ratio_figure : Type :=
| RatioBar (ratio : Q)
| RatioText (msg : string)
| RatioBlank.

Section Presenter.
Context {R : Type} `{OptionRow R}.

(** [df.groupby('Type')['Open_Interest'].sum()] *)
Definition oi_by_type (rs : list R) : list (string * Q) :=
  groupby_sum String.eqb String.leb
              (fun r => Some (row_type r)) row_open_interest rs.

(** The selection of [df.groupby('Strike')['Volume'].sum().nlargest(20)] on
    a numeric volume column; [top_strikes_df] below has the errors. *)
Definition top_strikes (rs : list R) : list (Q * Q) :=
  nlargest 20 (groupby_sum Qeq_bool Qle_bool row_strike row_volume rs).

(** [df[df['Strike'].isin(top_strikes_df['Strike'])]] *)
Definition isin (strikes : list Q) (c : cell) : bool :=
  match c with
  | Some q => existsb (Qeq_bool q) strikes
  | None => false
  end.

Definition plot_rows (rs : list R) : list R :=
  filter (fun r => isin (map fst (top_strikes rs)) (row_strike r)) rs.

(** [sorted(plot_df['Strike'].unique())] *)
Fixpoint unique (l : list Q) : list Q :=
  match l with
  | [] => []
  | q :: l' => q :: filter (fun q' => negb (Qeq_bool q q')) (unique l')
  end.

Fixpoint numbers (l : list cell) : list Q :=
  match l with
  | [] => []
  | Some q :: l' => q :: numbers l'
  | None :: l' => numbers l'
  end.

Definition strike_order (rs : list R) : list Q :=
  stable_sort Qle_bool (unique (numbers (map row_strike rs))).

Definition Qpositive (q : Q) : bool := negb (Qle_bool q 0).

(** *** What the figures are modelled on

    A frame column built from numbers and nulls is numeric (int64, or
    float64 with NaN for its nulls) as soon as it holds one number; a column
    of nulls alone has the object dtype when its nulls are [None].  Sums and
    comparisons in int64 and in float64 agree with the rational ones when
    the numbers of the column are whole and their magnitudes add up to less
    than [2 ^ 53].  Outside these limits the figures are left
    [Unmodelled]. *)

Definition has_number (cs : list cell) : bool :=
  match numbers cs with
  | [] => false
  | _ :: _ => true
  end.

(** The whole number a rational is, none for a fraction. *)
Definition whole_part (q : Q) : option Z :=
  if (Z.rem (Qnum q) (Zpos (Qden q)) =? 0)%Z
  then Some (Z.quot (Qnum q) (Zpos (Qden q)))
  else None.

(** The magnitudes of whole numbers added up, none when one is a fraction. *)
Fixpoint magnitude (l : list Q) : option Z :=
  match l with
  | [] => Some 0%Z
  | q :: l' =>
      match whole_part q, magnitude l' with
      | Some z, Some m => Some (Z.abs z + m)%Z
      | _, _ => None
      end
  end.

Definition exact_column (cs : list cell) : bool :=
  match magnitude (numbers cs) with
  | Some m => (m <? 2 ^ 53)%Z
  | None => false
  end.

(** Every type is one of the two labels the colours are given for. *)
Definition labelled (call_label put_label : string) (rs : list R) : bool :=
  forallb (fun r => (row_type r =? call_label) || (row_type r =? put_label)) rs.

Definition negative (q : Q) : bool := negb (Qle_bool 0 q).

(** Lines 22-31 and 60-69.  The pie of pandas refuses a negative slice with
    a [ValueError]. *)
Definition oi_plot (call_label put_label : string) (rs : list R)
    : res oi_figure :=
  let open_interest := map row_open_interest rs in
  if negb (has_number open_interest && exact_column open_interest)
  then Raise Unmodelled
  else
    let oi_summary := oi_by_type rs in
    match oi_summary with
    | [] => Ok (OIText "No Open Interest Data")
    | _ =>
        if Qpositive (Qsum (map snd oi_summary)) then
          if existsb (fun slice => negative (snd slice)) oi_summary
          then Raise ValueError
          else if negb (labelled call_label put_label rs)
          then Raise Unmodelled
          else
            Ok (OIPie oi_summary
                      (map (fun label =>
                              lookup label [(call_label, "g"); (put_label, "r")])
                           (map fst oi_summary)))
        else Ok (OIText "No Open Interest Data")
    end.

(** Lines 34 and 72, [df.groupby('Strike')['Volume'].sum().nlargest(20)] as
    the program runs it: [nlargest] refuses a column of the object dtype
    with the exception [null_volume], a [TypeError] for the index table,
    whose nulls are [None]. *)
Definition top_strikes_df (null_volume : exn) (rs : list R)
    : res (list (Q * Q)) :=
  let strikes := map row_strike rs in
  let volumes := map row_volume rs in
  if negb (has_number strikes && exact_column strikes && exact_column volumes)
  then Raise Unmodelled
  else if negb (has_number volumes) then Raise null_volume
  else Ok (top_strikes rs).

(** Lines 34-47 and 72-85.  The palette of the bars names the two labels
    only. *)
Definition volume_plot (null_volume : exn) (call_label put_label : string)
    (rs : list R) : res (volume_figure R) :=
  selected <- top_strikes_df null_volume rs ;;
  let plot_df :=
    filter (fun r => isin (map fst selected) (row_strike r)) rs in
  match plot_df with
  | [] => Ok (VolumeText "No Volume Data")
  | _ =>
      if Qpositive (Qsum (map (fun r => cell_value (row_volume r)) plot_df))
      then
        if labelled call_label put_label plot_df
        then Ok (VolumeBars plot_df (strike_order plot_df))
        else Raise Unmodelled
      else Ok (VolumeText "No Volume Data")
  end.

(** Lines 90-92 of [generate_nifty_plots]: the ratio, when it is drawn. *)
Definition put_call_ratio (rs : list R) : option Q :=
  let pc_ratio := oi_by_type rs in
  match lookup "PE" pc_ratio, lookup "CE" pc_ratio with
  | Some pe, Some ce => if Qpositive ce then Some (pe / ce)%Q else None
  | _, _ => None
  end.

Definition ratio_plot (df : DataFrame R) : ratio_figure :=
  if negb (empty df) then
    match put_call_ratio (rows df) with
    | Some ratio => RatioBar ratio
    | None => RatioText "Insufficient data for Put-Call Ratio"
    end
  else RatioBlank.

(** The figures are built one after the other; an exception of one of them
    leaves the function.  The nulls of an equity table may be [NaN] or
    [None], so what [nlargest] does on a volume column of nulls alone is
    left open there. *)
Definition generate_us_plots (df : option (DataFrame R))
    : res (option (oi_figure * volume_figure R)) :=
  match df with
  | None => Ok None
  | Some df =>
      if empty df then Ok None
      else
        fig1 <- oi_plot "Call" "Put" (rows df) ;;
        fig2 <- volume_plot Unmodelled "Call" "Put" (rows df) ;;
        Ok (Some (fig1, fig2))
  end.

Definition generate_nifty_plots (df : option (DataFrame R))
    : res (option (oi_figure * volume_figure R * ratio_figure)) :=
  match df with
  | None => Ok None
  | Some df =>
      if empty df then Ok None
      else
        fig1 <- oi_plot "CE" "PE" (rows df) ;;
        fig2 <- volume_plot TypeError "CE" "PE" (rows df) ;;
        Ok (Some (fig1, fig2, ratio_plot df))
  end.

(** A table on which every figure is built: its strikes, volumes and open
    interests are whole numbers within the exact range, at least one of
    each, its types are the two labels, and no type has a negative open
    interest. *)
Definition plottable (call_label put_label : string) (rs : list R) : bool :=
  has_number (map row_open_interest rs)
  && exact_column (map row_open_interest rs)
  && has_number (map row_strike rs)
  && exact_column (map row_strike rs)
  && has_number (map row_volume rs)
  && exact_column (map row_volume rs)
  && labelled call_label put_label rs
  && negb (existsb (fun slice => negative (snd slice)) (oi_by_type rs)).

End Presenter.

(** ** Export ([streamlit_app.py], the filters and the download button) *)

Definition comma : ascii := ","%char.
Definition quote : ascii := ascii_of_nat 34.
Definition newline : ascii := ascii_of_nat 10.
Definition carriage_return : ascii := ascii_of_nat 13.

Definition is_special (c : ascii) : bool :=
  ((c =? comma) || (c =? quote) || (c =? newline) || (c =? carriage_return))%char.

Fixpoint needs_quoting (s : string) : bool :=
  match s with
  | EmptyString => false
  | String c s' => is_special c || needs_quoting s'
  end.

Fixpoint double_quotes (s : string) : string :=
  match s with
  | EmptyString => EmptyString
  | String c s' =>
      if (c =? quote)%char then String quote (String quote (double_quotes s'))
      else String c (double_quotes s')
  end.

(** A field as the writer puts it: quoted only when it holds a separator, a
    quote or a line break.  Lines end with a line feed. *)
Definition csv_field (s : string) : string :=
  if needs_quoting s
  then String quote (double_quotes s ++ String quote EmptyString)
  else s.

Definition csv_line (fields : list string) : string :=
  String.concat (String comma EmptyString) (map csv_field fields)
  ++ String newline EmptyString.

Definition in_range (strike_range : Z * Z) (c : cell) : bool :=
  match c with
  | Some q =>
      Qle_bool (inject_Z (fst strike_range)) q &&
      Qle_bool q (inject_Z (snd strike_range))
  | None => false
  end.

(** The table shown and exported: [df_nifty] restricted to the chosen type
    and strike range. *)
Definition filter_frame (option_type_filter : string) (strike_range : Z * Z)
    (df_nifty : DataFrame NIFTY.row) : DataFrame NIFTY.row :=
  let filtered_df :=
    if negb (option_type_filter =? "All") then
      {| columns := columns df_nifty;
         rows := filter (fun r => NIFTY.Type_ r =? option_type_filter)
                        (rows df_nifty) |}
    else df_nifty in
  if negb (empty df_nifty) then
    {| columns := columns filtered_df;
       rows := filter (fun r => in_range strike_range (NIFTY.Strike r))
                      (rows filtered_df) |}
  else filtered_df.

Section CsvExport.
(** How a number and a clock reading are printed is left open: the
    statements hold whatever the formatting. *)
Variables (format_number : Q -> string) (format_time : Z -> string).

Definition render (c : cell) : string :=
  match c with
  | Some q => format_number q
  | None => EmptyString
  end.

(** The fields of a row, in column order. *)
Definition nifty_texts (r : NIFTY.row) : list string :=
  [NIFTY.Symbol r; NIFTY.Type_ r; render (NIFTY.Strike r);
   render (NIFTY.Open_Interest r); render (NIFTY.Change_in_OI r);
   render (NIFTY.Volume r); render (NIFTY.IV r);
   render (NIFTY.Last_Price r); render (NIFTY.Underlying r);
   render (NIFTY.Bid r); render (NIFTY.Ask r);
   format_time (NIFTY.Timestamp r)].

(** [filtered_df.to_csv(index=False)]: the header, then one line per row. *)
Definition to_csv (df : DataFrame NIFTY.row) : string :=
  csv_line (columns df)
  ++ String.concat EmptyString (map (fun r => csv_line (nifty_texts r)) (rows df)).
End CsvExport.

(** Where the reader stands in a field. *)
Inductive mode : Type :=
| FieldStart
| Unquoted
| Quoted
| QuoteSeen.

Definition snoc (s : string) (c : ascii) : string :=
  (s ++ String c EmptyString)%string.

(** Modelled from the spec: the reader that parses the exported text back,
    which the repository does not contain.  It is the counterpart of the
    writer: fields end at commas, lines at line feeds, and a field that opens
    with a quote runs to its closing quote, a doubled quote inside standing
    for one.  [cur] is the field being read, [fields] the fields of the
    line read so far. *)
Fixpoint scan (m : mode) (cur : string) (fields : list string) (s : string)
    : list (list string) :=
  match s with
  | EmptyString =>
      match m, fields with
      | FieldStart, [] => []
      | _, _ => [fields ++ [cur]]
      end
  | String c s' =>
      match m with
      | FieldStart | Unquoted =>
          if (c =? comma)%char
          then scan FieldStart EmptyString (fields ++ [cur]) s'
          else if (c =? newline)%char
          then (fields ++ [cur]) :: scan FieldStart EmptyString [] s'
          else if (c =? quote)%char
                  && match m with FieldStart => true | _ => false end
          then scan Quoted cur fields s'
          else scan Unquoted (snoc cur c) fields s'
      | Quoted =>
          if (c =? quote)%char then scan QuoteSeen cur fields s'
          else scan Quoted (snoc cur c) fields s'
      | QuoteSeen =>
          if (c =? quote)%char then scan Quoted (snoc cur c) fields s'
          else if (c =? comma)%char
          then scan FieldStart EmptyString (fields ++ [cur]) s'
          else if (c =? newline)%char
          then (fields ++ [cur]) :: scan FieldStart EmptyString [] s'
          else scan Unquoted (snoc cur c) fields s'
      end
  end.

Definition read_csv (text : string) : list (list string) :=
  scan FieldStart EmptyString [] text.

(** ** Requests of a trace *)

Definition is_request (ev : event) : bool :=
  match ev with
  | Printed _ => false
  | _ => true
  end.

Definition requests (tr : list event) : list event := filter is_request tr.

(** The client lists expirations in ascending order of their ISO dates. *)
Definition chronological (E : Env) : Prop :=
  forall (symbol : string) (w w' : World E) (dates : list string),
    ticker_options E symbol w = (Reply dates, w') ->
    StronglySorted (fun a b => (a <=? b)%string = true) dates.

(** ** Vocabulary of the statements *)

(** A value a numeric column accepts. *)
Definition numeric (v : value) : bool :=
  match v with
  | VNone | VNum _ => true
  | _ => false
  end.

Definition cell_of (v : value) : cell :=
  match v with
  | VNum q => Some q
  | _ => None
  end.

(** The labels [process_options_data] reads in a row. *)
Definition us_fields : list string :=
  ["strike"; "lastPrice"; "bid"; "ask"; "volume"; "openInterest";
   "impliedVolatility"].

Definition numeric_series (row : series) : bool :=
  forallb (fun k => numeric (series_get row k zero)) us_fields.

Definition us_cells (r : US.raw) : US.row :=
  {| US.Symbol := US.Symbol r; US.Type_ := US.Type_ r;
     US.Strike := cell_of (US.Strike r);
     US.Last_Price := cell_of (US.Last_Price r);
     US.Bid := cell_of (US.Bid r);
     US.Ask := cell_of (US.Ask r);
     US.Volume := cell_of (US.Volume r);
     US.Open_Interest := cell_of (US.Open_Interest r);
     US.Implied_Volatility := cell_of (US.Implied_Volatility r);
     US.Expiration_Date := US.Expiration_Date r |}.

(** The frame row that one row of the [option_type] table becomes. *)
Definition us_row (symbol expiration_date : value) (option_type : string)
    (row : series) : US.row :=
  us_cells (us_record symbol expiration_date option_type row).

Definition us_numeric_cells (r : US.row) : list cell :=
  [US.Strike r; US.Last_Price r; US.Bid r; US.Ask r; US.Volume r;
   US.Open_Interest r; US.Implied_Volatility r].

(** The cell a label gives: the value present, zero when the label is missing. *)
Definition cell_or_zero (row : series) (k : string) : cell :=
  match lookup k row with
  | Some v => cell_of v
  | None => Some (0 # 1)%Q
  end.

(** Strikes in ascending order, nulls last. *)
Definition strikes_ascending {R : Type} `{OptionRow R} (rs : list R) : Prop :=
  StronglySorted (fun a b => cell_leb (row_strike a) (row_strike b) = true) rs.

(** The labels [process_nifty_options_data] reads in a sub-object. *)
Definition nifty_fields : list string :=
  ["openInterest"; "changeinOpenInterest"; "totalTradedVolume";
   "impliedVolatility"; "lastPrice"; "underlyingValue"; "bidprice";
   "askPrice"].

(** The record of a sub-object [d], stamped [t]. *)
Definition nifty_raw (kind : string) (strike_price : value)
    (d : list (string * value)) (t : Z) : NIFTY.raw :=
  {| NIFTY.Symbol := "NIFTY"; NIFTY.Type_ := kind;
     NIFTY.Strike := strike_price;
     NIFTY.Open_Interest := dict_get d "openInterest";
     NIFTY.Change_in_OI := dict_get d "changeinOpenInterest";
     NIFTY.Volume := dict_get d "totalTradedVolume";
     NIFTY.IV := dict_get d "impliedVolatility";
     NIFTY.Last_Price := dict_get d "lastPrice";
     NIFTY.Underlying := dict_get d "underlyingValue";
     NIFTY.Bid := dict_get d "bidprice";
     NIFTY.Ask := dict_get d "askPrice";
     NIFTY.Timestamp := t |}.

Definition nifty_cells (r : NIFTY.raw) : NIFTY.row :=
  {| NIFTY.Symbol := NIFTY.Symbol r; NIFTY.Type_ := NIFTY.Type_ r;
     NIFTY.Strike := cell_of (NIFTY.Strike r);
     NIFTY.Open_Interest := cell_of (NIFTY.Open_Interest r);
     NIFTY.Change_in_OI := cell_of (NIFTY.Change_in_OI r);
     NIFTY.Volume := cell_of (NIFTY.Volume r);
     NIFTY.IV := cell_of (NIFTY.IV r);
     NIFTY.Last_Price := cell_of (NIFTY.Last_Price r);
     NIFTY.Underlying := cell_of (NIFTY.Underlying r);
     NIFTY.Bid := cell_of (NIFTY.Bid r);
     NIFTY.Ask := cell_of (NIFTY.Ask r);
     NIFTY.Timestamp := NIFTY.Timestamp r |}.

(** The frame row of a sub-object, its clock reading blanked. *)
Definition nifty_row (kind : string) (strike_price : value)
    (d : list (string * value)) : NIFTY.row :=
  nifty_cells (nifty_raw kind strike_price d 0).

(** The rows a sub-object stands for: one when it is a non-empty
    dictionary, none otherwise. *)
Definition side_rows (kind : string) (strike_price sub : value)
    : list NIFTY.row :=
  match sub with
  | VDict (kv :: d) => [nifty_row kind strike_price (kv :: d)]
  | _ => []
  end.

(** The rows a strike entry stands for, CE first. *)
Definition entry_rows (item : value) : list NIFTY.row :=
  match item with
  | VDict it =>
      side_rows "CE" (dict_get it "strikePrice") (dict_get it "CE") ++
      side_rows "PE" (dict_get it "strikePrice") (dict_get it "PE")
  | _ => []
  end.

(** A sub-object the shaper handles: absent or otherwise false, or a
    non-empty dictionary of numeric fields. *)
Definition side_ok (sub : value) : bool :=
  match sub with
  | VDict (kv :: d) =>
      forallb (fun k => numeric (dict_get (kv :: d) k)) nifty_fields
  | VFrame _ => false
  | VNone | VDict [] | VList [] => true
  | VBool b => negb b
  | VNum q => Qeq_bool q 0
  | VStr s => s =? EmptyString
  | VTime _ | VList (_ :: _) => false
  end.

(** A strike entry of an index payload: a dictionary with a numeric or
    missing strike price whose CE and PE the shaper handles. *)
Definition entry_ok (item : value) : bool :=
  match item with
  | VDict it =>
      numeric (dict_get it "strikePrice") &&
      side_ok (dict_get it "CE") && side_ok (dict_get it "PE")
  | _ => false
  end.


(** The strike price of an entry, when it is a number. *)
Definition entry_strike (item : value) : cell :=
  match item with
  | VDict it => cell_of (dict_get it "strikePrice")
  | _ => None
  end.



(** Whether the shaper takes a sub-object: its truth value. *)
Definition present (sub : value) : bool :=
  match truthy sub with
  | Ok b => b
  | Raise _ => false
  end.

(** ** A sample environment

    A clock that advances by one at each reading, a client that lists two
    expirations and answers every chain request with the same two tables,
    and a scraper that answers with a two-strike payload. *)

Definition sample_calls : value :=
  VFrame [[("strike", VNum 150%Q); ("volume", VNum 1000%Q);
           ("openInterest", VNum 500%Q)];
          [("strike", VNum 145%Q); ("lastPrice", VNum (21 # 2)%Q);
           ("openInterest", VNum 120%Q)]].

Definition sample_puts : value :=
  VFrame [[("strike", VNum 150%Q); ("volume", VNum 800%Q);
           ("openInterest", VNum 300%Q)]].

(** A strike entry with both sides, and one with a CE side only. *)
Definition sample_entry_150 : list (string * value) :=
  [("strikePrice", VNum 150%Q);
   ("CE", VDict [("openInterest", VNum 500%Q);
                 ("totalTradedVolume", VNum 1000%Q)]);
   ("PE", VDict [("openInterest", VNum 300%Q);
                 ("totalTradedVolume", VNum 800%Q)])].

Definition sample_entry_100 : list (string * value) :=
  [("strikePrice", VNum 100%Q);
   ("CE", VDict [("openInterest", VNum 40%Q)])].

Definition sample_records : list (string * value) :=
  [("data", VList [VDict sample_entry_150; VDict sample_entry_100])].

Definition sample_index : list (string * value) :=
  [("records", VDict sample_records)].

Definition sample_index_payload : value := VDict sample_index.

(** The chain dictionary of the sample tables. *)
Definition sample_chain : list (string * value) :=
  [("symbol", VStr "AAPL");
   ("expiration_date", VStr "2024-01-19");
   ("calls", sample_calls);
   ("puts", sample_puts)].

Definition sample_env : Env :=
  {| World := Z;
     datetime_now := fun w => (w, (w + 1)%Z);
     ticker_options := fun _ w => (Reply ["2024-01-19"; "2024-02-16"], w);
     ticker_option_chain := fun _ _ w => (Reply (sample_calls, sample_puts), w);
     scrapper := fun _ w => (Reply sample_index_payload, w) |}.

(** The sample world at clock reading [t], nothing traced yet. *)
Definition at_time (t : Z) : state sample_env := Build_state sample_env t [].

(** A client that lists the later of its two expirations first. *)
Definition late_first_env : Env :=
  {| World := Z;
     datetime_now := fun w => (w, (w + 1)%Z);
     ticker_options := fun _ w => (Reply ["2024-02-16"; "2024-01-19"], w);
     ticker_option_chain := fun _ _ w => (Reply (sample_calls, sample_puts), w);
     scrapper := fun _ w => (Reply sample_index_payload, w) |}.

(** The rows the equity shaper reads under a key of its payload: those of the
    table, none when the key is missing or holds [None]. *)
Definition table_of (entry : option value) : option (list series) :=
  match entry with
  | None | Some VNone => Some []
  | Some (VFrame table) => Some table
  | Some _ => None
  end.

(** ** Outcomes compared up to the clock *)

Definition res_map {A B : Type} (f : A -> B) (r : res A) : res B :=
  match r with
  | Ok a => Ok (f a)
  | Raise e => Raise e
  end.

Definition untimed_frame (df : DataFrame NIFTY.row) : DataFrame NIFTY.row :=
  {| columns := columns df; rows := map NIFTY.untimed (rows df) |}.

(** The outcome of the index shaper with the clock readings blanked. *)
Definition untimed_outcome (r : res (option (DataFrame NIFTY.row)))
    : res (option (DataFrame NIFTY.row)) :=
  res_map (option_map untimed_frame) r.

(** ** Sums by type, as the statements speak of them *)

Section TypeSums.
Context {R : Type} `{OptionRow R}.

(** Whether some record has the type [ty]. *)
Definition has_type (ty : string) (rs : list R) : bool :=
  existsb (fun r => row_type r =? ty) rs.

(** The open interest summed over the records of type [ty]. *)
Definition type_sum (ty : string) (rs : list R) : Q :=
  Qsum (map (fun r => cell_value (row_open_interest r))
            (filter (fun r => row_type r =? ty) rs)).
End TypeSums.

(** Equality of optional numbers, as numbers. *)
Definition opt_Qeq (a b : option Q) : Prop :=
  match a, b with
  | Some x, Some y => (x == y)%Q
  | None, None => True
  | _, _ => False
  end.

(** ** Fields of an export *)

(** A text the writer leaves unquoted. *)
Definition plain (s : string) : bool := negb (needs_quoting s).

(** The characters that end a field. *)
Definition ends_field (c : ascii) : bool := ((c =? comma) || (c =? newline))%char.

(** What the reader does with the field [cur] at the character [c] that ends
    it. *)
Definition close (c : ascii) (cur : string) (fields : list string)
    (rest : string) : list (list string) :=
  if (c =? comma)%char then scan FieldStart EmptyString (fields ++ [cur]) rest
  else (fields ++ [cur]) :: scan FieldStart EmptyString [] rest.

(** ** Keys of records *)

Definition us_same_key (a b : US.row) : Prop :=
  US.Symbol a = US.Symbol b /\ US.Type_ a = US.Type_ b /\
  cell_eqb (US.Strike a) (US.Strike b) = true /\
  US.Expiration_Date a = US.Expiration_Date b.

Definition nifty_same_key (a b : NIFTY.row) : Prop :=
  NIFTY.Symbol a = NIFTY.Symbol b /\ NIFTY.Type_ a = NIFTY.Type_ b /\
  cell_eqb (NIFTY.Strike a) (NIFTY.Strike b) = true.

(** No two records of the table have the same key. *)
Definition unique_keys {R : Type} (same_key : R -> R -> Prop) (rs : list R)
    : Prop :=
  ForallOrdPairs (fun a b => ~ same_key a b) rs.

(** No two cells of the list are equal; two nulls count as equal. *)
Definition distinct_cells (cs : list cell) : Prop :=
  ForallOrdPairs (fun a b => cell_eqb a b = false) cs.

(** The strike the equity shaper reads in a row. *)
Definition series_strike (row : series) : cell :=
  cell_of (series_get row "strike" zero).

(** An equity payload with two call rows at one strike. *)
Definition twin_strike_payload : value :=
  VDict [("symbol", VStr "AAPL");
         ("expiration_date", VStr "2024-01-19");
         ("calls", VFrame [[("strike", VNum 150%Q); ("volume", VNum 10%Q)];
                           [("strike", VNum 150%Q); ("volume", VNum 20%Q)]]);
         ("puts", VFrame [])].



(** ** Sample tables and formats *)

(** The two records of the worked example: a CE and a PE at strike 150. *)
Definition sample_ce : NIFTY.row :=
  nifty_row "CE" (VNum 150%Q)
    [("openInterest", VNum 500%Q); ("totalTradedVolume", VNum 1000%Q)].

Definition sample_pe : NIFTY.row :=
  nifty_row "PE" (VNum 150%Q)
    [("openInterest", VNum 300%Q); ("totalTradedVolume", VNum 800%Q)].

Definition sample_frame : DataFrame NIFTY.row :=
  {| columns := NIFTY.column_names; rows := [sample_ce; sample_pe] |}.

(** A number printed as numerator, slash, denominator, in decimal. *)
Definition fraction_text (q : Q) : string :=
  (DecimalString.NilZero.string_of_int (Z.to_int (Qnum q))
   ++ "/" ++ DecimalString.NilZero.string_of_uint (Pos.to_uint (Qden q)))%string.

(** A clock reading printed as a decimal count. *)
Definition reading_text (t : Z) : string :=
  DecimalString.NilZero.string_of_int (Z.to_int t).

(** ** Tags of shaped records *)

(** A record of the index table carries the symbol NIFTY and the type CE or
    PE. *)
Definition nifty_tagged {C : Type} (r : NIFTY.record C) : Prop :=
  NIFTY.Symbol r = "NIFTY" /\ (NIFTY.Type_ r = "CE" \/ NIFTY.Type_ r = "PE").

(** A record of the equity table carries the symbol and expiration of its
    chain and the type Call or Put. *)
Definition us_tagged {C : Type} (symbol expiration_date : value)
    (r : US.record C) : Prop :=
  US.Symbol r = symbol /\ US.Expiration_Date r = expiration_date /\
  (US.Type_ r = "Call" \/ US.Type_ r = "Put").

(** The columns a frame of [n] records has: none when it is empty. *)
Definition columns_for {R : Type} (names : list string) (rs : list R)
    : list string :=
  match rs with
  | [] => []
  | _ => names
  end.

(** A value on which [.get] raises [AttributeError]: anything but a
    dictionary or a table. *)
Definition lacks_get (v : value) : bool :=
  match v with
  | VDict _ | VFrame _ => false
  | _ => true
  end.

(** A sub-object that is taken and is no dictionary: reading its fields
    raises. *)
Definition side_breaks (sub : value) : bool :=
  match sub with
  | VDict _ | VFrame _ => false
  | v => present v
  end.

(** A sub-object handled without an exception: a dictionary, or a value that
    is false. *)
Definition side_passes (sub : value) : bool :=
  match sub with
  | VDict _ => true
  | VFrame _ => false
  | v => negb (present v)
  end.

(** A strike entry on which the loop raises [AttributeError]: not a
    dictionary, or one whose first taken sub-object is no dictionary. *)
Definition entry_breaks (item : value) : bool :=
  match item with
  | VDict it =>
      side_breaks (dict_get it "CE")
      || (side_passes (dict_get it "CE") && side_breaks (dict_get it "PE"))
  | VFrame _ => false
  | _ => true
  end.

(** A value that is true and cannot be indexed by a key: a non-empty string
    or list, a non-zero number, [True], a clock reading. *)
Definition true_scalar (v : value) : bool :=
  match v with
  | VDict _ | VFrame _ => false
  | v => present v
  end.

(** What a payload may hold under calls or puts without an exception: nothing,
    [None] or a table. *)
Definition table_entry (entry : option value) : bool :=
  match table_of entry with
  | Some _ => true
  | None => false
  end.

(** ** Quote lookup ([get_stock_info]) *)

(** [v.get(k, default)]: only dictionaries have the method. *)
Definition py_get_default (v : value) (k : string) (default : value)
    : res value :=
  match v with
  | VDict d => Ok (match lookup k d with Some x => x | None => default end)
  | VFrame _ => Raise Unmodelled
  | _ => Raise AttributeError
  end.

Section Quote.
Context {E : Env}.
(** [yf.Ticker(symbol).info], a service the chain client does not list. *)
Variable ticker_info : string -> World E -> response value * World E.
Local Open Scope M_scope.

(** A call to a service that leaves no entry in the trace of requests. *)
Definition perform {A : Type} (call : World E -> response A * World E)
    : M E A :=
  fun s => let (r, w) := call (world s) in
           (match r with
            | Reply a => Ok a
            | Failure msg => Raise (ProviderError msg)
            end,
            {| world := w; trace := trace s |}).

(** The result is Python's [None] ([VNone]) or the quote dictionary. *)
Definition get_stock_info (symbol : string) : M E value :=
  try_except
    (info <- perform (ticker_info symbol) ;;
     name <- lift (py_get_default info "longName" (VStr symbol)) ;;
     current_price <- lift (py_get_default info "currentPrice" zero) ;;
     market_cap <- lift (py_get_default info "marketCap" zero) ;;
     sector <- lift (py_get_default info "sector" (VStr "Unknown")) ;;
     industry <- lift (py_get_default info "industry" (VStr "Unknown")) ;;
     M_ret (VDict [("symbol", VStr symbol);
                   ("name", name);
                   ("current_price", current_price);
                   ("market_cap", market_cap);
                   ("sector", sector);
                   ("industry", industry)]))
    (fun e =>
       print ("Error getting info for " ++ symbol ++ ": " ++ str_exn e) ;;;
       M_ret VNone).
End Quote.

(** The value a quote holds for a key of the service's answer. *)
Definition info_or (info : list (string * value)) (k : string)
    (default : value) : value :=
  match lookup k info with
  | Some x => x
  | None => default
  end.

(** ** The filters as one test *)

(** Whether the table shown keeps a row: its type is the chosen one, unless
    all types are chosen, and its strike is a number of the range. *)
Definition kept (option_type_filter : string) (strike_range : Z * Z)
    (r : NIFTY.row) : bool :=
  ((option_type_filter =? "All") || (NIFTY.Type_ r =? option_type_filter))
  && in_range strike_range (NIFTY.Strike r).

(** ** Sums of groups, as the statements speak of them *)

(** The cells of [col] summed over the rows whose key is [k], as [keq]
    compares keys. *)
Definition group_sum {R K : Type} (keq : K -> K -> bool)
    (key : R -> option K) (col : R -> cell) (k : K) (rs : list R) : Q :=
  Qsum (map (fun r => cell_value (col r))
            (filter (fun r => match key r with
                              | Some k' => keq k' k
                              | None => false
                              end) rs)).

(** No two groups have the same key. *)
Definition distinct_keys {K : Type} (keq : K -> K -> bool)
    (groups : list (K * Q)) : Prop :=
  ForallOrdPairs (fun a b => keq (fst a) (fst b) = false) groups.

Section VolumeSums.
Context {R : Type} `{OptionRow R}.

(** [df.groupby('Strike')['Volume'].sum()] *)
Definition volume_by_strike (rs : list R) : list (Q * Q) :=
  groupby_sum Qeq_bool Qle_bool row_strike row_volume rs.

(** The volume summed over the records at strike [k]. *)
Definition strike_volume (k : Q) (rs : list R) : Q :=
  group_sum Qeq_bool row_strike row_volume k rs.

(** The open interest summed over all records. *)
Definition total_open_interest (rs : list R) : Q :=
  Qsum (map (fun r => cell_value (row_open_interest r)) rs).

(** Whether the strike of a record is a number. *)
Definition has_strike (r : R) : bool :=
  match row_strike r with
  | Some _ => true
  | None => false
  end.
End VolumeSums.

(** ** The two tabs ([streamlit_app.py]) *)

(** What the equity tab shows for the options of a symbol. *)
Inductive us_view : Type :=
| USDashboard (figures : option (oi_figure * volume_figure US.row))
              (df : DataFrame US.row)
| USWarning (msg : string)
| USBlank.

(** The four metrics of the index tab; the index value is [None] when the
    tab shows N/A. *)
Record nifty_metrics : Type := {
  total_contracts : nat;
  call_options : nat;
  put_options : nat;
  nifty_value : option cell
}.

(** What the index tab shows down to its figures. *)
Inductive nifty_view : Type :=
| NiftyDashboard (metrics : nifty_metrics)
                 (figures : option (oi_figure * volume_figure NIFTY.row
                                    * ratio_figure))
                 (df : DataFrame NIFTY.row)
| NiftyWarning (msg : string)
| NiftyError (msg : string).

Definition count_type (ty : string) (rs : list NIFTY.row) : nat :=
  List.length (filter (fun r => NIFTY.Type_ r =? ty) rs).

(** [not df['Underlying'].isna().all()] picks [df['Underlying'].iloc[0]]. *)
Definition underlying_metric (rs : list NIFTY.row) : option cell :=
  if existsb (fun r => match NIFTY.Underlying r with
                       | Some _ => true
                       | None => false
                       end) rs
  then match rs with
       | r :: _ => Some (NIFTY.Underlying r)
       | [] => None
       end
  else None.

Section Tabs.
Context {E : Env}.
Local Open Scope M_scope.

(** Lines 59-83: the chain is fetched, shaped and drawn.  The figures are
    built outside any handler: their exception ends the run of the tab. *)
Definition us_options_view (selected_symbol : string) : M E us_view :=
  options_data <- fetch_options_chain selected_symbol ;;
  fetched <- lift (truthy options_data) ;;
  if fetched then
    df <- lift (process_options_data options_data) ;;
    match df with
    | Some df' =>
        if negb (empty df')
        then
          figures <- lift (generate_us_plots df) ;;
          M_ret (USDashboard figures df')
        else M_ret (USWarning "Could not process options data.")
    | None => M_ret (USWarning "Could not process options data.")
    end
  else M_ret USBlank.

(** Lines 96-137 and 175-178: the payload is fetched, shaped, counted and
    drawn.  The figures are built outside any handler: their exception ends
    the run of the tab. *)
Definition nifty_options_view : M E nifty_view :=
  nifty_raw_data <- fetch_nifty_options ;;
  fetched <- lift (truthy nifty_raw_data) ;;
  if fetched then
    df_nifty <- process_nifty_options_data nifty_raw_data ;;
    match df_nifty with
    | Some df =>
        if negb (empty df)
        then
          figures <- lift (generate_nifty_plots df_nifty) ;;
          M_ret (NiftyDashboard
                   {| total_contracts := List.length (rows df);
                      call_options := count_type "CE" (rows df);
                      put_options := count_type "PE" (rows df);
                      nifty_value := underlying_metric (rows df) |}
                   figures df)
        else M_ret (NiftyWarning "Could not process NIFTY options data.")
    | None => M_ret (NiftyWarning "Could not process NIFTY options data.")
    end
  else M_ret (NiftyError "Failed to fetch NIFTY options data.").

End Tabs.

(** ** The default strike range (lines 147-150) *)

Definition Qmin_bool (a b : Q) : Q := if Qle_bool a b then a else b.
Definition Qmax_bool (a b : Q) : Q := if Qle_bool a b then b else a.

(** [column.min()] and [column.max()]: nulls skipped, null when nothing is
    left. *)
Definition column_min (cs : list cell) : cell :=
  match numbers cs with
  | [] => None
  | q :: l => Some (fold_left Qmin_bool l q)
  end.

Definition column_max (cs : list cell) : cell :=
  match numbers cs with
  | [] => None
  | q :: l => Some (fold_left Qmax_bool l q)
  end.

(** [int(x)]: a null is refused, a number is cut towards zero. *)
Definition py_int (c : cell) : res Z :=
  match c with
  | None => Raise ValueError
  | Some q => Ok (Z.quot (Qnum q) (Zpos (Qden q)))
  end.

(** The range the slider starts with. *)
Definition default_strike_range (df_nifty : DataFrame NIFTY.row)
    : res (Z * Z) :=
  min_strike <- py_int (column_min (map NIFTY.Strike (rows df_nifty))) ;;
  max_strike <- py_int (column_max (map NIFTY.Strike (rows df_nifty))) ;;
  Ok (min_strike, max_strike).

(** A cell that is null or a whole number. *)
Definition whole (c : cell) : Prop :=
  match c with
  | Some q => exists z : Z, (q == inject_Z z)%Q
  | None => True
  end.

(** * Properties *)

(** ** Facts about the exception monad and lists *)

Lemma mapM_ok {A B : Type} (f : A -> res B) (g : A -> B) (l : list A) :
  Forall (fun a => f a = Ok (g a)) l -> mapM f l = Ok (map g l).
Proof.
  induction 1 as [|a l Ha _ IH]; simpl.
  - reflexivity.
  - rewrite Ha. simpl. rewrite IH. reflexivity.
Qed.

Lemma mapM_length {A B : Type} (f : A -> res B) (l : list A) (bs : list B) :
  mapM f l = Ok bs -> List.length bs = List.length l.
Proof.
  revert bs. induction l as [|a l IH]; simpl; intros bs Hm.
  - inversion Hm. reflexivity.
  - destruct (f a) as [b|e]; simpl in Hm; [|discriminate].
    destruct (mapM f l) as [bs'|e]; simpl in Hm; [|discriminate].
    inversion Hm. simpl. f_equal. apply IH. reflexivity.
Qed.

(** ** Facts about the stable sort *)

Section StableSortFacts.
Context {A : Type} (leb : A -> A -> bool).

Lemma insert_sorted_perm (x : A) (l : list A) :
  Permutation (insert_sorted leb x l) (x :: l).
Proof.
  induction l as [|y l IH]; simpl.
  - apply Permutation_refl.
  - destruct (leb x y).
    + apply Permutation_refl.
    + eapply Permutation_trans; [apply perm_skip, IH | apply perm_swap].
Qed.

Lemma stable_sort_perm (l : list A) : Permutation (stable_sort leb l) l.
Proof.
  induction l as [|x l IH]; simpl.
  - constructor.
  - eapply Permutation_trans; [apply insert_sorted_perm | apply perm_skip, IH].
Qed.

Lemma stable_sort_length (l : list A) :
  List.length (stable_sort leb l) = List.length l.
Proof. apply Permutation_length, stable_sort_perm. Qed.

Lemma stable_sort_in (x : A) (l : list A) : In x (stable_sort leb l) <-> In x l.
Proof.
  split; apply Permutation_in;
    [apply stable_sort_perm | apply Permutation_sym, stable_sort_perm].
Qed.

Lemma stable_sort_Forall (P : A -> Prop) (l : list A) :
  Forall P l -> Forall P (stable_sort leb l).
Proof.
  rewrite !Forall_forall. intros HP x Hx. apply HP, stable_sort_in, Hx.
Qed.

(** An element below everything in [l2] is inserted without touching [l2]. *)
Lemma insert_sorted_app (x : A) (l1 l2 : list A) :
  Forall (fun y => leb x y = true) l2 ->
  insert_sorted leb x (l1 ++ l2) = insert_sorted leb x l1 ++ l2.
Proof.
  intros Hlow. induction l1 as [|y l1 IH]; simpl.
  - destruct Hlow as [|y l2 Hy _]; simpl; [reflexivity|].
    rewrite Hy. reflexivity.
  - destruct (leb x y); [reflexivity|]. rewrite IH. reflexivity.
Qed.

(** Sorting a list whose first part lies below its second part sorts the
    two parts separately. *)
Lemma stable_sort_app (l1 l2 : list A) :
  Forall (fun x => Forall (fun y => leb x y = true) l2) l1 ->
  stable_sort leb (l1 ++ l2) = stable_sort leb l1 ++ stable_sort leb l2.
Proof.
  induction 1 as [|x l1 Hx _ IH]; simpl.
  - reflexivity.
  - rewrite IH. apply insert_sorted_app.
    rewrite Forall_forall in *. intros y Hy. apply Hx.
    apply (proj1 (stable_sort_in y l2)), Hy.
Qed.

Section Ordered.
Hypothesis leb_total : forall a b, leb a b = true \/ leb b a = true.
Hypothesis leb_trans :
  forall a b c, leb a b = true -> leb b c = true -> leb a c = true.

Let le (a b : A) : Prop := leb a b = true.

Lemma insert_sorted_sorted (x : A) (l : list A) :
  StronglySorted le l -> StronglySorted le (insert_sorted leb x l).
Proof.
  induction 1 as [|y l Hs IH Hy]; simpl.
  - repeat constructor.
  - destruct (leb x y) eqn:Hxy.
    + constructor; [constructor; assumption|].
      constructor; [exact Hxy|].
      rewrite Forall_forall in *. intros z Hz.
      apply (leb_trans x y z); [exact Hxy | apply Hy, Hz].
    + constructor; [exact IH|].
      rewrite Forall_forall in *. intros z Hz.
      apply (Permutation_in _ (insert_sorted_perm x l)) in Hz.
      destruct Hz as [<-|Hz]; [|apply Hy, Hz].
      destruct (leb_total x y) as [H1|H1]; [congruence | exact H1].
Qed.

Lemma stable_sort_sorted (l : list A) : StronglySorted le (stable_sort leb l).
Proof.
  induction l as [|x l IH]; simpl.
  - constructor.
  - apply insert_sorted_sorted, IH.
Qed.
End Ordered.
End StableSortFacts.

(** Sorting commutes with a map that respects the order. *)
Lemma stable_sort_map {A B : Type} (f : A -> B)
    (lebA : A -> A -> bool) (lebB : B -> B -> bool) (l : list A) :
  (forall a b, lebB (f a) (f b) = lebA a b) ->
  map f (stable_sort lebA l) = stable_sort lebB (map f l).
Proof.
  intros Hf. induction l as [|x l IH]; simpl; [reflexivity|].
  rewrite <- IH. generalize (stable_sort lebA l) as s.
  induction s as [|y s IHs]; simpl; [reflexivity|].
  rewrite Hf. destruct (lebA x y); simpl; [reflexivity|].
  rewrite IHs. reflexivity.
Qed.

(** ** The order of [(Type, Strike)] is a total preorder *)

Lemma ascii_compare_refl (a : ascii) : Ascii.compare a a = Eq.
Proof. unfold Ascii.compare. apply N.compare_refl. Qed.

Lemma string_compare_refl (s : string) : String.compare s s = Eq.
Proof.
  induction s as [|a s IH]; simpl; [reflexivity|].
  rewrite ascii_compare_refl. exact IH.
Qed.

Lemma string_compare_lt_trans (s1 s2 s3 : string) :
  String.compare s1 s2 = Lt -> String.compare s2 s3 = Lt ->
  String.compare s1 s3 = Lt.
Proof.
  revert s2 s3.
  induction s1 as [|a s1 IH]; intros [|b s2] [|c s3]; simpl;
    try discriminate; try reflexivity.
  destruct (Ascii.compare a b) eqn:Hab; try discriminate;
    destruct (Ascii.compare b c) eqn:Hbc; try discriminate; intros H12 H23.
  - apply Ascii.compare_eq_iff in Hab, Hbc. subst.
    rewrite ascii_compare_refl. eapply IH; eassumption.
  - apply Ascii.compare_eq_iff in Hab. subst. rewrite Hbc. reflexivity.
  - apply Ascii.compare_eq_iff in Hbc. subst. rewrite Hab. reflexivity.
  - unfold Ascii.compare in *. rewrite N.compare_lt_iff in *.
    replace (N_of_ascii a ?= N_of_ascii c)%N with Lt; [reflexivity|].
    symmetry. apply N.compare_lt_iff. lia.
Qed.

Lemma string_eqb_compare (s1 s2 : string) :
  (s1 =? s2) = match String.compare s1 s2 with Eq => true | _ => false end.
Proof.
  destruct (String.eqb_spec s1 s2) as [->|Hne].
  - rewrite string_compare_refl. reflexivity.
  - destruct (String.compare s1 s2) eqn:Hc; try reflexivity.
    apply String.compare_eq_iff in Hc. contradiction.
Qed.

Lemma cell_leb_total (a b : cell) : cell_leb a b = true \/ cell_leb b a = true.
Proof.
  destruct a as [x|], b as [y|]; simpl; auto.
  destruct (Qlt_le_dec y x) as [Hlt|Hle].
  - right. apply Qle_bool_iff, Qlt_le_weak, Hlt.
  - left. apply Qle_bool_iff, Hle.
Qed.

Lemma cell_leb_trans (a b c : cell) :
  cell_leb a b = true -> cell_leb b c = true -> cell_leb a c = true.
Proof.
  destruct a as [x|], b as [y|], c as [z|]; simpl; try congruence.
  rewrite !Qle_bool_iff. apply Qle_trans.
Qed.

Section TypeStrikeOrder.
Context {R : Type} `{OptionRow R}.

Lemma type_strike_leb_compare (a b : R) :
  type_strike_leb a b =
  match String.compare (row_type a) (row_type b) with
  | Lt => true
  | Eq => cell_leb (row_strike a) (row_strike b)
  | Gt => false
  end.
Proof.
  unfold type_strike_leb, String.ltb. rewrite string_eqb_compare.
  destruct (String.compare (row_type a) (row_type b)); reflexivity.
Qed.

Lemma type_strike_leb_total (a b : R) :
  type_strike_leb a b = true \/ type_strike_leb b a = true.
Proof.
  rewrite !type_strike_leb_compare.
  rewrite (String.compare_antisym (row_type b) (row_type a)).
  destruct (String.compare (row_type a) (row_type b)); simpl; auto.
  apply cell_leb_total.
Qed.

Lemma type_strike_leb_trans (a b c : R) :
  type_strike_leb a b = true -> type_strike_leb b c = true ->
  type_strike_leb a c = true.
Proof.
  rewrite !type_strike_leb_compare.
  destruct (String.compare (row_type a) (row_type b)) eqn:Hab; try discriminate;
    destruct (String.compare (row_type b) (row_type c)) eqn:Hbc;
    try discriminate; intros H1 H2.
  - apply String.compare_eq_iff in Hab, Hbc. rewrite Hab, Hbc.
    rewrite string_compare_refl. eapply cell_leb_trans; eassumption.
  - apply String.compare_eq_iff in Hab. rewrite Hab, Hbc. reflexivity.
  - apply String.compare_eq_iff in Hbc. rewrite <- Hbc, Hab. reflexivity.
  - rewrite (string_compare_lt_trans _ _ _ Hab Hbc). reflexivity.
Qed.

(** The rows of a sorted frame are in the order of [(Type, Strike)]. *)
Lemma sort_values_sorted (df : DataFrame R) :
  StronglySorted (fun a b => type_strike_leb a b = true)
                 (rows (sort_values df)).
Proof.
  apply stable_sort_sorted.
  - apply type_strike_leb_total.
  - apply type_strike_leb_trans.
Qed.
End TypeStrikeOrder.

(** ** Equity shaper *)

Lemma to_cell_numeric (v : value) : numeric v = true -> to_cell v = Ok (cell_of v).
Proof. destruct v; simpl; intros Hn; try discriminate; reflexivity. Qed.

Lemma us_to_row_numeric (symbol expiration_date : value) (option_type : string)
    (row : series) :
  numeric_series row = true ->
  US.to_row (us_record symbol expiration_date option_type row)
  = Ok (us_row symbol expiration_date option_type row).
Proof.
  unfold numeric_series, us_fields. simpl forallb.
  rewrite !andb_true_iff. intros (H1 & H2 & H3 & H4 & H5 & H6 & H7 & _).
  unfold US.to_row, us_row, us_cells. simpl.
  rewrite (to_cell_numeric _ H1), (to_cell_numeric _ H2),
    (to_cell_numeric _ H3), (to_cell_numeric _ H4), (to_cell_numeric _ H5),
    (to_cell_numeric _ H6), (to_cell_numeric _ H7).
  reflexivity.
Qed.

Lemma sorted_same_type {R : Type} `{OptionRow R} (ty : string) (rs : list R) :
  Forall (fun r => row_type r = ty) rs ->
  StronglySorted (fun a b => type_strike_leb a b = true) rs ->
  strikes_ascending rs.
Proof.
  intros Hty Hs. unfold strikes_ascending.
  induction Hs as [|a rs Hs IH Ha]; constructor.
  - apply IH. inversion Hty; assumption.
  - inversion Hty as [|? ? Hta Htr]; subst.
    rewrite Forall_forall in *. intros b Hb.
    specialize (Ha b Hb). rewrite type_strike_leb_compare in Ha.
    rewrite (Htr b Hb), string_compare_refl in Ha. exact Ha.
Qed.

Lemma process_side_ok (d : list (string * value)) (symbol expiration_date : value)
    (records : list US.raw) (option_type : string) (table : list series) :
  table_of (lookup option_type d) = Some table ->
  process_side (VDict d) symbol expiration_date records option_type
  = Ok (records ++ map (us_record symbol expiration_date option_type) table).
Proof.
  unfold process_side, contains, has_key, subscript, table_of.
  destruct (lookup option_type d) as [[| | | | | | |]|]; simpl;
    intros Ht; inversion Ht; subst; simpl; rewrite ?app_nil_r; reflexivity.
Qed.

(** On a payload with its symbol and expiration, and tables of numeric cells,
    the equity shaper returns the shaped calls, sorted, then the shaped puts,
    sorted. *)
Lemma process_options_data_ok
    (d : list (string * value)) (symbol expiration_date : value)
    (calls puts : list series) :
  lookup "symbol" d = Some symbol ->
  lookup "expiration_date" d = Some expiration_date ->
  table_of (lookup "calls" d) = Some calls ->
  table_of (lookup "puts" d) = Some puts ->
  forallb numeric_series (calls ++ puts) = true ->
  process_options_data (VDict d)
  = Ok (Some {| columns := match calls ++ puts with
                           | [] => []
                           | _ => US.column_names
                           end;
                rows :=
                  stable_sort type_strike_leb
                    (map (us_row symbol expiration_date "calls") calls) ++
                  stable_sort type_strike_leb
                    (map (us_row symbol expiration_date "puts") puts) |}).
Proof.
  intros Hsym Hexp Hcalls Hputs Hnum.
  set (cs := map (us_row symbol expiration_date "calls") calls).
  set (ps := map (us_row symbol expiration_date "puts") puts).
  assert (Hc : Forall (fun r => US.Type_ r = "Call") cs).
  { apply Forall_forall. intros r Hr. apply in_map_iff in Hr.
    destruct Hr as (row & <- & _). reflexivity. }
  assert (Hp : Forall (fun r => US.Type_ r = "Put") ps).
  { apply Forall_forall. intros r Hr. apply in_map_iff in Hr.
    destruct Hr as (row & <- & _). reflexivity. }
  unfold process_options_data.
  assert (Hd : truthy (VDict d) = Ok true).
  { destruct d; [discriminate | reflexivity]. }
  rewrite Hd. simpl res_bind. simpl negb. cbv iota.
  rewrite Hsym, Hexp. cbv beta iota delta [res_bind]. cbn [foldM].
  rewrite (process_side_ok d _ _ _ _ calls Hcalls).
  cbv beta iota delta [res_bind].
  rewrite (process_side_ok d _ _ _ _ puts Hputs).
  cbv beta iota delta [res_bind]. rewrite app_nil_l.
  assert (Hm : mapM US.to_row
                 (map (us_record symbol expiration_date "calls") calls ++
                  map (us_record symbol expiration_date "puts") puts)
               = Ok (cs ++ ps)).
  { unfold cs, ps.
    rewrite forallb_app, andb_true_iff in Hnum. destruct Hnum as [Hn1 Hn2].
    rewrite forallb_forall in Hn1, Hn2.
    rewrite (mapM_ok _ us_cells).
    - rewrite map_app, !map_map. reflexivity.
    - apply Forall_app. split; apply Forall_forall; intros r Hr;
        apply in_map_iff in Hr; destruct Hr as (row & <- & Hrow);
        apply us_to_row_numeric; auto. }
  unfold pd_DataFrame.
  destruct (map (us_record symbol expiration_date "calls") calls ++
            map (us_record symbol expiration_date "puts") puts)
    as [|r0 raws] eqn:Hraws.
  - apply app_eq_nil in Hraws. destruct Hraws as [H1 H2].
    apply map_eq_nil in H1, H2. subst calls puts. reflexivity.
  - rewrite Hm. simpl res_bind.
    assert (Hne : calls ++ puts <> []).
    { intros Hnil. apply app_eq_nil in Hnil. destruct Hnil; subst.
      discriminate. }
    assert (Hne2 : cs ++ ps <> []).
    { unfold cs, ps. intros Hnil. apply app_eq_nil in Hnil.
      destruct Hnil as [H1 H2]. apply map_eq_nil in H1, H2.
      subst calls puts. contradiction. }
    destruct (calls ++ puts) eqn:Hcp; [contradiction|].
    destruct (cs ++ ps) eqn:Hcsps; [contradiction|].
    change (negb (empty {| columns := US.column_names; rows := r :: l0 |}))
      with true.
    cbv iota. unfold sort_values. cbn [rows columns]. rewrite <- Hcsps.
    rewrite stable_sort_app; [reflexivity|].
    apply Forall_forall. intros a Ha. apply Forall_forall. intros b Hb.
    rewrite Forall_forall in Hc, Hp.
    rewrite type_strike_leb_compare. simpl.
    rewrite (Hc a Ha), (Hp b Hb). reflexivity.
Qed.

Lemma us_rows_type (symbol expiration_date : value) (option_type : string)
    (table : list series) :
  Forall (fun r => US.Type_ r = if option_type =? "calls" then "Call" else "Put")
         (stable_sort type_strike_leb
            (map (us_row symbol expiration_date option_type) table)).
Proof.
  apply stable_sort_Forall, Forall_forall. intros r Hr.
  apply in_map_iff in Hr. destruct Hr as (row & <- & _). reflexivity.
Qed.

(** C1.  An equity payload with a calls table of k rows and a puts table of m
    rows (numeric or null cells) is shaped into a frame whose rows are the
    records of the calls, all of Type Call, followed by the records of the
    puts, all of Type Put: k + m rows in all, each part a rearrangement of
    the shaped rows of its table, its strikes ascending, and a label missing
    in a row read as zero. *)
Theorem process_options_data_shape
    (d : list (string * value)) (symbol expiration_date : value)
    (calls puts : list series) :
  lookup "symbol" d = Some symbol ->
  lookup "expiration_date" d = Some expiration_date ->
  lookup "calls" d = Some (VFrame calls) ->
  lookup "puts" d = Some (VFrame puts) ->
  forallb numeric_series (calls ++ puts) = true ->
  exists calls_out puts_out : list US.row,
    process_options_data (VDict d)
    = Ok (Some {| columns := match calls ++ puts with
                             | [] => []
                             | _ => US.column_names
                             end;
                  rows := calls_out ++ puts_out |}) /\
    List.length (calls_out ++ puts_out) = (List.length calls + List.length puts)%nat /\
    Permutation calls_out (map (us_row symbol expiration_date "calls") calls) /\
    Permutation puts_out (map (us_row symbol expiration_date "puts") puts) /\
    Forall (fun r => US.Type_ r = "Call") calls_out /\
    Forall (fun r => US.Type_ r = "Put") puts_out /\
    strikes_ascending calls_out /\
    strikes_ascending puts_out /\
    forall (option_type : string) (row : series),
      us_numeric_cells (us_row symbol expiration_date option_type row)
      = map (cell_or_zero row) us_fields.
Proof.
  intros Hsym Hexp Hcalls Hputs Hnum.
  exists (stable_sort type_strike_leb
            (map (us_row symbol expiration_date "calls") calls)),
         (stable_sort type_strike_leb
            (map (us_row symbol expiration_date "puts") puts)).
  pose proof (us_rows_type symbol expiration_date "calls" calls) as Hsc.
  pose proof (us_rows_type symbol expiration_date "puts" puts) as Hsp.
  simpl in Hsc, Hsp.
  split; [|split; [|split; [|split; [|split; [|split; [|split; [|split]]]]]]].
  - apply process_options_data_ok; try assumption.
    + rewrite Hcalls. reflexivity.
    + rewrite Hputs. reflexivity.
  - rewrite length_app, !stable_sort_length, !length_map. reflexivity.
  - apply stable_sort_perm.
  - apply stable_sort_perm.
  - exact Hsc.
  - exact Hsp.
  - eapply sorted_same_type; [exact Hsc|].
    apply stable_sort_sorted;
      [apply type_strike_leb_total | apply type_strike_leb_trans].
  - eapply sorted_same_type; [exact Hsp|].
    apply stable_sort_sorted;
      [apply type_strike_leb_total | apply type_strike_leb_trans].
  - intros option_type row.
    unfold us_numeric_cells, us_row, us_cells, us_record, cell_or_zero,
      series_get, us_fields. simpl.
    repeat match goal with
           | |- context [lookup ?k row] => destruct (lookup k row)
           end; reflexivity.
Qed.

(** ** Index shaper *)

Lemma nifty_to_row_numeric (kind : string) (strike_price : value)
    (d : list (string * value)) (t : Z) :
  numeric strike_price = true ->
  forallb (fun k => numeric (dict_get d k)) nifty_fields = true ->
  NIFTY.to_row (nifty_raw kind strike_price d t)
  = Ok (nifty_cells (nifty_raw kind strike_price d t)).
Proof.
  intros H0. unfold nifty_fields. simpl forallb. rewrite !andb_true_iff.
  intros (H1 & H2 & H3 & H4 & H5 & H6 & H7 & H8 & _).
  unfold NIFTY.to_row, nifty_cells. simpl.
  rewrite (to_cell_numeric _ H0), (to_cell_numeric _ H1),
    (to_cell_numeric _ H2), (to_cell_numeric _ H3), (to_cell_numeric _ H4),
    (to_cell_numeric _ H5), (to_cell_numeric _ H6), (to_cell_numeric _ H7),
    (to_cell_numeric _ H8).
  reflexivity.
Qed.

Lemma mapM_app {A B : Type} (f : A -> res B) (l1 l2 : list A) (b1 b2 : list B) :
  mapM f l1 = Ok b1 -> mapM f l2 = Ok b2 -> mapM f (l1 ++ l2) = Ok (b1 ++ b2).
Proof.
  revert b1. induction l1 as [|a l1 IH]; simpl; intros b1 H1 H2.
  - inversion H1. exact H2.
  - destruct (f a) as [b|e]; simpl in *; [|discriminate].
    destruct (mapM f l1) as [bs|e]; simpl in *; [|discriminate].
    inversion H1. rewrite (IH bs eq_refl H2). reflexivity.
Qed.

Section ShaperFacts.
Context {E : Env}.

Lemma nifty_record_dict (kind : string) (strike_price : value)
    (d : list (string * value)) (s : state E) :
  nifty_record kind strike_price (VDict d) s
  = (Ok (nifty_raw kind strike_price d (fst (datetime_now E (world s)))),
     {| world := snd (datetime_now E (world s)); trace := trace s |}).
Proof.
  unfold nifty_record, M_bind, lift, now, M_ret. simpl.
  destruct (datetime_now E (world s)). reflexivity.
Qed.

(** One side of a handled entry appends the rows it stands for. *)
Lemma append_side_ok (kind : string) (strike_price sub : value)
    (records : list NIFTY.raw) (s : state E) :
  numeric strike_price = true ->
  side_ok sub = true ->
  exists (extra : list NIFTY.raw) (typed : list NIFTY.row) (s' : state E),
    append_side kind strike_price sub records s = (Ok (records ++ extra), s') /\
    trace s' = trace s /\
    mapM NIFTY.to_row extra = Ok typed /\
    map NIFTY.untimed typed = side_rows kind strike_price sub.
Proof.
  intros Hstrike Hsub. unfold append_side, M_bind, lift.
  destruct sub as [| b | q | str | t | [|v l] | [|kv d] | f];
    simpl in Hsub; try discriminate; simpl.
  - exists [], [], s. rewrite app_nil_r. repeat split.
  - apply negb_true_iff in Hsub. subst b.
    exists [], [], s. rewrite app_nil_r. repeat split.
  - rewrite Hsub. exists [], [], s. rewrite app_nil_r. repeat split.
  - rewrite Hsub. exists [], [], s. rewrite app_nil_r. repeat split.
  - exists [], [], s. rewrite app_nil_r. repeat split.
  - exists [], [], s. rewrite app_nil_r. repeat split.
  - rewrite nifty_record_dict. unfold M_ret.
    eexists [_], [_], _. split; [reflexivity|]. split; [reflexivity|].
    split.
    + simpl. rewrite nifty_to_row_numeric by assumption. reflexivity.
    + reflexivity.
Qed.

Lemma process_item_ok (records : list NIFTY.raw) (item : value) (s : state E) :
  entry_ok item = true ->
  exists (extra : list NIFTY.raw) (typed : list NIFTY.row) (s' : state E),
    process_item records item s = (Ok (records ++ extra), s') /\
    trace s' = trace s /\
    mapM NIFTY.to_row extra = Ok typed /\
    map NIFTY.untimed typed = entry_rows item.
Proof.
  destruct item as [| | | | | | it |]; simpl; try discriminate.
  rewrite !andb_true_iff. intros [[Hstrike Hce] Hpe].
  unfold process_item, M_bind, lift. simpl.
  destruct (append_side_ok "CE" _ _ records s Hstrike Hce)
    as (x1 & t1 & s1 & Hrun1 & Htr1 & Hm1 & Hu1).
  rewrite Hrun1.
  destruct (append_side_ok "PE" _ _ (records ++ x1) s1 Hstrike Hpe)
    as (x2 & t2 & s2 & Hrun2 & Htr2 & Hm2 & Hu2).
  rewrite Hrun2.
  exists (x1 ++ x2), (t1 ++ t2), s2.
  rewrite app_assoc. split; [reflexivity|]. split; [congruence|].
  split; [apply mapM_app; assumption|].
  rewrite map_app. f_equal; assumption.
Qed.

Lemma for_each_ok (items : list value) (records : list NIFTY.raw) (s : state E) :
  forallb entry_ok items = true ->
  exists (extra : list NIFTY.raw) (typed : list NIFTY.row) (s' : state E),
    for_each items records s = (Ok (records ++ extra), s') /\
    trace s' = trace s /\
    mapM NIFTY.to_row extra = Ok typed /\
    map NIFTY.untimed typed = flat_map entry_rows items.
Proof.
  revert records s.
  induction items as [|item items IH]; simpl; intros records s Hok.
  - exists [], [], s. unfold M_ret. rewrite app_nil_r. repeat split.
  - apply andb_true_iff in Hok. destruct Hok as [Hitem Hrest].
    destruct (process_item_ok records item s Hitem)
      as (x1 & t1 & s1 & Hrun1 & Htr1 & Hm1 & Hu1).
    destruct (IH (records ++ x1) s1 Hrest)
      as (x2 & t2 & s2 & Hrun2 & Htr2 & Hm2 & Hu2).
    unfold M_bind. rewrite Hrun1, Hrun2.
    exists (x1 ++ x2), (t1 ++ t2), s2.
    rewrite app_assoc. split; [reflexivity|]. split; [congruence|].
    split; [apply mapM_app; assumption|].
    rewrite map_app. f_equal; assumption.
Qed.

End ShaperFacts.


Lemma untimed_type_strike_leb (a b : NIFTY.row) :
  type_strike_leb (NIFTY.untimed a) (NIFTY.untimed b) = type_strike_leb a b.
Proof. reflexivity. Qed.

Lemma entry_rows_strike (item : value) (r : NIFTY.row) :
  In r (entry_rows item) -> NIFTY.Strike r = entry_strike item.
Proof.
  destruct item as [| | | | | | it |]; simpl; try contradiction.
  intros Hin. apply in_app_or in Hin.
  destruct Hin as [Hin|Hin];
    [destruct (dict_get it "CE") as [| | | | | | [|kv d] |]
    |destruct (dict_get it "PE") as [| | | | | | [|kv d] |]];
    simpl in Hin; try contradiction;
    destruct Hin as [<-|[]]; reflexivity.
Qed.


Section ShaperResults.
Context {E : Env}.

(** On a payload of handled entries the index shaper returns a frame whose
    rows are, clock readings apart, the entries' rows sorted. *)
Lemma process_nifty_ok (d r : list (string * value)) (items : list value)
    (s : state E) :
  lookup "records" d = Some (VDict r) ->
  lookup "data" r = Some (VList items) ->
  forallb entry_ok items = true ->
  exists (df : DataFrame NIFTY.row) (s' : state E),
    process_nifty_options_data (VDict d) s = (Ok (Some df), s') /\
    trace s' = trace s /\
    map NIFTY.untimed (rows df)
    = stable_sort type_strike_leb (flat_map entry_rows items) /\
    columns df = match rows df with [] => [] | _ => NIFTY.column_names end.
Proof.
  intros Hrec Hdata Hok.
  destruct (for_each_ok items [] s Hok) as (raws & typed & s' & Hrun & Htr & Hm & Hu).
  simpl in Hrun.
  exists (if negb (empty {| columns := match raws with [] => [] | _ => NIFTY.column_names end;
                            rows := typed |})
          then sort_values {| columns := NIFTY.column_names; rows := typed |}
          else {| columns := []; rows := [] |}), s'.
  assert (Hlen : List.length typed = List.length raws) by (eapply mapM_length; eassumption).
  split; [|split; [exact Htr|split]].
  - unfold process_nifty_options_data, M_bind, lift, try_except, collect.
    assert (Hd : truthy (VDict d) = Ok true).
    { destruct d; [discriminate | reflexivity]. }
    rewrite Hd. cbn [negb]. cbv iota.
    unfold M_bind, lift, contains, has_key, subscript.
    rewrite Hrec, Hdata. cbn [iterate]. rewrite Hrun.
    unfold pd_DataFrame, M_ret.
    destruct raws as [|r0 raws].
    + destruct typed; [reflexivity | discriminate].
    + rewrite Hm. destruct typed as [|t0 typed]; [discriminate|].
      reflexivity.
  - destruct raws as [|r0 raws], typed as [|t0 typed]; try discriminate.
    + simpl in *. rewrite <- Hu. reflexivity.
    + change (negb (empty {| columns := NIFTY.column_names; rows := t0 :: typed |}))
        with true.
      cbv iota. unfold sort_values. cbn [rows].
      rewrite <- Hu.
      apply stable_sort_map. exact untimed_type_strike_leb.
  - destruct raws as [|r0 raws], typed as [|t0 typed]; try discriminate.
    + reflexivity.
    + change (negb (empty {| columns := NIFTY.column_names; rows := t0 :: typed |}))
        with true.
      cbv iota. unfold sort_values. cbn [rows columns].
      destruct (stable_sort type_strike_leb (t0 :: typed)) eqn:Hs; [|reflexivity].
      apply (f_equal (@List.length _)) in Hs.
      rewrite stable_sort_length in Hs. discriminate.
Qed.

End ShaperResults.






(** C10.  Both shapers answer [None] to a payload that is false (null, or
    an empty container), and an empty frame, not [None], to a payload that is
    there and holds no option row: empty calls and puts tables on the equity
    path, an empty list of entries on the index path. *)
Theorem shapers_null_versus_empty {E : Env} (s : state E) :
  (forall payload : value,
      truthy payload = Ok false ->
      process_options_data payload = Ok None /\
      process_nifty_options_data payload s = (Ok None, s)) /\
  (forall (d : list (string * value)) (symbol expiration_date : value),
      lookup "symbol" d = Some symbol ->
      lookup "expiration_date" d = Some expiration_date ->
      lookup "calls" d = Some (VFrame []) ->
      lookup "puts" d = Some (VFrame []) ->
      process_options_data (VDict d)
      = Ok (Some {| columns := []; rows := [] |})) /\
  (forall d r : list (string * value),
      lookup "records" d = Some (VDict r) ->
      lookup "data" r = Some (VList []) ->
      process_nifty_options_data (VDict d) s
      = (Ok (Some {| columns := []; rows := [] |}), s)).
Proof.
  split; [|split].
  - intros payload Hfalse.
    unfold process_options_data, process_nifty_options_data, M_bind, lift.
    rewrite Hfalse. split; reflexivity.
  - intros d symbol expiration_date Hsym Hexp Hcalls Hputs.
    rewrite (process_options_data_ok d symbol expiration_date [] []);
      try assumption; try reflexivity.
    + rewrite Hcalls. reflexivity.
    + rewrite Hputs. reflexivity.
  - intros d r Hrec Hdata.
    unfold process_nifty_options_data, M_bind, lift, try_except, collect.
    assert (Hd : truthy (VDict d) = Ok true).
    { destruct d; [discriminate | reflexivity]. }
    rewrite Hd. cbn [negb]. cbv iota.
    unfold M_bind, lift, contains, has_key, subscript.
    rewrite Hrec, Hdata. reflexivity.
Qed.

(** ** The index shaper up to the clock *)

Lemma nifty_to_row_untimed (r : NIFTY.raw) :
  NIFTY.to_row (NIFTY.untimed r) = res_map NIFTY.untimed (NIFTY.to_row r).
Proof.
  unfold NIFTY.to_row, NIFTY.untimed. simpl.
  repeat match goal with
         | |- context [to_cell ?v] => destruct (to_cell v); simpl; try reflexivity
         end.
Qed.

Lemma mapM_untimed (l : list NIFTY.raw) :
  mapM NIFTY.to_row (map NIFTY.untimed l)
  = res_map (map NIFTY.untimed) (mapM NIFTY.to_row l).
Proof.
  induction l as [|r l IH]; simpl; [reflexivity|].
  rewrite nifty_to_row_untimed, IH.
  destruct (NIFTY.to_row r); simpl; [|reflexivity].
  destruct (mapM NIFTY.to_row l); reflexivity.
Qed.

Section ClockIndependence.
Context {E1 E2 : Env}.

Let same (r1 r2 : res (list NIFTY.raw)) : Prop :=
  res_map (map NIFTY.untimed) r1 = res_map (map NIFTY.untimed) r2.

Lemma append_side_untimed (kind : string) (strike_price sub : value)
    (records1 records2 : list NIFTY.raw) (s1 : state E1) (s2 : state E2) :
  map NIFTY.untimed records1 = map NIFTY.untimed records2 ->
  same (fst (append_side kind strike_price sub records1 s1))
       (fst (append_side kind strike_price sub records2 s2)).
Proof.
  intros Hrec. unfold same, append_side, M_bind, lift, M_ret.
  destruct (truthy sub) as [[|]|e]; simpl; [| congruence | reflexivity].
  destruct sub; try reflexivity.
  rewrite !nifty_record_dict. simpl. rewrite !map_app.
  f_equal. f_equal. exact Hrec.
Qed.

Lemma process_item_untimed (item : value)
    (records1 records2 : list NIFTY.raw) (s1 : state E1) (s2 : state E2) :
  map NIFTY.untimed records1 = map NIFTY.untimed records2 ->
  same (fst (process_item records1 item s1))
       (fst (process_item records2 item s2)).
Proof.
  intros Hrec. unfold process_item, M_bind, lift.
  destruct (py_get item "strikePrice") as [strike_price|e]; [|reflexivity].
  destruct (py_get item "CE") as [ce_data|e]; [|reflexivity].
  destruct (py_get item "PE") as [pe_data|e]; [|reflexivity].
  pose proof (append_side_untimed "CE" strike_price ce_data _ _ s1 s2 Hrec)
    as Hce.
  destruct (append_side "CE" strike_price ce_data records1 s1) as [[a1|e1] s1'],
           (append_side "CE" strike_price ce_data records2 s2) as [[a2|e2] s2'];
    unfold same in Hce; simpl in Hce; try discriminate; [|exact Hce].
  apply append_side_untimed. congruence.
Qed.

Lemma for_each_untimed (items : list value)
    (records1 records2 : list NIFTY.raw) (s1 : state E1) (s2 : state E2) :
  map NIFTY.untimed records1 = map NIFTY.untimed records2 ->
  same (fst (for_each items records1 s1)) (fst (for_each items records2 s2)).
Proof.
  revert records1 records2 s1 s2.
  induction items as [|item items IH]; intros records1 records2 s1 s2 Hrec.
  - unfold same. simpl. congruence.
  - simpl. unfold M_bind.
    pose proof (process_item_untimed item _ _ s1 s2 Hrec) as Hitem.
    destruct (process_item records1 item s1) as [[a1|e1] s1'],
             (process_item records2 item s2) as [[a2|e2] s2'];
      unfold same in Hitem; simpl in Hitem; try discriminate; [|exact Hitem].
    apply IH. congruence.
Qed.

Lemma collect_untimed (data : value) (s1 : state E1) (s2 : state E2) :
  same (fst (collect data s1)) (fst (collect data s2)).
Proof.
  unfold collect, M_bind, lift, M_ret.
  destruct (contains "records" data) as [[|]|e]; try reflexivity.
  destruct (subscript data "records") as [recs|e]; [|reflexivity].
  destruct (contains "data" recs) as [[|]|e]; try reflexivity.
  destruct (subscript recs "data") as [payload|e]; [|reflexivity].
  destruct (iterate payload) as [items|e]; [|reflexivity].
  apply for_each_untimed. reflexivity.
Qed.

(** Two runs of the index shaper on one payload, in any two environments
    and states, end alike up to the clock readings of the records. *)
Lemma process_nifty_untimed (data : value) (s1 : state E1) (s2 : state E2) :
  untimed_outcome (fst (process_nifty_options_data data s1))
  = untimed_outcome (fst (process_nifty_options_data data s2)).
Proof.
  unfold process_nifty_options_data, M_bind, lift.
  destruct (truthy data) as [[|]|e]; [| reflexivity | reflexivity].
  cbn [negb]. cbv iota. unfold try_except, M_bind, lift, M_ret, print, emit.
  pose proof (collect_untimed data s1 s2) as Hc.
  destruct (collect data s1) as [[raws1|e1] s1'],
           (collect data s2) as [[raws2|e2] s2'];
    unfold same in Hc; simpl in Hc; try discriminate.
  - assert (Hm : res_map (map NIFTY.untimed) (mapM NIFTY.to_row raws1)
                 = res_map (map NIFTY.untimed) (mapM NIFTY.to_row raws2)).
    { rewrite <- !mapM_untimed. congruence. }
    unfold pd_DataFrame.
    destruct raws1 as [|r1 raws1], raws2 as [|r2 raws2]; try discriminate.
    + reflexivity.
    + destruct (mapM NIFTY.to_row (r1 :: raws1)) as [rows1|e1],
               (mapM NIFTY.to_row (r2 :: raws2)) as [rows2|e2];
        simpl in Hm; try discriminate.
      * simpl.
        assert (Hrows : map NIFTY.untimed rows1 = map NIFTY.untimed rows2)
          by congruence.
        destruct rows1 as [|t1 rows1], rows2 as [|t2 rows2]; try discriminate.
        -- reflexivity.
        -- change (negb (empty {| columns := NIFTY.column_names;
                                  rows := t1 :: rows1 |})) with true.
           change (negb (empty {| columns := NIFTY.column_names;
                                  rows := t2 :: rows2 |})) with true.
           cbv iota. unfold untimed_outcome, untimed_frame, sort_values.
           simpl res_map. cbn [rows columns option_map].
           rewrite !(stable_sort_map NIFTY.untimed type_strike_leb
                       type_strike_leb _ untimed_type_strike_leb).
           rewrite Hrows. reflexivity.
      * simpl. inversion Hm; subst. destruct e2; reflexivity.
  - inversion Hc; subst. destruct e2; reflexivity.
Qed.

End ClockIndependence.

(** ** Presenter: grouping *)

Section GroupByFacts.
Context {R K : Type} (keq kleb : K -> K -> bool).

Lemma add_to_group_keys (k : K) (v : Q) (groups : list (K * Q)) (k' : K) :
  In k' (map fst (add_to_group keq k v groups)) ->
  k' = k \/ In k' (map fst groups).
Proof.
  induction groups as [|[k0 s0] groups IH]; simpl.
  - intros [<-|[]]. left. reflexivity.
  - destruct (keq k0 k); simpl.
    + intros [<-|Hin]; right; [left | right]; auto.
    + intros [<-|Hin]; [right; left; reflexivity|].
      destruct (IH Hin) as [->|Hin']; [left | right; right]; auto.
Qed.

(** Every key of a grouping is the key of some row. *)
Lemma accumulate_keys (key : R -> option K) (col : R -> cell) (rs : list R)
    (groups : list (K * Q)) (k : K) :
  In k (map fst (fold_left (accumulate keq key col) rs groups)) ->
  In k (map fst groups) \/ exists r, In r rs /\ key r = Some k.
Proof.
  revert groups. induction rs as [|r rs IH]; simpl; intros groups Hin.
  - left. exact Hin.
  - destruct (IH _ Hin) as [Hg|(r' & Hr' & Hk)].
    + unfold accumulate in Hg. destruct (key r) as [k0|] eqn:Hkey.
      * apply add_to_group_keys in Hg. destruct Hg as [->|Hg]; [|left; exact Hg].
        right. exists r. split; [left; reflexivity | exact Hkey].
      * left. exact Hg.
    + right. exists r'. split; [right; exact Hr' | exact Hk].
Qed.

Lemma groupby_sum_keys (key : R -> option K) (col : R -> cell) (rs : list R)
    (k : K) :
  In k (map fst (groupby_sum keq kleb key col rs)) ->
  exists r, In r rs /\ key r = Some k.
Proof.
  unfold groupby_sum. intros Hin.
  apply in_map_iff in Hin. destruct Hin as ([k0 v] & Hk & Hin). simpl in Hk.
  subst k0. apply stable_sort_in in Hin.
  destruct (accumulate_keys key col rs [] k) as [[]|Hex]; [|exact Hex].
  apply in_map_iff. exists (k, v). split; [reflexivity | exact Hin].
Qed.
End GroupByFacts.

Lemma firstn_incl {A : Type} (n : nat) (l : list A) (x : A) :
  In x (firstn n l) -> In x l.
Proof.
  intros Hin. rewrite <- (firstn_skipn n l). apply in_or_app. left. exact Hin.
Qed.

(** C4.  The selection of the top strikes by volume holds at most twenty
    strikes, and each of them is the strike of some record of the table. *)
Theorem top_strikes_bounded {R : Type} `{OptionRow R} (rs : list R) :
  (List.length (top_strikes rs) <= 20)%nat /\
  forall k : Q,
    In k (map fst (top_strikes rs)) ->
    exists r : R, In r rs /\ row_strike r = Some k.
Proof.
  split.
  - unfold top_strikes, nlargest. apply firstn_le_length.
  - intros k Hin. unfold top_strikes, nlargest in Hin.
    apply in_map_iff in Hin. destruct Hin as ([k0 v] & Hk & Hin).
    simpl in Hk. subst k0.
    apply firstn_incl, stable_sort_in in Hin.
    apply (groupby_sum_keys Qeq_bool Qle_bool row_strike row_volume rs k).
    apply in_map_iff. exists (k, v). split; [reflexivity | exact Hin].
Qed.

(** ** Presenter: open interest by type *)

Lemma lookup_add_to_group (k k' : string) (v : Q) (groups : list (string * Q)) :
  lookup k (add_to_group String.eqb k' v groups)
  = if k' =? k
    then Some (match lookup k groups with Some s => (s + v)%Q | None => v end)
    else lookup k groups.
Proof.
  induction groups as [|[k0 s0] groups IH]; simpl.
  - destruct (k' =? k); reflexivity.
  - destruct (String.eqb_spec k0 k') as [->|Hne0]; simpl.
    + destruct (k' =? k); reflexivity.
    + rewrite IH. destruct (String.eqb_spec k0 k) as [->|Hne]; [|reflexivity].
      destruct (String.eqb_spec k' k) as [->|_]; [contradiction|reflexivity].
Qed.

Lemma add_to_group_NoDup (k : string) (v : Q) (groups : list (string * Q)) :
  NoDup (map fst groups) ->
  NoDup (map fst (add_to_group String.eqb k v groups)).
Proof.
  induction groups as [|[k0 s0] groups IH]; simpl; intros Hnd.
  - constructor; [intros [] | constructor].
  - inversion Hnd as [|? ? Hnotin Hnd']; subst.
    destruct (String.eqb_spec k0 k) as [->|Hne]; simpl.
    + constructor; assumption.
    + constructor; [|apply IH, Hnd'].
      intros Hin. apply add_to_group_keys in Hin.
      destruct Hin as [->|Hin]; contradiction.
Qed.

Lemma lookup_In_NoDup (k : string) (v : Q) (l : list (string * Q)) :
  NoDup (map fst l) -> (lookup k l = Some v <-> In (k, v) l).
Proof.
  induction l as [|[k0 v0] l IH]; simpl; intros Hnd.
  - split; [discriminate | contradiction].
  - inversion Hnd as [|? ? Hnotin Hnd']; subst.
    destruct (String.eqb_spec k0 k) as [->|Hne].
    + split.
      * intros Heq. inversion Heq. left. reflexivity.
      * intros [Heq|Hin]; [inversion Heq; reflexivity|].
        exfalso. apply Hnotin. apply in_map_iff. exists (k, v). auto.
    + rewrite (IH Hnd'). split; [auto|].
      intros [Heq|Hin]; [inversion Heq; contradiction | exact Hin].
Qed.

Lemma lookup_perm (k : string) (l l' : list (string * Q)) :
  NoDup (map fst l) -> Permutation l l' -> lookup k l' = lookup k l.
Proof.
  intros Hnd Hperm.
  assert (Hnd' : NoDup (map fst l')).
  { eapply Permutation_NoDup; [apply Permutation_map, Hperm | exact Hnd]. }
  destruct (lookup k l) as [v|] eqn:Hl.
  - apply lookup_In_NoDup; [exact Hnd'|].
    apply (Permutation_in _ Hperm). apply lookup_In_NoDup; assumption.
  - destruct (lookup k l') as [v'|] eqn:Hl'; [|reflexivity].
    apply lookup_In_NoDup in Hl'; [|exact Hnd'].
    apply (Permutation_in _ (Permutation_sym Hperm)) in Hl'.
    apply lookup_In_NoDup in Hl'; [congruence | exact Hnd].
Qed.

Section OpenInterestFacts.
Context {R : Type} `{OptionRow R}.

Let acc := accumulate (R := R) String.eqb (fun r => Some (row_type r))
                      row_open_interest.

Lemma accumulate_NoDup (rs : list R) (groups : list (string * Q)) :
  NoDup (map fst groups) -> NoDup (map fst (fold_left acc rs groups)).
Proof.
  revert groups. induction rs as [|r rs IH]; simpl; intros groups Hnd.
  - exact Hnd.
  - apply IH. unfold acc, accumulate. apply add_to_group_NoDup, Hnd.
Qed.

(** What a grouping started from [groups] holds for the type [ty]. *)
Lemma lookup_accumulate (ty : string) (rs : list R) (groups : list (string * Q)) :
  opt_Qeq (lookup ty (fold_left acc rs groups))
          (match lookup ty groups with
           | Some s => Some (s + type_sum ty rs)%Q
           | None => if has_type ty rs then Some (type_sum ty rs) else None
           end).
Proof.
  revert groups. induction rs as [|r rs IH]; intros groups.
  - simpl. destruct (lookup ty groups); simpl; [|exact I].
    unfold type_sum. simpl. ring.
  - cbn [fold_left]. specialize (IH (acc groups r)).
    assert (Hacc : acc groups r
                   = add_to_group String.eqb (row_type r)
                       (cell_value (row_open_interest r)) groups)
      by reflexivity.
    rewrite Hacc in IH |- *. rewrite lookup_add_to_group in IH.
    unfold has_type, type_sum. cbn [existsb filter].
    fold (has_type ty rs).
    destruct (row_type r =? ty) eqn:Hty.
    + cbn [orb map Qsum fold_right]. fold (type_sum ty rs) in *.
      destruct (lookup ty (fold_left acc rs _)) as [x|];
        destruct (lookup ty groups) as [s|]; simpl in *; try contradiction.
      * unfold type_sum, Qsum in *. rewrite IH. ring.
      * unfold type_sum, Qsum in *.
        destruct (has_type ty rs); rewrite IH; ring.
    + cbn [orb]. fold (type_sum ty rs) in *. exact IH.
Qed.

(** The open interest of a type in the summary: the sum over its records,
    and nothing when no record has the type. *)
Lemma lookup_oi_by_type (ty : string) (rs : list R) :
  opt_Qeq (lookup ty (oi_by_type rs))
          (if has_type ty rs then Some (type_sum ty rs) else None).
Proof.
  unfold oi_by_type, groupby_sum.
  rewrite (lookup_perm ty (fold_left acc rs [])).
  - apply (lookup_accumulate ty rs []).
  - apply accumulate_NoDup. constructor.
  - apply Permutation_sym, stable_sort_perm.
Qed.
End OpenInterestFacts.

Lemma Qpositive_iff (q : Q) : Qpositive q = true <-> (0 < q)%Q.
Proof.
  unfold Qpositive. rewrite negb_true_iff.
  split.
  - intros Hle. apply Qnot_le_lt. intros Hq.
    apply Qle_bool_iff in Hq. congruence.
  - intros Hlt. destruct (Qle_bool q 0) eqn:Hle; [|reflexivity].
    apply Qle_bool_iff in Hle. exfalso. eapply Qlt_not_le; eassumption.
Qed.


(** ** Presenter: the figures one after the other *)

Section FigureRuns.
Context {R : Type} `{OptionRow R}.

Lemma labelled_filter (call_label put_label : string) (f : R -> bool)
    (rs : list R) :
  labelled call_label put_label rs = true ->
  labelled call_label put_label (filter f rs) = true.
Proof.
  unfold labelled. rewrite !forallb_forall. intros Hall r Hr.
  apply filter_In in Hr. apply Hall, Hr.
Qed.

(** What the parts of [plottable] say, one by one. *)
Lemma plottable_parts (call_label put_label : string) (rs : list R) :
  plottable call_label put_label rs = true ->
  has_number (map row_open_interest rs)
  && exact_column (map row_open_interest rs) = true /\
  has_number (map row_strike rs) && exact_column (map row_strike rs)
  && exact_column (map row_volume rs) = true /\
  has_number (map row_volume rs) = true /\
  labelled call_label put_label rs = true /\
  existsb (fun slice => negative (snd slice)) (oi_by_type rs) = false.
Proof.
  unfold plottable. rewrite !andb_true_iff, negb_true_iff.
  intros (((((((H1 & H2) & H3) & H4) & H5) & H6) & H7) & H8).
  rewrite H1, H2, H3, H4, H5, H6. auto.
Qed.

Lemma oi_plot_plottable (call_label put_label : string) (rs : list R) :
  plottable call_label put_label rs = true ->
  exists fig : oi_figure, oi_plot call_label put_label rs = Ok fig.
Proof.
  intros Hp. apply plottable_parts in Hp.
  destruct Hp as (Hoi & _ & _ & Hlab & Hneg).
  unfold oi_plot. rewrite Hoi, Hneg, Hlab. cbn [negb].
  destruct (oi_by_type rs) as [|slice slices]; [eexists; reflexivity|].
  destruct (Qpositive _); eexists; reflexivity.
Qed.

Lemma top_strikes_df_plottable (null_volume : exn)
    (call_label put_label : string) (rs : list R) :
  plottable call_label put_label rs = true ->
  top_strikes_df null_volume rs = Ok (top_strikes rs).
Proof.
  intros Hp. apply plottable_parts in Hp.
  destruct Hp as (_ & Hsv & Hvol & _ & _).
  unfold top_strikes_df. rewrite Hsv, Hvol. reflexivity.
Qed.

Lemma volume_plot_plottable (null_volume : exn)
    (call_label put_label : string) (rs : list R) :
  plottable call_label put_label rs = true ->
  exists fig : volume_figure R,
    volume_plot null_volume call_label put_label rs = Ok fig.
Proof.
  intros Hp. unfold volume_plot.
  rewrite (top_strikes_df_plottable null_volume call_label put_label rs Hp).
  cbn [res_bind].
  apply plottable_parts in Hp. destruct Hp as (_ & _ & _ & Hlab & _).
  pose proof (labelled_filter call_label put_label
                (fun r => isin (map fst (top_strikes rs)) (row_strike r))
                rs Hlab) as Hplot.
  destruct (filter _ rs) as [|r plot_df]; [eexists; reflexivity|].
  destruct (Qpositive _); [rewrite Hplot|]; eexists; reflexivity.
Qed.


Lemma generate_nifty_plots_plottable (df : DataFrame R) :
  empty df = false -> plottable "CE" "PE" (rows df) = true ->
  exists (fig1 : oi_figure) (fig2 : volume_figure R),
    generate_nifty_plots (Some df) = Ok (Some (fig1, fig2, ratio_plot df)).
Proof.
  intros Hne Hp. unfold generate_nifty_plots. rewrite Hne.
  destruct (oi_plot_plottable "CE" "PE" (rows df) Hp) as (fig1 & ->).
  destruct (volume_plot_plottable TypeError "CE" "PE" (rows df) Hp)
    as (fig2 & ->).
  exists fig1, fig2. reflexivity.
Qed.

End FigureRuns.


(** C9.  Two records, one CE and one PE, both at strike 150, with volumes
    1000 and 800 and open interests 500 and 300: the open interest by type is
    CE 500 and PE 300, and the put-call ratio is 0.6. *)
Theorem example_summary_and_ratio {R : Type} `{OptionRow R} (ce pe : R) :
  row_type ce = "CE" -> row_strike ce = Some 150%Q ->
  row_volume ce = Some 1000%Q -> row_open_interest ce = Some 500%Q ->
  row_type pe = "PE" -> row_strike pe = Some 150%Q ->
  row_volume pe = Some 800%Q -> row_open_interest pe = Some 300%Q ->
  oi_by_type [ce; pe] = [("CE", 500%Q); ("PE", 300%Q)] /\
  exists ratio : Q,
    put_call_ratio [ce; pe] = Some ratio /\ (ratio == 6 # 10)%Q.
Proof.
  intros Htc _ _ Hoc Htp _ _ Hop.
  assert (Hsum : oi_by_type [ce; pe] = [("CE", 500%Q); ("PE", 300%Q)]).
  { unfold oi_by_type, groupby_sum, accumulate. simpl.
    rewrite Htc, Htp, Hoc, Hop. reflexivity. }
  split; [exact Hsum|].
  unfold put_call_ratio. rewrite Hsum. simpl.
  eexists. split; reflexivity.
Qed.

(** ** Fetcher *)

(** C6, as the code has it.  [fetch_options_chain] asks once for the
    expirations of the symbol; when the request fails or lists nothing it
    returns [None] with no further request; otherwise it takes the first
    date listed, which is the earliest when the client lists its
    expirations in ascending order, asks once for the chain of that date,
    and returns [None] when that request fails, the dictionary of the
    symbol, the date, the two tables and the clock reading when it
    succeeds. *)
Theorem fetch_options_chain_spec (E : Env) (symbol : string) (s : state E) :
  let listing := ticker_options E symbol (world s) in
  let out := fetch_options_chain symbol s in
  match fst listing with
  | Failure _ | Reply [] =>
      fst out = Ok VNone /\
      requests (trace (snd out))
      = requests (trace s) ++ [ListedExpirations symbol]
  | Reply (date :: later) =>
      (chronological E ->
       Forall (fun d => (date <=? d)%string = true) later) /\
      requests (trace (snd out))
      = requests (trace s)
        ++ [ListedExpirations symbol; RequestedChain symbol date] /\
      let chain := ticker_option_chain E symbol date (snd listing) in
      match fst chain with
      | Failure _ => fst out = Ok VNone
      | Reply (calls, puts) =>
          fst out
          = Ok (VDict [("symbol", VStr symbol);
                       ("expiration_date", VStr date);
                       ("calls", calls);
                       ("puts", puts);
                       ("timestamp",
                        VTime (fst (datetime_now E (snd chain))))])
      end
  end.
Proof.
  cbv zeta.
  unfold fetch_options_chain, try_except, M_bind, request, print, emit, now,
    M_ret.
  destruct (ticker_options E symbol (world s)) as [[dates|msg] w1] eqn:Hlist;
    cbn [fst snd world trace].
  - destruct dates as [|date later]; cbn [fst snd world trace].
    + split; [reflexivity|].
      unfold requests. rewrite <- !app_assoc, !filter_app. simpl.
      reflexivity.
    + split.
      { intros Hchrono. specialize (Hchrono symbol (world s) w1 _ Hlist).
        inversion Hchrono; assumption. }
      destruct (ticker_option_chain E symbol date w1) as [[[calls puts]|msg] w2];
        cbn [fst snd world trace].
      * destruct (datetime_now E w2) as [t w3]. cbn [fst snd world trace].
        split; [|reflexivity].
        unfold requests. rewrite <- !app_assoc, !filter_app. simpl.
        reflexivity.
      * split; [|reflexivity].
        unfold requests. rewrite <- !app_assoc, !filter_app. simpl.
        reflexivity.
  - split; [reflexivity|].
    unfold requests. rewrite <- !app_assoc, !filter_app. simpl.
    reflexivity.
Qed.

(** ** Export *)

Lemma append_nil_r (s : string) : (s ++ EmptyString)%string = s.
Proof. induction s as [|c s IH]; simpl; [reflexivity | rewrite IH; reflexivity]. Qed.

Lemma append_assoc (a b c : string) :
  ((a ++ b) ++ c)%string = (a ++ (b ++ c))%string.
Proof. induction a as [|x a IH]; simpl; [reflexivity | rewrite IH; reflexivity]. Qed.

Lemma snoc_append (s : string) (c : ascii) (t : string) :
  (snoc s c ++ t)%string = (s ++ String c t)%string.
Proof. unfold snoc. rewrite append_assoc. reflexivity. Qed.

(** An unquoted field is read as it stands. *)
Lemma scan_plain (f : string) :
  plain f = true ->
  forall (m : mode) (cur : string) (fields : list string) (c : ascii) (rest : string),
    (m = FieldStart \/ m = Unquoted) ->
    ends_field c = true ->
    scan m cur fields (f ++ String c rest) = close c (cur ++ f) fields rest.
Proof.
  unfold plain. induction f as [|x f IH]; simpl; intros Hplain m cur fields c rest Hm Hc.
  - rewrite append_nil_r. unfold close, ends_field in *.
    destruct Hm as [-> | ->]; destruct (c =? comma)%char; simpl in Hc;
      try reflexivity; rewrite Hc; reflexivity.
  - rewrite negb_true_iff, orb_false_iff in Hplain. destruct Hplain as [Hx Hf].
    unfold is_special in Hx. rewrite !orb_false_iff in Hx.
    destruct Hx as [[[Hcomma Hquote] Hnl] _].
    rewrite Hcomma, Hnl, Hquote. simpl.
    assert (Hstep : scan Unquoted (snoc cur x) fields (f ++ String c rest)
                    = close c (cur ++ String x f) fields rest).
    { rewrite (IH ltac:(rewrite Hf; reflexivity) Unquoted (snoc cur x) fields c rest);
        auto.
      rewrite snoc_append. reflexivity. }
    destruct Hm as [-> | ->]; exact Hstep.
Qed.

(** The inside of a quoted field is read back with its quotes undoubled. *)
Lemma scan_quoted (f : string) :
  forall (cur : string) (fields : list string) (c : ascii) (rest : string),
    ends_field c = true ->
    scan Quoted cur fields (double_quotes f ++ String quote (String c rest))
    = close c (cur ++ f) fields rest.
Proof.
  induction f as [|x f IH]; simpl; intros cur fields c rest Hc.
  - rewrite append_nil_r. unfold close, ends_field in *.
    assert (Hq : (c =? quote)%char = false).
    { destruct (Ascii.eqb_spec c quote) as [->|]; [discriminate | reflexivity]. }
    rewrite Hq. destruct (c =? comma)%char; simpl in Hc; [reflexivity|].
    rewrite Hc. reflexivity.
  - destruct (x =? quote)%char eqn:Hx.
    + apply Ascii.eqb_eq in Hx. subst x. cbn [append scan].
      change ((quote =? quote)%char) with true. cbv iota.
      rewrite IH by assumption. rewrite snoc_append. reflexivity.
    + cbn [append scan]. rewrite Hx.
      rewrite IH by assumption. rewrite snoc_append. reflexivity.
Qed.

Lemma scan_field (f : string) (fields : list string) (c : ascii) (rest : string) :
  ends_field c = true ->
  scan FieldStart EmptyString fields (csv_field f ++ String c rest)
  = close c f fields rest.
Proof.
  intros Hc. unfold csv_field. destruct (needs_quoting f) eqn:Hq.
  - cbn [append]. rewrite append_assoc. cbn [append scan].
    change ((quote =? comma)%char) with false.
    change ((quote =? newline)%char) with false.
    change ((quote =? quote)%char) with true. cbn [andb].
    rewrite scan_quoted by assumption. reflexivity.
  - rewrite (scan_plain f); auto. unfold plain. rewrite Hq. reflexivity.
Qed.

Lemma scan_fields (fields : list string) :
  fields <> [] ->
  forall (done : list string) (rest : string),
    scan FieldStart EmptyString done
         (String.concat (String comma EmptyString) (map csv_field fields)
          ++ String newline rest)
    = (done ++ fields) :: scan FieldStart EmptyString [] rest.
Proof.
  induction fields as [|f fields IH]; [contradiction|]. intros _ done rest.
  destruct fields as [|g fields].
  - cbn [map String.concat]. rewrite scan_field by reflexivity. reflexivity.
  - change (String.concat (String comma EmptyString) (map csv_field (f :: g :: fields)))
      with (csv_field f ++ String comma
              (String.concat (String comma EmptyString) (map csv_field (g :: fields))))%string.
    rewrite append_assoc. cbn [append]. rewrite scan_field by reflexivity.
    unfold close. rewrite Ascii.eqb_refl.
    rewrite IH by discriminate. rewrite <- app_assoc. reflexivity.
Qed.

Lemma scan_line (fields : list string) (done : list string) (rest : string) :
  fields <> [] ->
  scan FieldStart EmptyString done (csv_line fields ++ rest)
  = (done ++ fields) :: scan FieldStart EmptyString [] rest.
Proof.
  intros Hne. unfold csv_line. rewrite append_assoc. cbn [append].
  apply scan_fields, Hne.
Qed.

Lemma concat_empty_cons (x : string) (xs : list string) :
  String.concat EmptyString (x :: xs)
  = (x ++ String.concat EmptyString xs)%string.
Proof.
  destruct xs as [|y ys]; simpl; [rewrite append_nil_r|]; reflexivity.
Qed.

(** Reading the lines written for a table gives the table. *)
Lemma read_lines (table : list (list string)) :
  Forall (fun fields => fields <> []) table ->
  read_csv (String.concat EmptyString (map csv_line table)) = table.
Proof.
  unfold read_csv. induction 1 as [|fields table Hne _ IH]; [reflexivity|].
  cbn [map]. rewrite concat_empty_cons, scan_line by assumption.
  rewrite IH. reflexivity.
Qed.

Section ExportFacts.
Variables (format_number : Q -> string) (format_time : Z -> string).

Let texts := nifty_texts format_number format_time.

(** Reading an export gives the header, then the texts of the rows in
    order. *)
Lemma read_to_csv (df : DataFrame NIFTY.row) :
  columns df <> [] ->
  read_csv (to_csv format_number format_time df)
  = columns df :: map texts (rows df).
Proof.
  intros Hcols.
  assert (Htext : to_csv format_number format_time df
                  = String.concat EmptyString
                      (map csv_line (columns df :: map texts (rows df)))).
  { unfold to_csv. cbn [map]. rewrite concat_empty_cons, map_map.
    reflexivity. }
  rewrite Htext. apply read_lines.
  constructor; [exact Hcols|]. apply Forall_forall. intros fields Hin.
  apply in_map_iff in Hin. destruct Hin as (r & <- & _). discriminate.
Qed.

End ExportFacts.

Lemma filter_frame_columns (option_type_filter : string) (strike_range : Z * Z)
    (df : DataFrame NIFTY.row) :
  columns (filter_frame option_type_filter strike_range df) = columns df.
Proof.
  unfold filter_frame.
  destruct (negb (option_type_filter =? "All")), (negb (empty df)); reflexivity.
Qed.

(** C7.  Take a table with the columns of the index records, any choice of
    type and strike range, and any way of printing numbers and clock
    readings.  Reading back the export of the filtered table gives the
    header, which is the column names of the records, followed by one line
    per row of the filtered table, in order, whose fields are the printed
    cells of that row: as many data lines as rows, and as many fields in
    every line as there are columns.  A field that needs no quoting, as a
    printed number does, is written as it stands. *)
Theorem csv_round_trip (format_number : Q -> string) (format_time : Z -> string)
    (option_type_filter : string) (strike_range : Z * Z)
    (df_nifty : DataFrame NIFTY.row) :
  columns df_nifty = NIFTY.column_names ->
  let filtered_df := filter_frame option_type_filter strike_range df_nifty in
  let parsed := read_csv (to_csv format_number format_time filtered_df) in
  parsed
  = NIFTY.column_names
    :: map (nifty_texts format_number format_time) (rows filtered_df) /\
  List.length parsed = S (List.length (rows filtered_df)) /\
  Forall (fun fields => List.length fields = List.length NIFTY.column_names)
         parsed /\
  forall text : string, plain text = true -> csv_field text = text.
Proof.
  intros Hcols filtered_df parsed.
  assert (Hparsed : parsed
                    = NIFTY.column_names
                      :: map (nifty_texts format_number format_time)
                             (rows filtered_df)).
  { unfold parsed. rewrite read_to_csv.
    - unfold filtered_df. rewrite filter_frame_columns, Hcols. reflexivity.
    - unfold filtered_df. rewrite filter_frame_columns, Hcols. discriminate. }
  split; [exact Hparsed|]. rewrite Hparsed. split; [|split].
  - simpl. rewrite length_map. reflexivity.
  - constructor; [reflexivity|].
    apply Forall_forall. intros fields Hin.
    apply in_map_iff in Hin. destruct Hin as (r & <- & _). reflexivity.
  - intros text Hplain. unfold plain, csv_field in *.
    apply negb_true_iff in Hplain. rewrite Hplain. reflexivity.
Qed.

(** ** Keys *)

Section PairFacts.
Context {A : Type} (P : A -> A -> Prop).

Lemma FOP_app (l1 l2 : list A) :
  ForallOrdPairs P l1 -> ForallOrdPairs P l2 ->
  (forall a b, In a l1 -> In b l2 -> P a b) ->
  ForallOrdPairs P (l1 ++ l2).
Proof.
  intros H1 H2 Hcross. induction H1 as [|a l1 Ha _ IH]; simpl.
  - exact H2.
  - constructor.
    + apply Forall_app. split; [exact Ha|].
      apply Forall_forall. intros b Hb. apply Hcross; [left; reflexivity | exact Hb].
    + apply IH. intros x y Hx Hy. apply Hcross; [right; exact Hx | exact Hy].
Qed.

Hypothesis P_sym : forall a b, P a b -> P b a.

Lemma FOP_perm (l l' : list A) :
  Permutation l l' -> ForallOrdPairs P l -> ForallOrdPairs P l'.
Proof.
  induction 1 as [| x l l' Hperm IH | x y l | l l' l'' _ IH1 _ IH2];
    intros Hfop.
  - exact Hfop.
  - inversion Hfop as [|? ? Hx Hl]; subst. constructor; [|apply IH, Hl].
    rewrite Forall_forall in *. intros b Hb. apply Hx.
    apply (Permutation_in _ (Permutation_sym Hperm)), Hb.
  - inversion Hfop as [|? ? Hy Hl]; subst.
    inversion Hl as [|? ? Hx Hl']; subst.
    inversion Hy as [|? ? Hyx Hy']; subst.
    constructor; [constructor; [apply P_sym, Hyx | exact Hx]|].
    constructor; [exact Hy' | exact Hl'].
  - apply IH2, IH1, Hfop.
Qed.
End PairFacts.

Lemma FOP_map {A B : Type} (f : A -> B) (P : B -> B -> Prop) (l : list A) :
  ForallOrdPairs (fun a b => P (f a) (f b)) l <-> ForallOrdPairs P (map f l).
Proof.
  induction l as [|a l IH]; simpl.
  - split; constructor.
  - split; intros Hfop; inversion Hfop as [|? ? Ha Hl]; subst; constructor.
    + rewrite Forall_forall in *. intros b Hb. apply in_map_iff in Hb.
      destruct Hb as (x & <- & Hx). apply Ha, Hx.
    + apply IH, Hl.
    + rewrite Forall_forall in *. intros x Hx. apply Ha, in_map, Hx.
    + apply IH, Hl.
Qed.

Lemma cell_eqb_sym (a b : cell) : cell_eqb a b = cell_eqb b a.
Proof. destruct a, b; simpl; try reflexivity. apply Qeq_bool_comm. Qed.

Lemma us_same_key_sym (a b : US.row) : ~ us_same_key a b -> ~ us_same_key b a.
Proof.
  unfold us_same_key. intros Hn (H1 & H2 & H3 & H4). apply Hn.
  rewrite cell_eqb_sym. auto.
Qed.

Lemma nifty_same_key_sym (a b : NIFTY.row) :
  ~ nifty_same_key a b -> ~ nifty_same_key b a.
Proof.
  unfold nifty_same_key. intros Hn (H1 & H2 & H3). apply Hn.
  rewrite cell_eqb_sym. auto.
Qed.

(** The shaped rows of a table of distinct strikes have distinct keys. *)
Lemma us_rows_unique (symbol expiration_date : value) (option_type : string)
    (table : list series) :
  distinct_cells (map series_strike table) ->
  unique_keys us_same_key
    (stable_sort type_strike_leb
       (map (us_row symbol expiration_date option_type) table)).
Proof.
  intros Hd. unfold unique_keys.
  eapply FOP_perm;
    [exact us_same_key_sym | apply Permutation_sym, stable_sort_perm |].
  apply FOP_map. unfold distinct_cells in Hd. apply FOP_map in Hd.
  induction Hd as [|row table Hrow _ IH]; constructor; [|exact IH].
  rewrite Forall_forall in *. intros row' Hin (_ & _ & Hs & _).
  specialize (Hrow row' Hin). unfold series_strike in Hrow.
  simpl in Hs. congruence.
Qed.

(** The rows of entries at distinct strikes have distinct keys. *)
Lemma entry_rows_unique (items : list value) :
  distinct_cells (map entry_strike items) ->
  unique_keys nifty_same_key (flat_map entry_rows items).
Proof.
  intros Hd. unfold distinct_cells in Hd. apply FOP_map in Hd.
  unfold unique_keys.
  induction Hd as [|item items Hitem _ IH]; simpl; [constructor|].
  apply FOP_app; [|exact IH|].
  - destruct item as [| | | | | | it |]; simpl; try constructor.
    destruct (dict_get it "CE") as [| | | | | | [|? ?] |],
             (dict_get it "PE") as [| | | | | | [|? ?] |];
      simpl; repeat constructor.
    intros (_ & Hty & _). discriminate.
  - intros a b Ha Hb (_ & _ & Hs).
    apply entry_rows_strike in Ha.
    apply in_flat_map in Hb. destruct Hb as (item' & Hin & Hb).
    apply entry_rows_strike in Hb.
    rewrite Forall_forall in Hitem. specialize (Hitem item' Hin).
    rewrite Ha, Hb in Hs. congruence.
Qed.

(** C8, as the code has it.  The shapers keep keys apart, they do not make
    them so: when no two rows of the calls table and no two rows of the puts
    table carry the same strike, no two records of the equity frame share
    symbol, type, strike and expiration; when no two entries of the index
    payload carry the same strike, no two records of the index frame share
    symbol, type and strike. *)
Theorem shaped_keys_unique {E : Env} (s : state E) :
  (forall (d : list (string * value)) (symbol expiration_date : value)
          (calls puts : list series),
      lookup "symbol" d = Some symbol ->
      lookup "expiration_date" d = Some expiration_date ->
      table_of (lookup "calls" d) = Some calls ->
      table_of (lookup "puts" d) = Some puts ->
      forallb numeric_series (calls ++ puts) = true ->
      distinct_cells (map series_strike calls) ->
      distinct_cells (map series_strike puts) ->
      exists df : DataFrame US.row,
        process_options_data (VDict d) = Ok (Some df) /\
        unique_keys us_same_key (rows df)) /\
  (forall (d r : list (string * value)) (items : list value),
      lookup "records" d = Some (VDict r) ->
      lookup "data" r = Some (VList items) ->
      forallb entry_ok items = true ->
      distinct_cells (map entry_strike items) ->
      exists (df : DataFrame NIFTY.row) (s' : state E),
        process_nifty_options_data (VDict d) s = (Ok (Some df), s') /\
        unique_keys nifty_same_key (rows df)).
Proof.
  split.
  - intros d symbol expiration_date calls puts Hsym Hexp Hcalls Hputs Hnum Hdc Hdp.
    eexists. split.
    + apply (process_options_data_ok d symbol expiration_date calls puts);
        assumption.
    + cbn [rows]. apply FOP_app.
      * apply us_rows_unique, Hdc.
      * apply us_rows_unique, Hdp.
      * intros a b Ha Hb (_ & Hty & _).
        pose proof (us_rows_type symbol expiration_date "calls" calls) as Hc.
        pose proof (us_rows_type symbol expiration_date "puts" puts) as Hp.
        rewrite Forall_forall in Hc, Hp.
        rewrite (Hc a Ha), (Hp b Hb) in Hty. discriminate.
  - intros d r items Hrec Hdata Hok Hd.
    destruct (process_nifty_ok d r items s Hrec Hdata Hok)
      as (df & s' & Hrun & _ & Hrows & _).
    exists df, s'. split; [exact Hrun|].
    assert (Hu : unique_keys nifty_same_key (map NIFTY.untimed (rows df))).
    { rewrite Hrows. unfold unique_keys.
      eapply FOP_perm;
        [exact nifty_same_key_sym | apply Permutation_sym, stable_sort_perm |].
      apply entry_rows_unique, Hd. }
    unfold unique_keys in *. apply FOP_map in Hu. exact Hu.
Qed.

(** ** Purity of the shapers *)

(** C5, as the code has it.  The equity shaper reads nothing but its payload:
    run in any two states it gives one outcome.  The index shaper reads the
    clock once per record: two runs on one payload, in any environments and
    states, give outcomes that agree except for the Timestamp cells.  A
    missing calls or puts key leaves the rows of the other table, and a strike
    entry without one of CE and PE still gives the row of the other, in a
    frame that is returned. *)
Theorem shapers_pure_up_to_clock {E1 E2 : Env} (s1 : state E1) (s2 : state E2) :
  (forall payload : value,
      fst (lift (process_options_data payload) s1)
      = fst (lift (process_options_data payload) s2)) /\
  (forall payload : value,
      untimed_outcome (fst (process_nifty_options_data payload s1))
      = untimed_outcome (fst (process_nifty_options_data payload s2))) /\
  (forall (d : list (string * value)) (symbol expiration_date : value)
          (present_key absent_key : string) (table : list series),
      lookup "symbol" d = Some symbol ->
      lookup "expiration_date" d = Some expiration_date ->
      (present_key = "calls" /\ absent_key = "puts" \/
       present_key = "puts" /\ absent_key = "calls") ->
      lookup absent_key d = None ->
      lookup present_key d = Some (VFrame table) ->
      forallb numeric_series table = true ->
      process_options_data (VDict d)
      = Ok (Some {| columns := match table with
                               | [] => []
                               | _ => US.column_names
                               end;
                    rows := stable_sort type_strike_leb
                              (map (us_row symbol expiration_date present_key)
                                   table) |})) /\
  (forall (d r it sub : list (string * value)) (kv : string * value)
          (items : list value) (present_key absent_key : string),
      lookup "records" d = Some (VDict r) ->
      lookup "data" r = Some (VList items) ->
      forallb entry_ok items = true ->
      In (VDict it) items ->
      (present_key = "CE" /\ absent_key = "PE" \/
       present_key = "PE" /\ absent_key = "CE") ->
      lookup absent_key it = None ->
      lookup present_key it = Some (VDict (kv :: sub)) ->
      exists (df : DataFrame NIFTY.row) (s' : state E1),
        process_nifty_options_data (VDict d) s1 = (Ok (Some df), s') /\
        entry_rows (VDict it)
        = [nifty_row present_key (dict_get it "strikePrice") (kv :: sub)] /\
        In (nifty_row present_key (dict_get it "strikePrice") (kv :: sub))
           (map NIFTY.untimed (rows df))).
Proof.
  split; [reflexivity|]. split; [intros; apply process_nifty_untimed|]. split.
  - intros d symbol expiration_date present_key absent_key table
           Hsym Hexp Hkeys Habsent Hpresent Hnum.
    destruct Hkeys as [[-> ->]|[-> ->]].
    + rewrite (process_options_data_ok d symbol expiration_date table []);
        try assumption.
      * rewrite !app_nil_r. reflexivity.
      * rewrite Hpresent. reflexivity.
      * rewrite Habsent. reflexivity.
      * rewrite app_nil_r. exact Hnum.
    + rewrite (process_options_data_ok d symbol expiration_date [] table);
        try assumption.
      * reflexivity.
      * rewrite Habsent. reflexivity.
      * rewrite Hpresent. reflexivity.
  - intros d r it sub kv items present_key absent_key
           Hrec Hdata Hok Hin Hkeys Habsent Hpresent.
    destruct (process_nifty_ok d r items s1 Hrec Hdata Hok)
      as (df & s' & Hrun & _ & Hrows & _).
    exists df, s'. split; [exact Hrun|].
    assert (Hentry : entry_rows (VDict it)
                     = [nifty_row present_key (dict_get it "strikePrice")
                                  (kv :: sub)]).
    { unfold entry_rows.
      destruct Hkeys as [[-> ->]|[-> ->]];
        unfold dict_get at 2 4; rewrite Habsent, Hpresent; reflexivity. }
    split; [exact Hentry|].
    rewrite Hrows. apply stable_sort_in, in_flat_map.
    exists (VDict it). split; [exact Hin|]. rewrite Hentry. left. reflexivity.
Qed.

(** * The statements on samples *)

(** C1 on the sample chain: two call rows and one put row. *)
Lemma process_options_data_shape_sample :
  exists calls_out puts_out : list US.row,
    process_options_data (VDict sample_chain)
    = Ok (Some {| columns := US.column_names; rows := calls_out ++ puts_out |}) /\
    List.length (calls_out ++ puts_out) = 3%nat /\
    Forall (fun r => US.Type_ r = "Call") calls_out /\
    Forall (fun r => US.Type_ r = "Put") puts_out /\
    strikes_ascending calls_out /\
    strikes_ascending puts_out.
Proof.
  destruct (process_options_data_shape sample_chain (VStr "AAPL")
              (VStr "2024-01-19")
              [[("strike", VNum 150%Q); ("volume", VNum 1000%Q);
                ("openInterest", VNum 500%Q)];
               [("strike", VNum 145%Q); ("lastPrice", VNum (21 # 2)%Q);
                ("openInterest", VNum 120%Q)]]
              [[("strike", VNum 150%Q); ("volume", VNum 800%Q);
                ("openInterest", VNum 300%Q)]]
              eq_refl eq_refl eq_refl eq_refl eq_refl)
    as (calls_out & puts_out & Hrun & Hlen & _ & _ & Hc & Hp & Hsc & Hsp & _).
  exists calls_out, puts_out. repeat split; assumption.
Defined.





(** C4 on the sample table. *)
Lemma top_strikes_bounded_sample :
  (List.length (top_strikes [sample_ce; sample_pe]) <= 20)%nat /\
  exists r : NIFTY.row,
    In r [sample_ce; sample_pe] /\ row_strike r = Some 150%Q.
Proof.
  destruct (top_strikes_bounded [sample_ce; sample_pe]) as [Hlen Hin].
  split; [exact Hlen|]. apply Hin. left. reflexivity.
Defined.

(** C5 on the sample payloads: the index payload at two clock readings, and
    a chain without its puts. *)
Lemma shapers_pure_up_to_clock_sample :
  untimed_outcome
    (fst (process_nifty_options_data sample_index_payload (at_time 0)))
  = untimed_outcome
      (fst (process_nifty_options_data sample_index_payload (at_time 1000))) /\
  exists df : DataFrame US.row,
    process_options_data
      (VDict [("symbol", VStr "AAPL"); ("expiration_date", VStr "2024-01-19");
              ("calls", VFrame [[("strike", VNum 150%Q)]])])
    = Ok (Some df) /\ List.length (rows df) = 1%nat.
Proof.
  destruct (shapers_pure_up_to_clock (at_time 0) (at_time 1000))
    as (_ & Hclock & Hside & _).
  split; [apply Hclock|].
  eexists. split.
  - apply (Hside _ (VStr "AAPL") (VStr "2024-01-19") "calls" "puts"
                 [[("strike", VNum 150%Q)]]); try reflexivity.
    left. split; reflexivity.
  - reflexivity.
Defined.

(** C5 as stated fails: two runs of the index shaper on one payload, at two
    clock readings, give different tables. *)
Lemma runs_differ_by_timestamp :
  fst (process_nifty_options_data sample_index_payload (at_time 0))
  <> fst (process_nifty_options_data sample_index_payload (at_time 1000)).
Proof. vm_compute. intros Heq. discriminate Heq. Qed.

(** The sample client lists its expirations in ascending order. *)
Lemma sample_env_chronological : chronological sample_env.
Proof.
  intros symbol w w' dates Hlist. inversion Hlist; subst.
  repeat constructor.
Qed.

(** C6 on the sample client. *)
Lemma fetch_options_chain_spec_sample :
  Forall (fun d => ("2024-01-19" <=? d)%string = true) ["2024-02-16"] /\
  requests (trace (snd (fetch_options_chain (E := sample_env) "AAPL" (at_time 0))))
  = [ListedExpirations "AAPL"; RequestedChain "AAPL" "2024-01-19"] /\
  fst (fetch_options_chain (E := sample_env) "AAPL" (at_time 0))
  = Ok (VDict [("symbol", VStr "AAPL");
               ("expiration_date", VStr "2024-01-19");
               ("calls", sample_calls);
               ("puts", sample_puts);
               ("timestamp", VTime 0)]).
Proof.
  destruct (fetch_options_chain_spec sample_env "AAPL" (at_time 0))
    as (Hearliest & Hrequests & Hout).
  split; [exact (Hearliest sample_env_chronological)|].
  split; [exact Hrequests | exact Hout].
Defined.

(** C6 as stated fails: with a client that lists the later expiration
    first, the chain fetched is that of the later date. *)
Lemma first_listed_is_not_earliest :
  fst (ticker_options late_first_env "AAPL" 0%Z)
  = Reply ["2024-02-16"; "2024-01-19"] /\
  ("2024-02-16" <=? "2024-01-19")%string = false /\
  requests (trace (snd (fetch_options_chain (E := late_first_env) "AAPL"
                          (Build_state late_first_env 0%Z []))))
  = [ListedExpirations "AAPL"; RequestedChain "AAPL" "2024-02-16"] /\
  fst (fetch_options_chain (E := late_first_env) "AAPL"
         (Build_state late_first_env 0%Z []))
  = Ok (VDict [("symbol", VStr "AAPL");
               ("expiration_date", VStr "2024-02-16");
               ("calls", sample_calls);
               ("puts", sample_puts);
               ("timestamp", VTime 0)]).
Proof. repeat split. Qed.

(** C7 on the sample frame, keeping the CE records between strikes 100 and
    200. *)
Lemma csv_round_trip_sample :
  read_csv (to_csv fraction_text reading_text
              (filter_frame "CE" (100, 200)%Z sample_frame))
  = [NIFTY.column_names;
     ["NIFTY"; "CE"; "150/1"; "500/1"; EmptyString; "1000/1"; EmptyString;
      EmptyString; EmptyString; EmptyString; EmptyString; "0"]].
Proof.
  exact (proj1 (csv_round_trip fraction_text reading_text "CE" (100, 200)%Z
                  sample_frame eq_refl)).
Defined.

(** C8 on the sample payloads. *)
Lemma shaped_keys_unique_sample :
  (exists df : DataFrame US.row,
      process_options_data (VDict sample_chain) = Ok (Some df) /\
      unique_keys us_same_key (rows df)) /\
  (exists (df : DataFrame NIFTY.row) (s' : state sample_env),
      process_nifty_options_data sample_index_payload (at_time 0)
      = (Ok (Some df), s') /\
      unique_keys nifty_same_key (rows df)).
Proof.
  destruct (shaped_keys_unique (at_time 0)) as [Hus Hnifty]. split.
  - apply (Hus sample_chain (VStr "AAPL") (VStr "2024-01-19")
               [[("strike", VNum 150%Q); ("volume", VNum 1000%Q);
                 ("openInterest", VNum 500%Q)];
                [("strike", VNum 145%Q); ("lastPrice", VNum (21 # 2)%Q);
                 ("openInterest", VNum 120%Q)]]
               [[("strike", VNum 150%Q); ("volume", VNum 800%Q);
                 ("openInterest", VNum 300%Q)]]);
      try reflexivity; repeat constructor.
  - apply (Hnifty sample_index sample_records
                  [VDict sample_entry_150; VDict sample_entry_100]);
      try reflexivity; repeat constructor.
Defined.

(** C8 as stated fails: two call rows at one strike give two records with
    one key. *)
Lemma twin_strikes_share_a_key :
  exists df : DataFrame US.row,
    process_options_data twin_strike_payload = Ok (Some df) /\
    ~ unique_keys us_same_key (rows df).
Proof.
  eexists. split; [reflexivity|].
  intros Hu. inversion Hu as [|a l Ha _]; subst.
  inversion Ha as [|b l' Hab _]; subst.
  apply Hab. repeat split.
Qed.

(** C9 on the sample records. *)
Lemma example_summary_and_ratio_sample :
  oi_by_type [sample_ce; sample_pe] = [("CE", 500%Q); ("PE", 300%Q)] /\
  exists ratio : Q,
    put_call_ratio [sample_ce; sample_pe] = Some ratio /\ (ratio == 6 # 10)%Q.
Proof.
  exact (example_summary_and_ratio sample_ce sample_pe
           eq_refl eq_refl eq_refl eq_refl eq_refl eq_refl eq_refl eq_refl).
Defined.

(** C10 on the sample environment. *)
Lemma shapers_null_versus_empty_sample :
  process_options_data VNone = Ok None /\
  process_nifty_options_data (VDict []) (at_time 0) = (Ok None, at_time 0) /\
  process_options_data
    (VDict [("symbol", VStr "AAPL"); ("expiration_date", VStr "2024-01-19");
            ("calls", VFrame []); ("puts", VFrame [])])
  = Ok (Some {| columns := []; rows := [] |}) /\
  process_nifty_options_data
    (VDict [("records", VDict [("data", VList [])])]) (at_time 0)
  = (Ok (Some {| columns := []; rows := [] |}), at_time 0).
Proof.
  destruct (shapers_null_versus_empty (at_time 0)) as (Hnull & Hus & Hnifty).
  split; [apply (Hnull VNone eq_refl)|].
  split; [apply (Hnull (VDict []) eq_refl)|].
  split.
  - apply (Hus _ (VStr "AAPL") (VStr "2024-01-19")); reflexivity.
  - apply (Hnifty _ [("data", VList [])]); reflexivity.
Defined.

(** * Further properties *)

(** ** What every frame of the index shaper satisfies *)

Lemma nifty_to_row_tags (r : NIFTY.raw) (t : NIFTY.row) :
  NIFTY.to_row r = Ok t ->
  NIFTY.Symbol t = NIFTY.Symbol r /\ NIFTY.Type_ t = NIFTY.Type_ r /\
  NIFTY.Timestamp t = NIFTY.Timestamp r.
Proof.
  unfold NIFTY.to_row.
  repeat match goal with
         | |- context [to_cell ?v] => destruct (to_cell v); simpl; try discriminate
         end.
  intros Heq. inversion Heq. auto.
Qed.

Lemma mapM_Forall {A B : Type} (f : A -> res B) (P : A -> Prop) (Q : B -> Prop)
    (l : list A) (bs : list B) :
  (forall a b, f a = Ok b -> P a -> Q b) ->
  mapM f l = Ok bs -> Forall P l -> Forall Q bs.
Proof.
  intros Hf. revert bs. induction l as [|a l IH]; simpl; intros bs Hm HP.
  - inversion Hm. constructor.
  - destruct (f a) as [b|e] eqn:Hfa; simpl in Hm; [|discriminate].
    destruct (mapM f l) as [bs'|e]; simpl in Hm; [|discriminate].
    inversion Hm; subst. inversion HP; subst.
    constructor; [eapply Hf; eassumption | apply IH; auto].
Qed.

Section IndexInvariants.
Context {E : Env}.

Lemma nifty_record_tagged (kind : string) (strike_price sub : value)
    (s s' : state E) (r : NIFTY.raw) :
  nifty_record kind strike_price sub s = (Ok r, s') ->
  NIFTY.Symbol r = "NIFTY" /\ NIFTY.Type_ r = kind.
Proof.
  destruct sub; try (unfold nifty_record, M_bind, lift; simpl; discriminate).
  rewrite nifty_record_dict. intros Heq. inversion Heq. auto.
Qed.

Lemma append_side_tagged (kind : string) (strike_price sub : value)
    (records out : list NIFTY.raw) (s s' : state E) :
  kind = "CE" \/ kind = "PE" ->
  append_side kind strike_price sub records s = (Ok out, s') ->
  Forall nifty_tagged records -> Forall nifty_tagged out.
Proof.
  intros Hkind. unfold append_side, M_bind, lift, M_ret.
  destruct (truthy sub) as [[|]|e]; try discriminate.
  - destruct (nifty_record kind strike_price sub s) as [[r|e] s1] eqn:Hrec;
      [|discriminate].
    intros Heq Hall. inversion Heq; subst.
    apply nifty_record_tagged in Hrec. destruct Hrec as [Hsym Hty].
    apply Forall_app. split; [exact Hall|].
    constructor; [|constructor]. split; [exact Hsym|]. rewrite Hty. exact Hkind.
  - intros Heq Hall. inversion Heq; subst. exact Hall.
Qed.

Lemma process_item_tagged (item : value) (records out : list NIFTY.raw)
    (s s' : state E) :
  process_item records item s = (Ok out, s') ->
  Forall nifty_tagged records -> Forall nifty_tagged out.
Proof.
  unfold process_item, M_bind, lift.
  destruct (py_get item "strikePrice") as [strike_price|e]; [|discriminate].
  destruct (py_get item "CE") as [ce_data|e]; [|discriminate].
  destruct (py_get item "PE") as [pe_data|e]; [|discriminate].
  destruct (append_side "CE" strike_price ce_data records s)
    as [[records1|e] s1] eqn:Hce; [|discriminate].
  intros Hpe Hall.
  eapply (append_side_tagged "PE"); [right; reflexivity | exact Hpe |].
  eapply (append_side_tagged "CE"); [left; reflexivity | exact Hce | exact Hall].
Qed.

Lemma for_each_tagged (items : list value) (records out : list NIFTY.raw)
    (s s' : state E) :
  for_each items records s = (Ok out, s') ->
  Forall nifty_tagged records -> Forall nifty_tagged out.
Proof.
  revert records s. induction items as [|item items IH]; simpl; intros records s.
  - unfold M_ret. intros Heq Hall. inversion Heq; subst. exact Hall.
  - unfold M_bind.
    destruct (process_item records item s) as [[records1|e] s1] eqn:Hitem;
      [|discriminate].
    intros Hrest Hall. eapply IH; [exact Hrest|].
    eapply process_item_tagged; eassumption.
Qed.

Lemma collect_tagged (data : value) (out : list NIFTY.raw) (s s' : state E) :
  collect data s = (Ok out, s') -> Forall nifty_tagged out.
Proof.
  unfold collect, M_bind, lift, M_ret.
  destruct (contains "records" data) as [[|]|e]; try discriminate;
    [|intros Heq; inversion Heq; constructor].
  destruct (subscript data "records") as [recs|e]; [|discriminate].
  destruct (contains "data" recs) as [[|]|e]; try discriminate;
    [|intros Heq; inversion Heq; constructor].
  destruct (subscript recs "data") as [payload|e]; [|discriminate].
  destruct (iterate payload) as [items|e]; [|discriminate].
  intros Heq. eapply for_each_tagged; [exact Heq | constructor].
Qed.

(** The frame the index shaper returns, in terms of what it collected. *)
Lemma process_nifty_frame (data : value) (s s' : state E)
    (df : DataFrame NIFTY.row) :
  process_nifty_options_data data s = (Ok (Some df), s') ->
  exists (raws : list NIFTY.raw) (typed : list NIFTY.row) (s1 : state E),
    collect data s = (Ok raws, s1) /\
    mapM NIFTY.to_row raws = Ok typed /\
    rows df = stable_sort type_strike_leb typed /\
    columns df = columns_for NIFTY.column_names typed.
Proof.
  unfold process_nifty_options_data, M_bind, lift.
  destruct (truthy data) as [[|]|e]; try discriminate.
  cbn [negb]. cbv iota. unfold try_except, M_bind, lift, M_ret, print, emit.
  destruct (collect data s) as [[raws|e] s1] eqn:Hcollect.
  - unfold pd_DataFrame. destruct raws as [|r0 raws].
    + intros Heq. inversion Heq; subst.
      exists [], [], s'. repeat split.
    + destruct (mapM NIFTY.to_row (r0 :: raws)) as [typed|e] eqn:Hm.
      * intros Heq. exists (r0 :: raws), typed, s1.
        split; [reflexivity|]. split; [exact Hm|].
        destruct typed as [|t0 typed].
        { apply mapM_length in Hm. discriminate. }
        simpl in Heq. inversion Heq; subst. split; reflexivity.
      * destruct e; discriminate.
  - destruct e; discriminate.
Qed.

End IndexInvariants.

(** X1.  Whatever the payload, a frame returned by the index shaper is in
    the order of (Type, Strike), all CE records before all PE records and
    the strikes of each type ascending with nulls last; each of its records
    carries the symbol NIFTY and the type CE or PE; and it has the twelve
    columns of the records unless it has no record, in which case it has no
    column either. *)
Theorem process_nifty_frame_invariants {E : Env} (data : value)
    (s s' : state E) (df : DataFrame NIFTY.row) :
  process_nifty_options_data data s = (Ok (Some df), s') ->
  StronglySorted (fun a b => type_strike_leb a b = true) (rows df) /\
  Forall nifty_tagged (rows df) /\
  columns df = columns_for NIFTY.column_names (rows df) /\
  exists ces pes : list NIFTY.row,
    rows df = ces ++ pes /\
    Forall (fun r => NIFTY.Type_ r = "CE") ces /\
    Forall (fun r => NIFTY.Type_ r = "PE") pes /\
    strikes_ascending ces /\ strikes_ascending pes.
Proof.
  intros Hrun.
  destruct (process_nifty_frame data s s' df Hrun)
    as (raws & typed & s1 & Hcollect & Hm & Hrows & Hcols).
  assert (Hsorted : StronglySorted (fun a b => type_strike_leb a b = true)
                                   (rows df)).
  { rewrite Hrows. apply stable_sort_sorted;
      [apply type_strike_leb_total | apply type_strike_leb_trans]. }
  assert (Htagged : Forall nifty_tagged (rows df)).
  { rewrite Hrows. apply stable_sort_Forall.
    eapply (mapM_Forall NIFTY.to_row nifty_tagged nifty_tagged);
      [| exact Hm | eapply collect_tagged; exact Hcollect].
    intros a b Hab [Hsym Hty]. apply nifty_to_row_tags in Hab.
    destruct Hab as (Hs & Ht & _). unfold nifty_tagged.
    rewrite Hs, Ht. auto. }
  split; [exact Hsorted|]. split; [exact Htagged|]. split.
  - rewrite Hcols, Hrows. destruct typed as [|t0 typed]; [reflexivity|].
    destruct (stable_sort type_strike_leb (t0 :: typed)) eqn:Hs; [|reflexivity].
    apply (f_equal (@List.length _)) in Hs.
    rewrite stable_sort_length in Hs. discriminate.
  - exists (filter (fun r => NIFTY.Type_ r =? "CE") (rows df)),
           (filter (fun r => NIFTY.Type_ r =? "PE") (rows df)).
    assert (Hsplit : forall l : list NIFTY.row,
               StronglySorted (fun a b => type_strike_leb a b = true) l ->
               Forall nifty_tagged l ->
               l = filter (fun r => NIFTY.Type_ r =? "CE") l
                   ++ filter (fun r => NIFTY.Type_ r =? "PE") l).
    { induction l as [|a l IH]; intros Hs Ht; [reflexivity|].
      inversion Hs as [|? ? Hs' Ha]; subst. inversion Ht as [|? ? Hta Ht']; subst.
      specialize (IH Hs' Ht'). cbn [filter].
      destruct Hta as [_ [Hce|Hpe]].
      - rewrite Hce. simpl. f_equal. exact IH.
      - rewrite Hpe. simpl.
        assert (Hnone : filter (fun r => NIFTY.Type_ r =? "CE") l = []).
        { assert (Hall : forall b, In b l -> (NIFTY.Type_ b =? "CE") = false).
          { rewrite Forall_forall in Ha, Ht'. intros b Hin.
            specialize (Ha b Hin). rewrite type_strike_leb_compare in Ha.
            simpl in Ha. rewrite Hpe in Ha.
            destruct (Ht' b Hin) as [_ [Hbc|Hbp]].
            - rewrite Hbc in Ha. discriminate.
            - rewrite Hbp. reflexivity. }
          clear -Hall. induction l as [|b l IHl]; [reflexivity|]. cbn [filter].
          rewrite Hall by (left; reflexivity).
          apply IHl. intros x Hx. apply Hall. right. exact Hx. }
        rewrite Hnone in *. simpl in *. f_equal. exact IH. }
    split; [apply Hsplit; assumption|].
    assert (Hfilter : forall (ty : string) (l : list NIFTY.row),
               StronglySorted (fun a b => type_strike_leb a b = true) l ->
               StronglySorted (fun a b => type_strike_leb a b = true)
                              (filter (fun r => NIFTY.Type_ r =? ty) l)).
    { intros ty l. induction 1 as [|a l Hs IH Ha]; simpl; [constructor|].
      destruct (NIFTY.Type_ a =? ty); [|exact IH].
      constructor; [exact IH|].
      rewrite Forall_forall in *. intros x Hx. apply filter_In in Hx.
      apply Ha, Hx. }
    assert (Hty : forall (ty : string) (l : list NIFTY.row),
               Forall (fun r => NIFTY.Type_ r = ty)
                      (filter (fun r => NIFTY.Type_ r =? ty) l)).
    { intros ty l. apply Forall_forall. intros x Hx. apply filter_In in Hx.
      apply String.eqb_eq, Hx. }
    split; [apply Hty|]. split; [apply Hty|]. split.
    + eapply (sorted_same_type "CE"); [apply Hty | apply Hfilter, Hsorted].
    + eapply (sorted_same_type "PE"); [apply Hty | apply Hfilter, Hsorted].
Qed.

(** ** Errors of the index shaper *)

Section IndexErrors.
Context {E : Env}.

Lemma nifty_record_trace (kind : string) (strike_price sub : value)
    (s : state E) :
  trace (snd (nifty_record kind strike_price sub s)) = trace s.
Proof.
  destruct sub; try (unfold nifty_record, M_bind, lift; reflexivity).
  rewrite nifty_record_dict. reflexivity.
Qed.

Lemma append_side_trace (kind : string) (strike_price sub : value)
    (records : list NIFTY.raw) (s : state E) :
  trace (snd (append_side kind strike_price sub records s)) = trace s.
Proof.
  unfold append_side, M_bind, lift, M_ret.
  destruct (truthy sub) as [[|]|e]; try reflexivity.
  pose proof (nifty_record_trace kind strike_price sub s) as Htr.
  destruct (nifty_record kind strike_price sub s) as [[r|e] s1]; exact Htr.
Qed.

Lemma process_item_trace (records : list NIFTY.raw) (item : value)
    (s : state E) :
  trace (snd (process_item records item s)) = trace s.
Proof.
  unfold process_item, M_bind, lift.
  destruct (py_get item "strikePrice") as [strike_price|e]; [|reflexivity].
  destruct (py_get item "CE") as [ce_data|e]; [|reflexivity].
  destruct (py_get item "PE") as [pe_data|e]; [|reflexivity].
  pose proof (append_side_trace "CE" strike_price ce_data records s) as Hce.
  destruct (append_side "CE" strike_price ce_data records s) as [[r1|e] s1];
    [|exact Hce].
  rewrite append_side_trace. exact Hce.
Qed.

Lemma for_each_trace (items : list value) (records : list NIFTY.raw)
    (s : state E) :
  trace (snd (for_each items records s)) = trace s.
Proof.
  revert records s. induction items as [|item items IH]; intros records s.
  - reflexivity.
  - simpl. unfold M_bind.
    pose proof (process_item_trace records item s) as Hitem.
    destruct (process_item records item s) as [[r1|e] s1]; [|exact Hitem].
    rewrite IH. exact Hitem.
Qed.

Lemma collect_trace (data : value) (s : state E) :
  trace (snd (collect data s)) = trace s.
Proof.
  unfold collect, M_bind, lift, M_ret.
  destruct (contains "records" data) as [[|]|e]; try reflexivity.
  destruct (subscript data "records") as [recs|e]; [|reflexivity].
  destruct (contains "data" recs) as [[|]|e]; try reflexivity.
  destruct (subscript recs "data") as [payload|e]; [|reflexivity].
  destruct (iterate payload) as [items|e]; [|reflexivity].
  apply for_each_trace.
Qed.

Lemma for_each_app (l1 l2 : list value) (records : list NIFTY.raw) (s : state E) :
  for_each (l1 ++ l2) records s
  = match for_each l1 records s with
    | (Ok records1, s1) => for_each l2 records1 s1
    | (Raise e, s1) => (Raise e, s1)
    end.
Proof.
  revert records s. induction l1 as [|item l1 IH]; intros records s.
  - reflexivity.
  - simpl. unfold M_bind.
    destruct (process_item records item s) as [[r1|e] s1]; [apply IH | reflexivity].
Qed.

Lemma append_side_passes (kind : string) (strike_price sub : value)
    (records : list NIFTY.raw) (s : state E) :
  side_passes sub = true ->
  exists (out : list NIFTY.raw) (s1 : state E),
    append_side kind strike_price sub records s = (Ok out, s1).
Proof.
  unfold side_passes, present, append_side, M_bind, lift, M_ret.
  destruct sub as [| b | q | str | t | l | entries | f]; simpl; try discriminate;
    try (intros Hp; apply negb_true_iff in Hp; rewrite Hp; eauto; fail);
    try (intros _; eauto; fail).
  intros _. destruct entries; [eauto|].
  rewrite nifty_record_dict. eauto.
Qed.

Lemma append_side_breaks (kind : string) (strike_price sub : value)
    (records : list NIFTY.raw) (s : state E) :
  side_breaks sub = true ->
  append_side kind strike_price sub records s = (Raise AttributeError, s).
Proof.
  unfold side_breaks, present, append_side, M_bind, lift, M_ret.
  destruct sub as [| b | q | str | t | l | entries | f]; simpl; try discriminate;
    try (intros ->; reflexivity); try (intros _; reflexivity).
Qed.

Lemma process_item_breaks (records : list NIFTY.raw) (item : value)
    (s : state E) :
  entry_breaks item = true ->
  exists s1 : state E,
    process_item records item s = (Raise AttributeError, s1) /\
    trace s1 = trace s.
Proof.
  intros Hbreaks.
  assert (Htr := process_item_trace records item s).
  destruct item as [| b | q | str | t | l | entries | f];
    simpl in Hbreaks; try discriminate;
    try (exists s; split; reflexivity).
  unfold process_item, M_bind, lift in *. simpl in *.
  apply orb_true_iff in Hbreaks. destruct Hbreaks as [Hce|Hpe].
  - rewrite (append_side_breaks "CE" _ _ records s Hce). eauto.
  - apply andb_true_iff in Hpe. destruct Hpe as [Hce Hpe].
    destruct (append_side_passes "CE" (dict_get entries "strikePrice")
                (dict_get entries "CE") records s Hce) as (out & s1 & Hrun).
    rewrite Hrun in *.
    rewrite (append_side_breaks "PE" _ _ out s1 Hpe) in *. eauto.
Qed.

End IndexErrors.

(** X2.  The index shaper lets no Python exception out once its payload has
    a truth value: it ends with a frame, or with [None].  It prints nothing
    when it returns a frame; when it returns [None] for a payload that is
    true it has printed exactly one message, the error it caught. *)
Theorem process_nifty_contains_errors {E : Env} (data : value) (s : state E)
    (truth : bool) :
  truthy data = Ok truth ->
  match process_nifty_options_data data s with
  | (Ok (Some df), s') => truth = true /\ trace s' = trace s
  | (Ok None, s') =>
      (truth = false /\ s' = s) \/
      (truth = true /\
       exists e : exn,
         trace s'
         = trace s ++ [Printed ("Error processing NIFTY data: " ++ str_exn e)])
  | (Raise e, s') => e = Unmodelled
  end.
Proof.
  intros Htruth. unfold process_nifty_options_data, M_bind, lift.
  rewrite Htruth. destruct truth; cbn [negb]; cbv iota.
  - unfold try_except, M_bind, lift, M_ret, print, emit.
    pose proof (collect_trace data s) as Htr.
    destruct (collect data s) as [[raws|e] s1]; cbn [snd] in Htr.
    + destruct (pd_DataFrame NIFTY.column_names NIFTY.to_row raws) as [df|e].
      * split; [reflexivity | exact Htr].
      * destruct e; try reflexivity; right; (split; [reflexivity|]);
          eexists; cbn [trace]; rewrite Htr; reflexivity.
    + destruct e; try reflexivity; right; (split; [reflexivity|]);
        eexists; cbn [trace]; rewrite Htr; reflexivity.
  - left. split; reflexivity.
Qed.

(** X3.  One strike entry that is no dictionary, or whose first taken
    sub-object is no dictionary, voids the whole conversion: whatever the
    entries before and after it, the loop raises an attribute error, and the
    index shaper returns [None] after printing one line, the prefix of the
    handler followed by the message of that error; the records of the sound
    entries are lost. *)
Theorem process_nifty_broken_entry {E : Env} (d r : list (string * value))
    (before after : list value) (bad : value) (s : state E) :
  lookup "records" d = Some (VDict r) ->
  lookup "data" r = Some (VList (before ++ bad :: after)) ->
  forallb entry_ok before = true ->
  entry_breaks bad = true ->
  fst (collect (VDict d) s) = Raise AttributeError /\
  exists (s' : state E) (message : string),
    process_nifty_options_data (VDict d) s = (Ok None, s') /\
    trace s' = trace s ++ [Printed ("Error processing NIFTY data: " ++ message)].
Proof.
  intros Hrec Hdata Hok Hbad.
  destruct (for_each_ok before [] s Hok)
    as (raws & typed & s1 & Hrun & Htr & _ & _).
  destruct (process_item_breaks ([] ++ raws) bad s1 Hbad) as (s2 & Hitem & Htr2).
  assert (Hcollect : collect (VDict d) s = (Raise AttributeError, s2)).
  { unfold collect, M_bind, lift, contains, has_key, subscript.
    rewrite Hrec, Hdata. cbn [iterate].
    rewrite for_each_app, Hrun. cbn [for_each]. unfold M_bind at 1.
    rewrite Hitem. reflexivity. }
  split; [rewrite Hcollect; reflexivity|].
  eexists. exists (str_exn AttributeError). split.
  - unfold process_nifty_options_data, M_bind, lift, try_except.
    assert (Hd : truthy (VDict d) = Ok true).
    { destruct d; [discriminate | reflexivity]. }
    rewrite Hd. cbn [negb]. cbv iota.
    unfold try_except, M_bind. rewrite Hcollect. reflexivity.
  - cbn [trace]. rewrite Htr2, Htr. reflexivity.
Qed.

(** ** Errors and frames of the equity shaper *)

Lemma process_side_not_table (d : list (string * value))
    (symbol expiration_date : value) (records : list US.raw)
    (option_type : string) :
  table_entry (lookup option_type d) = false ->
  (forall table, lookup option_type d <> Some (VFrame table)) ->
  process_side (VDict d) symbol expiration_date records option_type
  = Raise AttributeError.
Proof.
  unfold table_entry, table_of, process_side, contains, has_key, subscript.
  destruct (lookup option_type d) as [[| | | | | | |]|]; simpl;
    intros Hentry Hframe; try discriminate; reflexivity.
Qed.

(** X4.  The equity shaper has no handler, and its payload must be a chain
    dictionary: a payload that is true and no dictionary raises a type
    error; a dictionary without its symbol or without its expiration date
    raises a key error for that key, whatever tables it holds; and a calls or
    puts entry that is neither missing, [None] nor a table raises an
    attribute error, the calls being read first. *)
Theorem process_options_data_errors :
  (forall payload : value,
      true_scalar payload = true ->
      process_options_data payload = Raise TypeError) /\
  (forall (kv : string * value) (d : list (string * value)),
      lookup "symbol" (kv :: d) = None ->
      process_options_data (VDict (kv :: d)) = Raise (KeyError "symbol")) /\
  (forall (d : list (string * value)) (symbol : value),
      lookup "symbol" d = Some symbol ->
      lookup "expiration_date" d = None ->
      process_options_data (VDict d) = Raise (KeyError "expiration_date")) /\
  (forall (d : list (string * value)) (symbol expiration_date : value),
      lookup "symbol" d = Some symbol ->
      lookup "expiration_date" d = Some expiration_date ->
      table_entry (lookup "calls" d) = false
      \/ (table_entry (lookup "calls" d) = true /\
          table_entry (lookup "puts" d) = false) ->
      process_options_data (VDict d) = Raise AttributeError).
Proof.
  split; [|split; [|split]].
  - intros payload Htrue. unfold process_options_data, true_scalar, present in *.
    destruct payload as [| b | q | str | t | l | entries | f];
      simpl in *; try discriminate; rewrite ?Htrue; reflexivity.
  - intros kv d Hsym. unfold process_options_data. cbn [truthy res_bind negb].
    unfold subscript. rewrite Hsym. reflexivity.
  - intros d symbol Hsym Hexp. unfold process_options_data.
    assert (Hd : truthy (VDict d) = Ok true).
    { destruct d; [discriminate | reflexivity]. }
    rewrite Hd. cbn [res_bind negb]. unfold subscript. rewrite Hsym, Hexp.
    reflexivity.
  - intros d symbol expiration_date Hsym Hexp Hbad. unfold process_options_data.
    assert (Hd : truthy (VDict d) = Ok true).
    { destruct d; [discriminate | reflexivity]. }
    rewrite Hd. cbn [res_bind negb]. unfold subscript at 1 2.
    rewrite Hsym, Hexp. cbn [res_bind foldM].
    assert (Hnot : forall key, table_entry (lookup key d) = false ->
                     forall table, lookup key d <> Some (VFrame table)).
    { intros key Hkey table Heq. rewrite Heq in Hkey. discriminate. }
    destruct Hbad as [Hcalls|[Hcalls Hputs]].
    + rewrite process_side_not_table; auto.
    + unfold table_entry in Hcalls.
      destruct (table_of (lookup "calls" d)) as [calls|] eqn:Htable;
        [|discriminate].
      rewrite (process_side_ok d _ _ _ _ calls Htable). cbn [res_bind].
      rewrite process_side_not_table; auto.
Qed.

Lemma us_to_row_tags (r : US.raw) (t : US.row) :
  US.to_row r = Ok t ->
  US.Symbol t = US.Symbol r /\ US.Type_ t = US.Type_ r /\
  US.Expiration_Date t = US.Expiration_Date r.
Proof.
  unfold US.to_row.
  repeat match goal with
         | |- context [to_cell ?v] => destruct (to_cell v); simpl; try discriminate
         end.
  intros Heq. inversion Heq. auto.
Qed.

Lemma process_side_out (options_data symbol expiration_date : value)
    (records out : list US.raw) (option_type : string) :
  process_side options_data symbol expiration_date records option_type = Ok out ->
  exists table : list series,
    out = records ++ map (us_record symbol expiration_date option_type) table.
Proof.
  unfold process_side.
  destruct (contains option_type options_data) as [[|]|e]; simpl;
    try discriminate.
  - destruct (subscript options_data option_type) as [df_slice|e]; simpl;
      [|discriminate].
    destruct (is_none df_slice).
    + intros Heq. inversion Heq. exists []. rewrite app_nil_r. reflexivity.
    + destruct (iterrows df_slice) as [slice_rows|e]; simpl; [|discriminate].
      intros Heq. inversion Heq. exists slice_rows. reflexivity.
  - intros Heq. inversion Heq. exists []. rewrite app_nil_r. reflexivity.
Qed.

(** Rows sorted by (Type, Strike) whose types are [t1] or [t2], [t1] the
    smaller, are the rows of type [t1] followed by those of type [t2]. *)
Lemma sorted_two_types {R : Type} `{OptionRow R} (t1 t2 : string) (l : list R) :
  String.compare t2 t1 = Gt ->
  StronglySorted (fun a b => type_strike_leb a b = true) l ->
  Forall (fun r => row_type r = t1 \/ row_type r = t2) l ->
  exists l1 l2 : list R,
    l = l1 ++ l2 /\
    Forall (fun r => row_type r = t1) l1 /\
    Forall (fun r => row_type r = t2) l2 /\
    strikes_ascending l1 /\ strikes_ascending l2.
Proof.
  intros Hgt Hs Ht.
  induction Hs as [|a l Hs IH Ha].
  - exists [], []. repeat split; constructor.
  - inversion Ht as [|? ? Hta Ht']; subst.
    destruct (IH Ht') as (l1 & l2 & -> & H1 & H2 & Hs1 & Hs2).
    assert (Hstrikes : forall b, In b (l1 ++ l2) -> row_type b = row_type a ->
                         cell_leb (row_strike a) (row_strike b) = true).
    { intros b Hb Hsame. rewrite Forall_forall in Ha. specialize (Ha b Hb).
      rewrite type_strike_leb_compare, Hsame, string_compare_refl in Ha.
      exact Ha. }
    destruct Hta as [Hta|Hta].
    + exists (a :: l1), l2. split; [reflexivity|].
      split; [constructor; assumption|]. split; [exact H2|].
      split; [|exact Hs2]. constructor; [exact Hs1|].
      rewrite Forall_forall in *. intros b Hb. apply Hstrikes.
      * apply in_or_app. left. exact Hb.
      * rewrite Hta. apply H1, Hb.
    + assert (Hl1 : l1 = []).
      { destruct l1 as [|b l1]; [reflexivity|]. exfalso.
        rewrite Forall_forall in Ha, H1.
        specialize (Ha b (or_introl eq_refl)).
        rewrite type_strike_leb_compare, Hta, (H1 b (or_introl eq_refl)), Hgt
          in Ha. discriminate. }
      subst l1. exists [], (a :: l2). split; [reflexivity|].
      split; [constructor|]. split; [constructor; assumption|].
      split; [constructor|]. constructor; [exact Hs2|].
      rewrite Forall_forall in *. intros b Hb. apply Hstrikes.
      * exact Hb.
      * rewrite Hta. apply H2, Hb.
Qed.

(** X5.  Whatever the payload, a frame returned by the equity shaper is in
    the order of (Type, Strike): its Call records come first, then its Put
    records, each group with strikes ascending and nulls last.  Every record
    carries the symbol and the expiration date stored in the payload, and the
    frame has the ten columns of the records unless it has no record. *)
Theorem process_options_data_frame_invariants (payload : value)
    (df : DataFrame US.row) :
  process_options_data payload = Ok (Some df) ->
  exists symbol expiration_date : value,
    subscript payload "symbol" = Ok symbol /\
    subscript payload "expiration_date" = Ok expiration_date /\
    Forall (us_tagged symbol expiration_date) (rows df) /\
    columns df = columns_for US.column_names (rows df) /\
    exists calls_out puts_out : list US.row,
      rows df = calls_out ++ puts_out /\
      Forall (fun r => US.Type_ r = "Call") calls_out /\
      Forall (fun r => US.Type_ r = "Put") puts_out /\
      strikes_ascending calls_out /\ strikes_ascending puts_out.
Proof.
  unfold process_options_data.
  destruct (truthy payload) as [[|]|e]; simpl; try discriminate.
  destruct (subscript payload "symbol") as [symbol|e]; simpl; [|discriminate].
  destruct (subscript payload "expiration_date") as [expiration_date|e]; simpl;
    [|discriminate].
  destruct (process_side payload symbol expiration_date [] "calls")
    as [records1|e] eqn:Hcalls; simpl; [|discriminate].
  destruct (process_side payload symbol expiration_date records1 "puts")
    as [records2|e] eqn:Hputs; simpl; [|discriminate].
  apply process_side_out in Hcalls, Hputs.
  destruct Hcalls as (calls & ->). destruct Hputs as (puts & ->).
  simpl app.
  set (raws := map (us_record symbol expiration_date "calls") calls ++
               map (us_record symbol expiration_date "puts") puts).
  assert (Hraws : Forall (us_tagged symbol expiration_date) raws).
  { apply Forall_app. split; apply Forall_forall; intros r Hr;
      apply in_map_iff in Hr; destruct Hr as (row & <- & _);
      repeat split; auto. }
  unfold pd_DataFrame.
  assert (Hframe : forall typed : list US.row,
             mapM US.to_row raws = Ok typed ->
             df = {| columns := columns_for US.column_names typed;
                     rows := stable_sort type_strike_leb typed |} ->
             exists symbol0 expiration_date0 : value,
               Ok symbol = Ok symbol0 /\ Ok expiration_date = Ok expiration_date0 /\
               Forall (us_tagged symbol0 expiration_date0) (rows df) /\
               columns df = columns_for US.column_names (rows df) /\
               exists calls_out puts_out : list US.row,
                 rows df = calls_out ++ puts_out /\
                 Forall (fun r => US.Type_ r = "Call") calls_out /\
                 Forall (fun r => US.Type_ r = "Put") puts_out /\
                 strikes_ascending calls_out /\ strikes_ascending puts_out).
  { intros typed Hm ->. exists symbol, expiration_date.
    split; [reflexivity|]. split; [reflexivity|]. cbn [rows columns].
    assert (Htagged : Forall (us_tagged symbol expiration_date)
                             (stable_sort type_strike_leb typed)).
    { apply stable_sort_Forall.
      eapply (mapM_Forall US.to_row (us_tagged symbol expiration_date)
                (us_tagged symbol expiration_date)); [| exact Hm | exact Hraws].
      intros a b Hab (Hs & He & Hty). apply us_to_row_tags in Hab.
      destruct Hab as (Hs' & Ht' & He'). unfold us_tagged.
      rewrite Hs', Ht', He'. auto. }
    split; [exact Htagged|]. split.
    - destruct typed as [|t0 typed]; [reflexivity|].
      destruct (stable_sort type_strike_leb (t0 :: typed)) eqn:Hs; [|reflexivity].
      apply (f_equal (@List.length _)) in Hs.
      rewrite stable_sort_length in Hs. discriminate.
    - destruct (sorted_two_types (R := US.row) "Call" "Put"
                  (stable_sort type_strike_leb typed) eq_refl)
        as (l1 & l2 & Happ & H1 & H2 & Hs1 & Hs2).
      + apply stable_sort_sorted;
          [apply type_strike_leb_total | apply type_strike_leb_trans].
      + eapply Forall_impl; [|exact Htagged]. intros r (_ & _ & Hty). exact Hty.
      + exists l1, l2. repeat split; assumption. }
  destruct raws as [|r0 raws'] eqn:Hr.
  - intros Heq. inversion Heq; subst df. apply (Hframe []); reflexivity.
  - destruct (mapM US.to_row (r0 :: raws')) as [typed|e] eqn:Hm; simpl;
      [|discriminate].
    intros Heq. apply (Hframe typed); [reflexivity|].
    destruct typed as [|t0 typed]; [apply mapM_length in Hm; discriminate|].
    simpl in Heq. inversion Heq. reflexivity.
Qed.

(** ** Fetchers *)

(** X6.  [fetch_nifty_options] asks the scraper once and never raises: it
    returns the scraper's payload as it is, a false one included, and [None]
    when the scraper fails; it prints that it starts, then that it succeeded
    or the error. *)
Theorem fetch_nifty_options_spec (E : Env) (s : state E) :
  let reply := scrapper E "NIFTY" (world s) in
  let out := fetch_nifty_options s in
  world (snd out) = snd reply /\
  requests (trace (snd out)) = requests (trace s) ++ [Scraped "NIFTY"] /\
  match fst reply with
  | Reply data =>
      fst out = Ok data /\
      trace (snd out)
      = trace s ++ [Printed "Fetching NIFTY options data..."; Scraped "NIFTY";
                    Printed "NIFTY data fetched successfully!"]
  | Failure msg =>
      fst out = Ok VNone /\
      trace (snd out)
      = trace s ++ [Printed "Fetching NIFTY options data..."; Scraped "NIFTY";
                    Printed ("Error fetching NIFTY data: " ++ msg)]
  end.
Proof.
  cbv zeta.
  unfold fetch_nifty_options, try_except, M_bind, request, print, emit, M_ret.
  cbn [world trace].
  destruct (scrapper E "NIFTY" (world s)) as [[data|msg] w1];
    cbn [fst snd world trace]; unfold requests;
    rewrite <- !app_assoc, !filter_app; simpl; repeat split; reflexivity.
Qed.

(** X7.  Nothing is claimed of [get_stock_info] on an answer that is a
    table; on any other answer it never raises.  When
    the service fails it returns [None] and prints one line with the message
    of the failure; when it answers with something that is no dictionary it
    returns [None] and prints one line, the prefix of the handler followed
    by the message of the error.  When the service answers with a
    dictionary it prints nothing and returns a dictionary of exactly six
    keys, in which a key missing from the answer is replaced by its default:
    the symbol for the name, zero for the price and the market
    capitalisation, Unknown for the sector and the industry. *)
Theorem get_stock_info_spec (E : Env)
    (ticker_info : string -> World E -> response value * World E)
    (symbol : string) (s : state E) :
  let reply := ticker_info symbol (world s) in
  let out := get_stock_info ticker_info symbol s in
  world (snd out) = snd reply /\
  match fst reply with
  | Reply (VDict info) =>
      fst out
      = Ok (VDict [("symbol", VStr symbol);
                   ("name", info_or info "longName" (VStr symbol));
                   ("current_price", info_or info "currentPrice" zero);
                   ("market_cap", info_or info "marketCap" zero);
                   ("sector", info_or info "sector" (VStr "Unknown"));
                   ("industry", info_or info "industry" (VStr "Unknown"))]) /\
      trace (snd out) = trace s
  | Reply (VFrame _) => True
  | Reply _ =>
      fst out = Ok VNone /\
      exists message : string,
        trace (snd out)
        = trace s ++ [Printed ("Error getting info for " ++ symbol
                               ++ ": " ++ message)]
  | Failure msg =>
      fst out = Ok VNone /\
      trace (snd out)
      = trace s ++ [Printed ("Error getting info for " ++ symbol ++ ": " ++ msg)]
  end.
Proof.
  cbv zeta.
  unfold get_stock_info, try_except, M_bind, perform, print, emit, M_ret, lift.
  destruct (ticker_info symbol (world s)) as [[info|msg] w1];
    cbn [fst snd world trace].
  - destruct info; cbn; repeat split; try reflexivity;
      exists (str_exn AttributeError); reflexivity.
  - repeat split; reflexivity.
Qed.

(** ** The filters of the index table *)

Lemma filter_filter {A : Type} (p q : A -> bool) (l : list A) :
  filter q (filter p l) = filter (fun a => p a && q a) l.
Proof.
  induction l as [|a l IH]; simpl; [reflexivity|].
  destruct (p a); simpl; [destruct (q a)|]; rewrite IH; reflexivity.
Qed.

Lemma filter_length_le {A : Type} (p : A -> bool) (l : list A) :
  (List.length (filter p l) <= List.length l)%nat.
Proof.
  induction l as [|a l IH]; simpl; [lia|]. destruct (p a); simpl; lia.
Qed.

(** X8.  On a table that is not empty the two filters of the index tab act
    as one pass that keeps, in their order, the rows of the chosen type (all
    rows for All) whose strike is a number between the bounds of the range,
    bounds included: no row is added or moved, the columns stay, a row with a
    null strike is never kept, and filtering the result again with the same
    choices changes nothing. *)
Theorem filter_frame_spec (option_type_filter : string) (strike_range : Z * Z)
    (df : DataFrame NIFTY.row) :
  empty df = false ->
  let shown := filter_frame option_type_filter strike_range df in
  rows shown = filter (kept option_type_filter strike_range) (rows df) /\
  columns shown = columns df /\
  (List.length (rows shown) <= List.length (rows df))%nat /\
  (forall r : NIFTY.row,
      In r (rows shown) ->
      In r (rows df) /\
      (option_type_filter = "All" \/ NIFTY.Type_ r = option_type_filter) /\
      exists q : Q,
        NIFTY.Strike r = Some q /\
        (inject_Z (fst strike_range) <= q)%Q /\
        (q <= inject_Z (snd strike_range))%Q) /\
  rows (filter_frame option_type_filter strike_range shown) = rows shown.
Proof.
  intros Hne shown.
  assert (Hgen : forall d : DataFrame NIFTY.row,
             empty d = false ->
             rows (filter_frame option_type_filter strike_range d)
             = filter (kept option_type_filter strike_range) (rows d)).
  { intros d Hd. unfold filter_frame, kept. rewrite Hd. cbn [negb].
    destruct (option_type_filter =? "All"); cbn [negb rows orb].
    - reflexivity.
    - apply filter_filter. }
  assert (Hrows : rows shown
                  = filter (kept option_type_filter strike_range) (rows df))
    by (apply Hgen, Hne).
  assert (Hkept : forall r, kept option_type_filter strike_range r = true ->
            (option_type_filter = "All" \/ NIFTY.Type_ r = option_type_filter) /\
            exists q : Q,
              NIFTY.Strike r = Some q /\
              (inject_Z (fst strike_range) <= q)%Q /\
              (q <= inject_Z (snd strike_range))%Q).
  { intros r Hk. unfold kept, in_range in Hk.
    apply andb_true_iff in Hk. destruct Hk as [Hty Hrange]. split.
    - apply orb_true_iff in Hty.
      destruct Hty as [Hall|Hty]; [left | right]; apply String.eqb_eq; assumption.
    - destruct (NIFTY.Strike r) as [q|]; [|discriminate].
      apply andb_true_iff in Hrange. destruct Hrange as [Hlo Hhi].
      exists q. rewrite <- !Qle_bool_iff. auto. }
  split; [exact Hrows|]. split; [apply filter_frame_columns|].
  split; [rewrite Hrows; apply filter_length_le|]. split.
  - intros r Hin. rewrite Hrows in Hin. apply filter_In in Hin.
    destruct Hin as [Hin Hk]. split; [exact Hin | apply Hkept, Hk].
  - destruct (empty shown) eqn:Hshown.
    + assert (Hnil : rows shown = []).
      { unfold empty in Hshown.
        assert (Hc : columns shown = columns df) by apply filter_frame_columns.
        rewrite Hc in Hshown. unfold empty in Hne.
        destruct (columns df); [discriminate|].
        destruct (rows shown); [reflexivity | discriminate]. }
      unfold filter_frame. rewrite Hshown. cbn [negb].
      destruct (negb (option_type_filter =? "All")); cbn [rows];
        rewrite ?Hnil; reflexivity.
    + rewrite (Hgen shown Hshown), Hrows, filter_filter.
      apply filter_ext. intros r.
      destruct (kept option_type_filter strike_range r); reflexivity.
Qed.

(** ** Grouping, in general *)

Lemma Qsum_app (a b : list Q) : (Qsum (a ++ b) == Qsum a + Qsum b)%Q.
Proof.
  unfold Qsum. induction a as [|x a IH]; simpl; [ring|]. rewrite IH. ring.
Qed.

Lemma Qsum_perm (a b : list Q) : Permutation a b -> (Qsum a == Qsum b)%Q.
Proof.
  unfold Qsum.
  induction 1 as [| x l l' _ IH | x y l | l l' l'' _ IH1 _ IH2]; simpl.
  - reflexivity.
  - rewrite IH. reflexivity.
  - ring.
  - rewrite IH1. exact IH2.
Qed.

Section GroupSums.
Context {R K : Type} (keq kleb : K -> K -> bool).
Hypothesis keq_refl : forall k, keq k k = true.
Hypothesis keq_sym : forall a b, keq a b = keq b a.
Hypothesis keq_trans :
  forall a b c, keq a b = true -> keq b c = true -> keq a c = true.

Lemma keq_false_trans (a b c : K) :
  keq a b = true -> keq a c = false -> keq b c = false.
Proof.
  intros Hab Hac. destruct (keq b c) eqn:Hbc; [|reflexivity].
  rewrite (keq_trans a b c Hab Hbc) in Hac. discriminate.
Qed.

(** What adding a cell to a grouping of distinct keys does. *)
Lemma add_to_group_spec (k0 : K) (v0 : Q) (groups : list (K * Q)) :
  distinct_keys keq groups ->
  distinct_keys keq (add_to_group keq k0 v0 groups) /\
  (forall k v,
      In (k, v) (add_to_group keq k0 v0 groups) ->
      (keq k k0 = true /\
       ((exists v', In (k, v') groups /\ v = (v' + v0)%Q) \/
        (v = v0 /\ forall k' v', In (k', v') groups -> keq k' k0 = false))) \/
      (keq k k0 = false /\ In (k, v) groups)) /\
  (forall k v, In (k, v) groups ->
               exists v', In (k, v') (add_to_group keq k0 v0 groups)) /\
  (exists k v, In (k, v) (add_to_group keq k0 v0 groups) /\ keq k k0 = true).
Proof.
  unfold distinct_keys.
  induction groups as [|[k1 v1] groups IH]; intros Hd.
  - simpl. split; [repeat constructor|]. split; [|split].
    + intros k v [Heq|[]]. inversion Heq; subst. left.
      split; [apply keq_refl|]. right. split; [reflexivity|]. intros ? ? [].
    + intros ? ? [].
    + exists k0, v0. split; [left; reflexivity | apply keq_refl].
  - inversion Hd as [|? ? H1 Hd']; subst. cbn [add_to_group].
    destruct (keq k1 k0) eqn:H10.
    + split; [|split; [|split]].
      * constructor; [exact H1 | exact Hd'].
      * intros k v [Heq|Hin].
        -- inversion Heq; subst. left. split; [exact H10|]. left.
           exists v1. split; [left; reflexivity | reflexivity].
        -- right. split; [|right; exact Hin].
           rewrite Forall_forall in H1. specialize (H1 (k, v) Hin). simpl in H1.
           destruct (keq k k0) eqn:Hk; [|reflexivity].
           rewrite keq_sym in Hk.
           rewrite (keq_trans k1 k0 k H10 Hk) in H1. discriminate.
      * intros k v [Heq|Hin].
        -- inversion Heq; subst. eexists. left. reflexivity.
        -- exists v. right. exact Hin.
      * exists k1, (v1 + v0)%Q. split; [left; reflexivity | exact H10].
    + destruct (IH Hd') as (IHd & IHin & IHkeys & IHex).
      split; [|split; [|split]].
      * constructor; [|exact IHd].
        apply Forall_forall. intros [k v] Hin. simpl.
        destruct (IHin k v Hin) as [[Hk [(v' & Hin' & _)|[_ _]]]|[Hk Hin']].
        -- rewrite Forall_forall in H1. apply (H1 (k, v') Hin').
        -- destruct (keq k1 k) eqn:Hk1; [|reflexivity].
           rewrite (keq_trans k1 k k0 Hk1 Hk) in H10. discriminate.
        -- rewrite Forall_forall in H1. apply (H1 (k, v) Hin').
      * intros k v [Heq|Hin].
        -- inversion Heq; subst. right. split; [exact H10 | left; reflexivity].
        -- destruct (IHin k v Hin) as [[Hk [(v' & Hin' & Hv)|[Hv Hnone]]]|[Hk Hin']].
           ++ left. split; [exact Hk|]. left. exists v'. split; [right|]; assumption.
           ++ left. split; [exact Hk|]. right. split; [exact Hv|].
              intros k' v' [Heq|Hin']; [inversion Heq; subst; exact H10|].
              eapply Hnone; eassumption.
           ++ right. split; [exact Hk | right; exact Hin'].
      * intros k v [Heq|Hin].
        -- inversion Heq; subst. exists v. left. reflexivity.
        -- destruct (IHkeys k v Hin) as (v' & Hin'). exists v'. right. exact Hin'.
      * destruct IHex as (k & v & Hin & Hk). exists k, v.
        split; [right; exact Hin | exact Hk].
Qed.

Variables (key : R -> option K) (col : R -> cell).

Lemma group_sum_app (k : K) (rs1 rs2 : list R) :
  (group_sum keq key col k (rs1 ++ rs2)
   == group_sum keq key col k rs1 + group_sum keq key col k rs2)%Q.
Proof. unfold group_sum. rewrite filter_app, map_app. apply Qsum_app. Qed.

Lemma group_sum_keq (k k' : K) (rs : list R) :
  keq k k' = true ->
  group_sum keq key col k rs = group_sum keq key col k' rs.
Proof.
  intros Hk. unfold group_sum. f_equal. f_equal. apply filter_ext. intros r.
  destruct (key r) as [k1|]; [|reflexivity].
  destruct (keq k1 k) eqn:H1.
  - symmetry. apply (keq_trans k1 k k'); assumption.
  - symmetry. rewrite keq_sym. apply (keq_false_trans k k' k1 Hk).
    rewrite keq_sym. exact H1.
Qed.

(** A grouping built from no group: its keys are distinct, each group holds
    the sum of the cells of its key, and every row with a key has a group. *)
Lemma accumulate_spec (rs : list R) :
  let groups := fold_left (accumulate keq key col) rs [] in
  distinct_keys keq groups /\
  (forall k v, In (k, v) groups -> (v == group_sum keq key col k rs)%Q) /\
  (forall r k, In r rs -> key r = Some k ->
               exists k' v, In (k', v) groups /\ keq k' k = true).
Proof.
  cbv zeta. induction rs as [|r rs IH] using rev_ind.
  - simpl. split; [constructor|]. split; [intros ? ? []|intros ? ? []].
  - destruct IH as (Hd & Hsum & Hcover).
    rewrite fold_left_app. cbn [fold_left].
    destruct (key r) as [k0|] eqn:Hkey.
    + assert (Hacc : accumulate keq key col
                       (fold_left (accumulate keq key col) rs []) r
                     = add_to_group keq k0 (cell_value (col r))
                         (fold_left (accumulate keq key col) rs []))
        by (unfold accumulate at 1; rewrite Hkey; reflexivity).
      rewrite Hacc.
      destruct (add_to_group_spec k0 (cell_value (col r)) _ Hd)
        as (Hd' & Hin' & Hkeys' & Hex').
      split; [exact Hd'|]. split.
      * intros k v Hin. rewrite group_sum_app.
        assert (Hlast : forall b : bool,
                   keq k0 k = b ->
                   (group_sum keq key col k [r]
                    == if b then cell_value (col r) else 0)%Q).
        { intros b Hb. unfold group_sum. cbn [filter]. rewrite Hkey, Hb.
          destruct b; unfold Qsum; simpl; ring. }
        destruct (Hin' k v Hin) as [[Hk [(v' & Hold & ->)|[-> Hnone]]]|[Hk Hold]].
        -- rewrite (Hlast true) by (rewrite keq_sym; exact Hk).
           rewrite (Hsum k v' Hold). reflexivity.
        -- rewrite (Hlast true) by (rewrite keq_sym; exact Hk).
           assert (Hzero : filter (fun r0 => match key r0 with
                                             | Some k' => keq k' k
                                             | None => false
                                             end) rs = []).
           { assert (Hall : forall r0, In r0 rs ->
                       match key r0 with
                       | Some k' => keq k' k
                       | None => false
                       end = false).
             { intros r0 Hr0. destruct (key r0) as [k1|] eqn:Hk1; [|reflexivity].
               destruct (Hcover r0 k1 Hr0 Hk1) as (k2 & v2 & Hin2 & Hk2).
               specialize (Hnone k2 v2 Hin2).
               destruct (keq k1 k) eqn:H1k; [|reflexivity].
               rewrite (keq_trans k2 k1 k0 Hk2 (keq_trans k1 k k0 H1k Hk)) in Hnone.
               discriminate. }
             clear -Hall. induction rs as [|r0 rs IHrs]; [reflexivity|].
             cbn [filter]. rewrite (Hall r0) by (left; reflexivity).
             apply IHrs. intros x Hx. apply Hall. right. exact Hx. }
           unfold group_sum at 1. rewrite Hzero. unfold Qsum. simpl. ring.
        -- rewrite (Hlast false) by (rewrite keq_sym; exact Hk).
           rewrite (Hsum k v Hold). ring.
      * intros r0 k Hr0 Hk. apply in_app_or in Hr0. destruct Hr0 as [Hr0|[<-|[]]].
        -- destruct (Hcover r0 k Hr0 Hk) as (k' & v & Hin & Hkk).
           destruct (Hkeys' k' v Hin) as (v' & Hin2). exists k', v'. auto.
        -- rewrite Hkey in Hk. inversion Hk; subst. exact Hex'.
    + assert (Hacc : accumulate keq key col
                       (fold_left (accumulate keq key col) rs []) r
                     = fold_left (accumulate keq key col) rs [])
        by (unfold accumulate at 1; rewrite Hkey; reflexivity).
      rewrite Hacc.
      split; [exact Hd|]. split.
      * intros k v Hin. rewrite group_sum_app, (Hsum k v Hin).
        assert (Hlast : (group_sum keq key col k [r] == 0)%Q).
        { unfold group_sum. cbn [filter]. rewrite Hkey. reflexivity. }
        rewrite Hlast. ring.
      * intros r0 k Hr0 Hk. apply in_app_or in Hr0. destruct Hr0 as [Hr0|[<-|[]]].
        -- apply (Hcover r0 k Hr0 Hk).
        -- rewrite Hkey in Hk. discriminate.
Qed.

Lemma add_to_group_total (k : K) (v : Q) (groups : list (K * Q)) :
  (Qsum (map snd (add_to_group keq k v groups)) == Qsum (map snd groups) + v)%Q.
Proof.
  unfold Qsum. induction groups as [|[k1 v1] groups IH]; simpl; [ring|].
  destruct (keq k1 k); simpl; [ring|]. rewrite IH. ring.
Qed.

(** Grouping loses nothing: the sums of the groups add up to the sum over
    the rows that have a key. *)
Lemma accumulate_total (rs : list R) (groups : list (K * Q)) :
  (Qsum (map snd (fold_left (accumulate keq key col) rs groups))
   == Qsum (map snd groups)
      + Qsum (map (fun r => cell_value (col r))
                  (filter (fun r => match key r with
                                    | Some _ => true
                                    | None => false
                                    end) rs)))%Q.
Proof.
  revert groups. induction rs as [|r rs IH]; intros groups.
  - unfold Qsum. simpl. ring.
  - cbn [fold_left filter]. rewrite IH. unfold accumulate.
    destruct (key r) as [k|].
    + rewrite add_to_group_total. unfold Qsum. simpl. ring.
    + reflexivity.
Qed.

End GroupSums.

(** ** The top strikes by volume *)

Lemma StronglySorted_app_inv {A : Type} (P : A -> A -> Prop) (l1 l2 : list A) :
  StronglySorted P (l1 ++ l2) ->
  StronglySorted P l1 /\ StronglySorted P l2 /\
  forall a b, In a l1 -> In b l2 -> P a b.
Proof.
  induction l1 as [|x l1 IH]; simpl; intros Hs.
  - split; [constructor|]. split; [exact Hs|]. intros ? ? [].
  - inversion Hs as [|? ? Hs' Hx]; subst.
    destruct (IH Hs') as (H1 & H2 & Hcross).
    rewrite Forall_forall in Hx.
    split; [|split; [exact H2|]].
    + constructor; [exact H1|]. apply Forall_forall. intros y Hy.
      apply Hx, in_or_app. left. exact Hy.
    + intros a b [<-|Ha] Hb.
      * apply Hx, in_or_app. right. exact Hb.
      * apply Hcross; assumption.
Qed.

Lemma FOP_app_inv {A : Type} (P : A -> A -> Prop) (l1 l2 : list A) :
  ForallOrdPairs P (l1 ++ l2) -> ForallOrdPairs P l1.
Proof.
  induction l1 as [|x l1 IH]; simpl; intros Hf; [constructor|].
  inversion Hf as [|? ? Hx Hf']; subst. constructor; [|apply IH, Hf'].
  rewrite Forall_forall in *. intros y Hy. apply Hx, in_or_app. left. exact Hy.
Qed.

Lemma distinct_keys_perm {K : Type} (keq : K -> K -> bool)
    (g g' : list (K * Q)) :
  (forall a b, keq a b = keq b a) ->
  Permutation g g' -> distinct_keys keq g -> distinct_keys keq g'.
Proof.
  intros Hsym Hperm. unfold distinct_keys. apply FOP_perm; [|exact Hperm].
  intros a b Hab. rewrite Hsym. exact Hab.
Qed.

Lemma volume_leb_total (a b : Q * Q) :
  Qle_bool (snd b) (snd a) = true \/ Qle_bool (snd a) (snd b) = true.
Proof.
  destruct (Qlt_le_dec (snd a) (snd b)) as [Hlt|Hle].
  - right. apply Qle_bool_iff, Qlt_le_weak, Hlt.
  - left. apply Qle_bool_iff, Hle.
Qed.

Lemma volume_leb_trans (a b c : Q * Q) :
  Qle_bool (snd b) (snd a) = true -> Qle_bool (snd c) (snd b) = true ->
  Qle_bool (snd c) (snd a) = true.
Proof. rewrite !Qle_bool_iff. intros H1 H2. eapply Qle_trans; eassumption. Qed.

Lemma numbers_nil (cs : list cell) :
  Forall (fun c => c = None) cs <-> numbers cs = [].
Proof.
  induction cs as [|[q|] cs IH]; simpl.
  - split; [reflexivity | constructor].
  - split; [|discriminate]. intros Hall. inversion Hall. discriminate.
  - rewrite <- IH. split.
    + intros Hall. inversion Hall; assumption.
    + intros Hall. constructor; [reflexivity | exact Hall].
Qed.

Section TopStrikes.
Context {R : Type} `{OptionRow R}.

Let groups (rs : list R) : list (Q * Q) :=
  fold_left (accumulate Qeq_bool row_strike row_volume) rs [].

Let ranked (rs : list R) : list (Q * Q) :=
  stable_sort (fun a b => Qle_bool (snd b) (snd a)) (volume_by_strike rs).

Lemma ranked_in (rs : list R) (g : Q * Q) : In g (ranked rs) <-> In g (groups rs).
Proof.
  unfold ranked, volume_by_strike, groupby_sum.
  rewrite !stable_sort_in. reflexivity.
Qed.

Lemma ranked_split (rs : list R) :
  ranked rs = top_strikes rs ++ skipn 20 (ranked rs).
Proof. symmetry. apply firstn_skipn. Qed.

Lemma groups_spec (rs : list R) :
  distinct_keys Qeq_bool (groups rs) /\
  (forall k v, In (k, v) (groups rs) -> (v == strike_volume k rs)%Q) /\
  (forall r k, In r rs -> row_strike r = Some k ->
               exists k' v, In (k', v) (groups rs) /\ Qeq_bool k' k = true).
Proof.
  apply (accumulate_spec Qeq_bool Qeq_bool_refl Qeq_bool_comm Qeq_bool_trans).
Qed.

Lemma ranked_distinct (rs : list R) : distinct_keys Qeq_bool (ranked rs).
Proof.
  unfold ranked, volume_by_strike, groupby_sum.
  eapply distinct_keys_perm;
    [exact Qeq_bool_comm | apply Permutation_sym, stable_sort_perm |].
  eapply distinct_keys_perm;
    [exact Qeq_bool_comm | apply Permutation_sym, stable_sort_perm |].
  apply groups_spec.
Qed.

Lemma ranked_sorted (rs : list R) :
  StronglySorted (fun a b => Qle_bool (snd b) (snd a) = true) (ranked rs).
Proof.
  apply stable_sort_sorted; [apply volume_leb_total | apply volume_leb_trans].
Qed.

(** What the selection holds, on a numeric volume column. *)
Lemma top_strikes_selection (rs : list R) :
  (forall k v : Q, In (k, v) (top_strikes rs) -> (v == strike_volume k rs)%Q) /\
  distinct_keys Qeq_bool (top_strikes rs) /\
  StronglySorted (fun a b => (snd b <= snd a)%Q) (top_strikes rs) /\
  (forall (r : R) (q : Q),
      In r rs -> row_strike r = Some q ->
      (exists k v : Q, In (k, v) (top_strikes rs) /\ (k == q)%Q) \/
      (List.length (top_strikes rs) = 20%nat /\
       forall k v : Q,
         In (k, v) (top_strikes rs) -> (strike_volume q rs <= v)%Q)).
Proof.
  pose proof (groups_spec rs) as (Hd & Hsum & Hcover).
  pose proof (ranked_split rs) as Hsplit.
  pose proof (ranked_sorted rs) as Hsorted.
  pose proof (ranked_distinct rs) as Hdistinct.
  rewrite Hsplit in Hsorted, Hdistinct.
  apply StronglySorted_app_inv in Hsorted.
  destruct Hsorted as (Htop & _ & Hcross).
  assert (Hin : forall g, In g (top_strikes rs) ->
            In g (fold_left (accumulate Qeq_bool row_strike row_volume) rs [])).
  { intros g Hg. apply (ranked_in rs). rewrite Hsplit.
    apply in_or_app. left. exact Hg. }
  split; [|split; [|split]].
  - intros k v Hkv. apply Hsum, Hin, Hkv.
  - eapply FOP_app_inv. exact Hdistinct.
  - clear -Htop. induction Htop as [|a l Hs IH Ha]; constructor; [exact IH|].
    rewrite Forall_forall in *. intros b Hb. apply Qle_bool_iff, Ha, Hb.
  - intros r q Hr Hq.
    destruct (Hcover r q Hr Hq) as (k' & v' & Hg & Hk).
    apply (ranked_in rs) in Hg. rewrite Hsplit in Hg.
    apply in_app_or in Hg. destruct Hg as [Hg|Hg].
    + left. exists k', v'. split; [exact Hg | apply Qeq_bool_iff, Hk].
    + right. split.
      * unfold top_strikes, nlargest. rewrite length_firstn.
        assert (Hlen : (20 < List.length
                               (stable_sort (fun a b => Qle_bool (snd b) (snd a))
                                  (groupby_sum Qeq_bool Qle_bool row_strike
                                     row_volume rs)))%nat).
        { destruct (Nat.lt_ge_cases 20
                      (List.length
                         (stable_sort (fun a b => Qle_bool (snd b) (snd a))
                            (groupby_sum Qeq_bool Qle_bool row_strike
                               row_volume rs)))) as [Hlt|Hge]; [exact Hlt|].
          rewrite skipn_all2 in Hg by exact Hge. contradiction. }
        lia.
      * intros k v Hkv. specialize (Hcross (k, v) (k', v') Hkv Hg).
        simpl in Hcross. apply Qle_bool_iff in Hcross.
        assert (Hv' : (v' == strike_volume q rs)%Q).
        { rewrite (Hsum k' v').
          - unfold strike_volume.
            rewrite (group_sum_keq Qeq_bool Qeq_bool_comm Qeq_bool_trans
                       row_strike row_volume k' q rs Hk). reflexivity.
          - apply (ranked_in rs). rewrite Hsplit. apply in_or_app. right.
            exact Hg. }
        rewrite <- Hv'. exact Hcross.
Qed.

(** X9.  On the volume column of a table the selection of the top strikes
    raises when the column holds no number, every volume being null; when
    it returns, the top strikes are the twenty greatest: each selected
    strike comes with the volume summed over the records at that strike, no
    strike is selected twice, the sums are in descending order, and a
    strike of the table that is not selected has a summed volume no greater
    than that of any selected strike, which happens only when twenty are
    selected. *)
Theorem top_strikes_are_the_largest (null_volume : exn) (rs : list R) :
  match top_strikes_df null_volume rs with
  | Ok selected =>
      has_number (map row_volume rs) = true /\
      (forall k v : Q, In (k, v) selected -> (v == strike_volume k rs)%Q) /\
      distinct_keys Qeq_bool selected /\
      StronglySorted (fun a b => (snd b <= snd a)%Q) selected /\
      (forall (r : R) (q : Q),
          In r rs -> row_strike r = Some q ->
          (exists k v : Q, In (k, v) selected /\ (k == q)%Q) \/
          (List.length selected = 20%nat /\
           forall k v : Q,
             In (k, v) selected -> (strike_volume q rs <= v)%Q))
  | Raise e =>
      (e = Unmodelled /\
       has_number (map row_strike rs) && exact_column (map row_strike rs)
       && exact_column (map row_volume rs) = false) \/
      (e = null_volume /\ Forall (fun r => row_volume r = None) rs)
  end.
Proof.
  unfold top_strikes_df.
  destruct (has_number (map row_strike rs) && exact_column (map row_strike rs)
            && exact_column (map row_volume rs)); cbn [negb];
    [|left; split; reflexivity].
  destruct (has_number (map row_volume rs)) eqn:Hvol; cbn [negb].
  - split; [reflexivity|]. apply top_strikes_selection.
  - right. split; [reflexivity|].
    apply Forall_map with (P := fun c : cell => c = None).
    apply numbers_nil. unfold has_number in Hvol.
    destruct (numbers (map row_volume rs)); [reflexivity | discriminate].
Qed.

End TopStrikes.

(** ** The figures *)

Section Figures.
Context {R : Type} `{OptionRow R}.

Lemma oi_by_type_total (rs : list R) :
  (Qsum (map snd (oi_by_type rs)) == total_open_interest rs)%Q.
Proof.
  unfold oi_by_type, groupby_sum.
  rewrite (Qsum_perm _ _ (Permutation_map snd (stable_sort_perm _ _))).
  rewrite accumulate_total.
  assert (Hall : filter (fun r : R => match Some (row_type r) with
                                      | Some _ => true
                                      | None => false
                                      end) rs = rs).
  { induction rs as [|r l IH]; simpl; [reflexivity|]. rewrite IH. reflexivity. }
  rewrite Hall. unfold total_open_interest, Qsum. simpl. ring.
Qed.

Lemma oi_by_type_NoDup (rs : list R) : NoDup (map fst (oi_by_type rs)).
Proof.
  unfold oi_by_type, groupby_sum.
  eapply Permutation_NoDup;
    [apply Permutation_map, Permutation_sym, stable_sort_perm|].
  apply accumulate_NoDup. constructor.
Qed.

(** What the summary of the open interest holds. *)
Lemma oi_summary_spec (rs : list R) :
  (Qsum (map snd (oi_by_type rs)) == total_open_interest rs)%Q /\
  NoDup (map fst (oi_by_type rs)) /\
  (forall (ty : string) (v : Q),
      In (ty, v) (oi_by_type rs) ->
      has_type ty rs = true /\ (v == type_sum ty rs)%Q).
Proof.
  pose proof (oi_by_type_total rs) as Htotal.
  pose proof (oi_by_type_NoDup rs) as Hnd.
  split; [exact Htotal|]. split; [exact Hnd|].
  intros ty v Hin.
  apply (lookup_In_NoDup ty v _ Hnd) in Hin.
  pose proof (lookup_oi_by_type ty rs) as Hl. rewrite Hin in Hl.
  destruct (has_type ty rs); simpl in Hl; [|contradiction].
  split; [reflexivity | exact Hl].
Qed.

Lemma negative_iff (q : Q) : negative q = true <-> (q < 0)%Q.
Proof.
  unfold negative. rewrite negb_true_iff. split.
  - intros Hle. apply Qnot_le_lt. intros Hq.
    apply Qle_bool_iff in Hq. congruence.
  - intros Hlt. destruct (Qle_bool 0 q) eqn:Hle; [|reflexivity].
    apply Qle_bool_iff in Hle. exfalso. eapply Qlt_not_le; eassumption.
Qed.

(** X10.  On an open-interest column of whole numbers within the exact
    range, the summary has one entry per type met in the table, each the
    open interest summed over the records of its type, the entries adding up
    to the open interest of the table.  The figure is the text that there is
    no data exactly when that total is not positive.  When it is positive
    the pie call raises a value error if some type has a negative sum;
    otherwise, the types being the two labels, the figure is the pie of the
    summary, no slice negative, green for the call label and red for the
    put label. *)
Theorem oi_plot_spec (call_label put_label : string) (rs : list R) :
  has_number (map row_open_interest rs)
  && exact_column (map row_open_interest rs) = true ->
  (Qsum (map snd (oi_by_type rs)) == total_open_interest rs)%Q /\
  NoDup (map fst (oi_by_type rs)) /\
  (forall (ty : string) (v : Q),
      In (ty, v) (oi_by_type rs) ->
      has_type ty rs = true /\ (v == type_sum ty rs)%Q) /\
  match oi_plot call_label put_label rs with
  | Ok (OIPie slices colors) =>
      slices = oi_by_type rs /\
      (0 < total_open_interest rs)%Q /\
      (forall (ty : string) (v : Q), In (ty, v) slices -> (0 <= v)%Q) /\
      labelled call_label put_label rs = true /\
      colors
      = map (fun slice =>
               if call_label =? fst slice then Some "g"
               else if put_label =? fst slice then Some "r"
               else None) slices
  | Ok (OIText msg) =>
      msg = "No Open Interest Data" /\ (total_open_interest rs <= 0)%Q
  | Raise e =>
      (0 < total_open_interest rs)%Q /\
      ((e = ValueError /\
        exists (ty : string) (v : Q),
          In (ty, v) (oi_by_type rs) /\ (v < 0)%Q) \/
       (e = Unmodelled /\
        labelled call_label put_label rs = false /\
        forall (ty : string) (v : Q),
          In (ty, v) (oi_by_type rs) -> (0 <= v)%Q))
  end.
Proof.
  intros Hguard.
  destruct (oi_summary_spec rs) as (Htotal & Hnd & Hslices).
  split; [exact Htotal|]. split; [exact Hnd|]. split; [exact Hslices|].
  unfold oi_plot. rewrite Hguard. cbn [negb].
  destruct (oi_by_type rs) as [|slice slices] eqn:Hs.
  - split; [reflexivity|]. rewrite <- Htotal. unfold Qsum. simpl.
    apply Qle_refl.
  - destruct (Qpositive (Qsum (map snd (slice :: slices)))) eqn:Hpos.
    + assert (Hpositive : (0 < total_open_interest rs)%Q).
      { rewrite <- Htotal. apply Qpositive_iff, Hpos. }
      destruct (existsb (fun s0 : string * Q => negative (snd s0))
                        (slice :: slices)) eqn:Hneg.
      * split; [exact Hpositive|]. left. split; [reflexivity|].
        apply existsb_exists in Hneg. destruct Hneg as ([ty v] & Hin & Hv).
        exists ty, v. split; [exact Hin | apply negative_iff, Hv].
      * assert (Hnn : forall (ty : string) (v : Q),
                   In (ty, v) (slice :: slices) -> (0 <= v)%Q).
        { intros ty v Hin. apply Qnot_lt_le. intros Hlt.
          apply negative_iff in Hlt.
          assert (Hex : existsb (fun s0 : string * Q => negative (snd s0))
                                (slice :: slices) = true).
          { apply existsb_exists. exists (ty, v). split; [exact Hin | exact Hlt]. }
          congruence. }
        destruct (labelled call_label put_label rs) eqn:Hlab; cbn [negb].
        -- split; [reflexivity|]. split; [exact Hpositive|].
           split; [exact Hnn|]. split; [reflexivity|].
           rewrite map_map. apply map_ext. intros [label v]. simpl.
           destruct (call_label =? label); [reflexivity|].
           destruct (put_label =? label); reflexivity.
        -- split; [exact Hpositive|]. right. split; [reflexivity|].
           split; [reflexivity | exact Hnn].
    + split; [reflexivity|]. rewrite <- Htotal.
      apply Qnot_lt_le. intros Hlt. apply Qpositive_iff in Hlt. congruence.
Qed.

Lemma unique_in (l : list Q) (q : Q) : In q (unique l) -> In q l.
Proof.
  revert q. induction l as [|x l IH]; simpl; intros q; [auto|].
  intros [<-|Hin]; [left; reflexivity|].
  apply filter_In in Hin. right. apply IH, Hin.
Qed.

Lemma unique_covers (l : list Q) (q : Q) :
  In q l -> exists q', In q' (unique l) /\ Qeq_bool q' q = true.
Proof.
  induction l as [|x l IH]; simpl; [contradiction|].
  intros [<-|Hin].
  - exists x. split; [left; reflexivity | apply Qeq_bool_refl].
  - destruct (IH Hin) as (q' & Hq' & Heq).
    destruct (Qeq_bool x q') eqn:Hx.
    + exists x. split; [left; reflexivity|].
      eapply Qeq_bool_trans; eassumption.
    + exists q'. split; [|exact Heq]. right.
      apply filter_In. split; [exact Hq'|]. rewrite Hx. reflexivity.
Qed.

Lemma unique_distinct (l : list Q) :
  ForallOrdPairs (fun a b => Qeq_bool a b = false) (unique l).
Proof.
  induction l as [|x l IH]; simpl; [constructor|]. constructor.
  - apply Forall_forall. intros y Hy. apply filter_In in Hy.
    apply negb_true_iff, Hy.
  - clear -IH. induction IH as [|a u Ha _ IHu]; simpl; [constructor|].
    destruct (negb (Qeq_bool x a)); [|exact IHu].
    constructor; [|exact IHu].
    rewrite Forall_forall in *. intros y Hy. apply filter_In in Hy.
    apply Ha, Hy.
Qed.

Lemma numbers_in (cs : list cell) (q : Q) : In q (numbers cs) <-> In (Some q) cs.
Proof.
  induction cs as [|[x|] cs IH]; simpl.
  - reflexivity.
  - rewrite IH. split; intros [Heq|Hin]; auto.
    + left. f_equal. exact Heq.
    + left. inversion Heq. reflexivity.
  - rewrite IH. split; [auto|]. intros [Heq|Hin]; [discriminate | exact Hin].
Qed.

(** The order of the bars: the strikes of the rows, each once, ascending. *)
Lemma strike_order_spec (rs : list R) :
  StronglySorted (fun a b => (a < b)%Q) (strike_order rs) /\
  (forall q, In q (strike_order rs) -> exists r, In r rs /\ row_strike r = Some q) /\
  (forall r q, In r rs -> row_strike r = Some q ->
               exists q', In q' (strike_order rs) /\ (q' == q)%Q).
Proof.
  unfold strike_order.
  set (u := unique (numbers (map row_strike rs))).
  assert (Hsorted : StronglySorted (fun a b => Qle_bool a b = true)
                                   (stable_sort Qle_bool u)).
  { apply stable_sort_sorted.
    - intros a b. destruct (Qlt_le_dec b a) as [Hlt|Hle].
      + right. apply Qle_bool_iff, Qlt_le_weak, Hlt.
      + left. apply Qle_bool_iff, Hle.
    - intros a b c. rewrite !Qle_bool_iff. apply Qle_trans. }
  assert (Hdistinct : ForallOrdPairs (fun a b => Qeq_bool a b = false)
                                     (stable_sort Qle_bool u)).
  { eapply FOP_perm; [| apply Permutation_sym, stable_sort_perm
                       | apply unique_distinct].
    intros a b Hab. rewrite Qeq_bool_comm. exact Hab. }
  split; [|split].
  - induction Hsorted as [|a l Hs IH Ha]; [constructor|].
    inversion Hdistinct as [|? ? Hda Hdl]; subst.
    constructor; [apply IH, Hdl|].
    rewrite Forall_forall in *. intros b Hb.
    specialize (Ha b Hb). specialize (Hda b Hb). apply Qle_bool_iff in Ha.
    apply Qle_lteq in Ha. destruct Ha as [Hlt|Heq]; [exact Hlt|].
    apply Qeq_bool_iff in Heq. congruence.
  - intros q Hq. apply stable_sort_in, unique_in, numbers_in in Hq.
    apply in_map_iff in Hq. destruct Hq as (r & Hr & Hin). exists r. auto.
  - intros r q Hr Hq.
    assert (Hin : In q (numbers (map row_strike rs))).
    { apply numbers_in. rewrite <- Hq. apply in_map, Hr. }
    destruct (unique_covers _ q Hin) as (q' & Hq' & Heq).
    exists q'. split; [apply stable_sort_in, Hq' | apply Qeq_bool_iff, Heq].
Qed.

(** The rows the volume figure draws, on a numeric volume column. *)
Lemma plot_rows_spec (rs : list R) :
  (forall r : R,
      In r (plot_rows rs) <->
      In r rs /\
      exists q k v : Q,
        row_strike r = Some q /\ In (k, v) (top_strikes rs) /\ (k == q)%Q) /\
  ((List.length (volume_by_strike rs) <= 20)%nat ->
   plot_rows rs = filter has_strike rs).
Proof.
  assert (Hisin : forall (keys : list Q) (c : cell),
             isin keys c = true <->
             exists q k, c = Some q /\ In k keys /\ (k == q)%Q).
  { intros keys c. unfold isin. destruct c as [q|].
    - rewrite existsb_exists. split.
      + intros (k & Hk & Heq). exists q, k. split; [reflexivity|].
        split; [exact Hk|]. apply Qeq_bool_iff in Heq. symmetry. exact Heq.
      + intros (q' & k & Hc & Hk & Heq). inversion Hc; subst q'.
        exists k. split; [exact Hk|]. apply Qeq_bool_iff. symmetry. exact Heq.
    - split; [discriminate|]. intros (q & k & Hc & _). discriminate. }
  split.
  - intros r. unfold plot_rows. rewrite filter_In, Hisin. split.
    + intros (Hr & q & k & Hq & Hk & Heq). split; [exact Hr|].
      apply in_map_iff in Hk. destruct Hk as ((k0 & v) & Hfst & Hk).
      simpl in Hfst. subst k0. exists q, k, v. auto.
    + intros (Hr & q & k & v & Hq & Hk & Heq). split; [exact Hr|].
      exists q, k. split; [exact Hq|]. split; [|exact Heq].
      apply in_map_iff. exists (k, v). auto.
  - intros Hlen. unfold plot_rows. apply filter_ext_in. intros r Hr.
    unfold has_strike. destruct (row_strike r) as [q|] eqn:Hq; [|reflexivity].
    apply Hisin.
    destruct (groups_spec rs) as (_ & _ & Hcover).
    destruct (Hcover r q Hr Hq) as (k & v & Hin & Heq).
    exists q, k. split; [reflexivity|]. split; [|apply Qeq_bool_iff, Heq].
    apply in_map_iff. exists (k, v). split; [reflexivity|].
    unfold top_strikes, nlargest. rewrite firstn_all2.
    + apply stable_sort_in. unfold groupby_sum. apply stable_sort_in. exact Hin.
    + rewrite stable_sort_length. exact Hlen.
Qed.

(** X11.  On strike and volume columns of whole numbers within the exact
    range, the volume figure cannot be built when every volume is null:
    the selection of the top strikes raises.  Otherwise the figure is made
    from the rows whose strike is among the top strikes, in their order in
    the table, which are all the rows that have a strike when the table has
    at most twenty distinct strikes.  It is the text that there is no data
    exactly when the volume summed over those rows is not positive; when it
    is positive and the types of those rows are the two labels, it is a bar
    chart of those rows, its bars ordered by strike, ascending, each strike
    of the drawn rows once. *)
Theorem volume_plot_spec (null_volume : exn) (call_label put_label : string)
    (rs : list R) :
  has_number (map row_strike rs) && exact_column (map row_strike rs)
  && exact_column (map row_volume rs) = true ->
  match volume_plot null_volume call_label put_label rs with
  | Ok figure =>
      has_number (map row_volume rs) = true /\
      (forall r : R,
          In r (plot_rows rs) <->
          In r rs /\
          exists q k v : Q,
            row_strike r = Some q /\ In (k, v) (top_strikes rs) /\
            (k == q)%Q) /\
      ((List.length (volume_by_strike rs) <= 20)%nat ->
       plot_rows rs = filter has_strike rs) /\
      match figure with
      | VolumeBars data order =>
          data = plot_rows rs /\
          (0 < Qsum (map (fun r => cell_value (row_volume r)) (plot_rows rs)))%Q /\
          labelled call_label put_label (plot_rows rs) = true /\
          StronglySorted (fun a b => (a < b)%Q) order /\
          (forall q, In q order ->
                     exists r, In r (plot_rows rs) /\ row_strike r = Some q) /\
          (forall r q, In r (plot_rows rs) -> row_strike r = Some q ->
                       exists q', In q' order /\ (q' == q)%Q)
      | VolumeText msg =>
          msg = "No Volume Data" /\
          (Qsum (map (fun r => cell_value (row_volume r)) (plot_rows rs)) <= 0)%Q
      end
  | Raise e =>
      (e = null_volume /\ Forall (fun r => row_volume r = None) rs) \/
      (e = Unmodelled /\
       has_number (map row_volume rs) = true /\
       (0 < Qsum (map (fun r => cell_value (row_volume r)) (plot_rows rs)))%Q /\
       labelled call_label put_label (plot_rows rs) = false)
  end.
Proof.
  intros Hguard. unfold volume_plot, top_strikes_df. rewrite Hguard.
  cbn [negb].
  destruct (has_number (map row_volume rs)) eqn:Hvol; cbn [negb res_bind].
  - fold (plot_rows rs).
    destruct (plot_rows_spec rs) as [Hrows Hall].
    destruct (plot_rows rs) as [|r0 plot_df] eqn:Hplot.
    + split; [reflexivity|]. split; [exact Hrows|]. split; [exact Hall|].
      split; [reflexivity|]. unfold Qsum. simpl. apply Qle_refl.
    + destruct (Qpositive
                  (Qsum (map (fun r => cell_value (row_volume r)) (r0 :: plot_df))))
        eqn:Hpos.
      * destruct (labelled call_label put_label (r0 :: plot_df)) eqn:Hlab.
        -- split; [reflexivity|]. split; [exact Hrows|]. split; [exact Hall|].
           split; [reflexivity|]. split; [apply Qpositive_iff, Hpos|].
           split; [reflexivity|]. apply strike_order_spec.
        -- right. split; [reflexivity|]. split; [reflexivity|].
           split; [apply Qpositive_iff, Hpos | reflexivity].
      * split; [reflexivity|]. split; [exact Hrows|]. split; [exact Hall|].
        split; [reflexivity|].
        apply Qnot_lt_le. intros Hlt. apply Qpositive_iff in Hlt. congruence.
  - left. split; [reflexivity|].
    apply Forall_map with (P := fun c : cell => c = None).
    apply numbers_nil. unfold has_number in Hvol.
    destruct (numbers (map row_volume rs)); [reflexivity | discriminate].
Qed.

End Figures.

(** ** The tabs *)

Section FigureErrors.
Context {R : Type} `{OptionRow R}.

Lemma oi_plot_raises (call_label put_label : string) (rs : list R) (e : exn) :
  oi_plot call_label put_label rs = Raise e -> e = ValueError \/ e = Unmodelled.
Proof.
  unfold oi_plot.
  destruct (negb _); [intros Heq; inversion Heq; auto|].
  destruct (oi_by_type rs) as [|slice slices]; [discriminate|].
  destruct (Qpositive _); [|discriminate].
  destruct (existsb _ _); [intros Heq; inversion Heq; auto|].
  destruct (negb _); [intros Heq; inversion Heq; auto | discriminate].
Qed.

Lemma volume_plot_raises (null_volume : exn) (call_label put_label : string)
    (rs : list R) (e : exn) :
  volume_plot null_volume call_label put_label rs = Raise e ->
  e = null_volume \/ e = Unmodelled.
Proof.
  unfold volume_plot, top_strikes_df.
  destruct (negb _); [intros Heq; inversion Heq; auto|].
  destruct (negb _); [intros Heq; inversion Heq; auto|].
  cbn [res_bind].
  destruct (filter _ rs) as [|r plot_df]; [discriminate|].
  destruct (Qpositive _); [|discriminate].
  destruct (labelled _ _ _); [discriminate|].
  intros Heq; inversion Heq; auto.
Qed.

Lemma generate_us_plots_raises (df : option (DataFrame R)) (e : exn) :
  generate_us_plots df = Raise e -> e = ValueError \/ e = Unmodelled.
Proof.
  unfold generate_us_plots. destruct df as [df|]; [|discriminate].
  destruct (empty df); [discriminate|].
  destruct (oi_plot "Call" "Put" (rows df)) as [fig1|e1] eqn:Hoi;
    cbn [res_bind].
  - destruct (volume_plot Unmodelled "Call" "Put" (rows df)) as [fig2|e2]
      eqn:Hvol; cbn [res_bind]; [discriminate|].
    intros Heq. inversion Heq; subst e2.
    apply volume_plot_raises in Hvol. destruct Hvol; auto.
  - intros Heq. inversion Heq; subst e1. eapply oi_plot_raises, Hoi.
Qed.

Lemma generate_nifty_plots_raises (df : option (DataFrame R)) (e : exn) :
  generate_nifty_plots df = Raise e ->
  e = ValueError \/ e = TypeError \/ e = Unmodelled.
Proof.
  unfold generate_nifty_plots. destruct df as [df|]; [|discriminate].
  destruct (empty df); [discriminate|].
  destruct (oi_plot "CE" "PE" (rows df)) as [fig1|e1] eqn:Hoi;
    cbn [res_bind].
  - destruct (volume_plot TypeError "CE" "PE" (rows df)) as [fig2|e2]
      eqn:Hvol; cbn [res_bind]; [discriminate|].
    intros Heq. inversion Heq; subst e2.
    apply volume_plot_raises in Hvol. destruct Hvol; auto.
  - intros Heq. inversion Heq; subst e1.
    apply oi_plot_raises in Hoi. destruct Hoi; auto.
Qed.

Lemma generate_us_plots_plottable (df : DataFrame R) :
  empty df = false -> plottable "Call" "Put" (rows df) = true ->
  exists (fig1 : oi_figure) (fig2 : volume_figure R),
    generate_us_plots (Some df) = Ok (Some (fig1, fig2)).
Proof.
  intros Hne Hp. unfold generate_us_plots. rewrite Hne.
  destruct (oi_plot_plottable "Call" "Put" (rows df) Hp) as (fig1 & ->).
  destruct (volume_plot_plottable Unmodelled "Call" "Put" (rows df) Hp)
    as (fig2 & ->).
  exists fig1, fig2. reflexivity.
Qed.

(** The figures of a frame that is not empty are there when they are
    built. *)
Lemma generate_us_plots_some (df : DataFrame R)
    (figures : option (oi_figure * volume_figure R)) :
  empty df = false -> generate_us_plots (Some df) = Ok figures ->
  figures <> None.
Proof.
  intros Hne. unfold generate_us_plots. rewrite Hne.
  destruct (oi_plot _ _ _); cbn [res_bind]; [|discriminate].
  destruct (volume_plot _ _ _ _); cbn [res_bind]; [|discriminate].
  intros Heq. inversion Heq. discriminate.
Qed.

Lemma generate_nifty_plots_some (df : DataFrame R)
    (figures : option (oi_figure * volume_figure R * ratio_figure)) :
  empty df = false -> generate_nifty_plots (Some df) = Ok figures ->
  figures <> None.
Proof.
  intros Hne. unfold generate_nifty_plots. rewrite Hne.
  destruct (oi_plot _ _ _); cbn [res_bind]; [|discriminate].
  destruct (volume_plot _ _ _ _); cbn [res_bind]; [|discriminate].
  intros Heq. inversion Heq. discriminate.
Qed.

End FigureErrors.

(** X12.  In the equity tab a fetched chain is always shaped without a key
    error.  When the listing or the chain request fails, or no expiration is
    listed, the options area stays blank: no warning is shown.  When the
    client answers with two tables of numeric cells, the tab warns that the
    data could not be processed if both are empty.  Otherwise the frame is
    that of the shaped calls, sorted, followed by the shaped puts, sorted,
    with the symbol asked for and the first listed expiration, and the
    figures are built from it outside any handler: the tab shows them with
    the frame when they are built, which they are on a plottable frame, and
    the run ends with their exception, a value error of the pie for one,
    when they are not. *)
Theorem us_options_view_spec (E : Env) (selected_symbol : string) (s : state E) :
  let listing := ticker_options E selected_symbol (world s) in
  let out := us_options_view selected_symbol s in
  match fst listing with
  | Failure _ | Reply [] => fst out = Ok USBlank
  | Reply (date :: _) =>
      let chain := ticker_option_chain E selected_symbol date (snd listing) in
      match fst chain with
      | Failure _ => fst out = Ok USBlank
      | Reply (calls_table, puts_table) =>
          forall calls puts : list series,
            table_of (Some calls_table) = Some calls ->
            table_of (Some puts_table) = Some puts ->
            forallb numeric_series (calls ++ puts) = true ->
            let df :=
              {| columns := US.column_names;
                 rows :=
                   stable_sort type_strike_leb
                     (map (us_row (VStr selected_symbol) (VStr date) "calls")
                          calls) ++
                   stable_sort type_strike_leb
                     (map (us_row (VStr selected_symbol) (VStr date) "puts")
                          puts) |} in
            match calls ++ puts with
            | [] => fst out = Ok (USWarning "Could not process options data.")
            | _ :: _ =>
                match generate_us_plots (Some df) with
                | Ok figures =>
                    figures <> None /\ fst out = Ok (USDashboard figures df)
                | Raise e =>
                    e = Unmodelled \/
                    (e = ValueError /\ fst out = Raise ValueError)
                end /\
                (plottable "Call" "Put" (rows df) = true ->
                 exists figures : oi_figure * volume_figure US.row,
                   fst out = Ok (USDashboard (Some figures) df))
            end
      end
  end.
Proof.
  cbv zeta.
  unfold us_options_view, fetch_options_chain, try_except, M_bind, request,
    print, emit, now, M_ret, lift.
  destruct (ticker_options E selected_symbol (world s)) as [[dates|msg] w1];
    cbn [fst snd world trace].
  - destruct dates as [|date later]; cbn [fst snd world trace].
    + reflexivity.
    + destruct (ticker_option_chain E selected_symbol date w1)
        as [[[calls_table puts_table]|msg] w2]; cbn [fst snd world trace].
      * destruct (datetime_now E w2) as [t w3]. cbn [fst snd truthy].
        intros calls puts Hcalls Hputs Hnum.
        rewrite (process_options_data_ok
                   [("symbol", VStr selected_symbol);
                    ("expiration_date", VStr date);
                    ("calls", calls_table);
                    ("puts", puts_table);
                    ("timestamp", VTime t)]
                   (VStr selected_symbol) (VStr date)
                   calls puts eq_refl eq_refl Hcalls Hputs Hnum).
        cbn [rows columns fst].
        destruct (calls ++ puts) as [|row rest] eqn:Hrows.
        -- apply app_eq_nil in Hrows. destruct Hrows; subst. reflexivity.
        -- set (df := {| columns := US.column_names;
                         rows :=
                           stable_sort type_strike_leb
                             (map (us_row (VStr selected_symbol) (VStr date)
                                          "calls") calls) ++
                           stable_sort type_strike_leb
                             (map (us_row (VStr selected_symbol) (VStr date)
                                          "puts") puts) |}).
           assert (Hne : empty df = false).
           { unfold empty, df. cbn [columns rows US.column_names].
             destruct (stable_sort type_strike_leb
                         (map (us_row (VStr selected_symbol) (VStr date) "calls")
                              calls) ++
                       stable_sort type_strike_leb
                         (map (us_row (VStr selected_symbol) (VStr date) "puts")
                              puts)) eqn:Hsorted; [|reflexivity].
             apply (f_equal (@List.length _)) in Hsorted.
             rewrite length_app, !stable_sort_length, !length_map,
               <- length_app, Hrows in Hsorted. discriminate. }
           rewrite Hne. cbn [negb].
           pose proof (generate_us_plots_raises (Some df)) as Hraises.
           pose proof (generate_us_plots_some df) as Hsome.
           pose proof (generate_us_plots_plottable df Hne) as Hbuilt.
           destruct (generate_us_plots (Some df)) as [figures|e]; cbn [fst].
           ++ split; [split; [apply (Hsome figures Hne eq_refl) | reflexivity]|].
              intros Hp. destruct (Hbuilt Hp) as (fig1 & fig2 & Heq).
              inversion Heq. exists (fig1, fig2). reflexivity.
           ++ split.
              ** destruct (Hraises e eq_refl) as [->| ->];
                   [right; split; reflexivity | left; reflexivity].
              ** intros Hp. destruct (Hbuilt Hp) as (fig1 & fig2 & Heq).
                 discriminate.
      * reflexivity.
  - reflexivity.
Qed.

Lemma process_nifty_tagged {E : Env} (data : value) (s s' : state E)
    (df : DataFrame NIFTY.row) :
  process_nifty_options_data data s = (Ok (Some df), s') ->
  Forall nifty_tagged (rows df).
Proof.
  intros Hrun.
  destruct (process_nifty_frame data s s' df Hrun)
    as (raws & typed & s1 & Hcollect & Hm & Hrows & _).
  rewrite Hrows. apply stable_sort_Forall.
  eapply (mapM_Forall NIFTY.to_row nifty_tagged nifty_tagged);
    [| exact Hm | eapply collect_tagged; exact Hcollect].
  intros a b Hab [Hsym Hty]. apply nifty_to_row_tags in Hab.
  destruct Hab as (Hs & Ht & _). unfold nifty_tagged.
  rewrite Hs, Ht. auto.
Qed.

Lemma count_types (rs : list NIFTY.row) :
  Forall nifty_tagged rs ->
  List.length rs = (count_type "CE" rs + count_type "PE" rs)%nat.
Proof.
  unfold count_type. induction 1 as [|r rs [_ [Hce|Hpe]] _ IH]; simpl.
  - reflexivity.
  - rewrite Hce. simpl. lia.
  - rewrite Hpe. simpl. lia.
Qed.

Lemma M_bind_run {E : Env} {A B : Type} (m : M E A) (k : A -> M E B)
    (s : state E) :
  M_bind m k s
  = match m s with
    | (Ok a, s') => k a s'
    | (Raise e, s') => (Raise e, s')
    end.
Proof. reflexivity. Qed.

Lemma fetch_nifty_options_result (E : Env) (s : state E) :
  exists s1 : state E,
    fetch_nifty_options s
    = (Ok match fst (scrapper E "NIFTY" (world s)) with
          | Reply data => data
          | Failure _ => VNone
          end, s1).
Proof.
  unfold fetch_nifty_options, try_except, M_bind, request, print, emit, M_ret.
  cbn [world trace].
  destruct (scrapper E "NIFTY" (world s)) as [[data|msg] w1]; cbn [fst];
    eexists; reflexivity.
Qed.

Lemma process_nifty_raises (E : Env) (data : value) (s s' : state E) (e : exn) :
  truthy data = Ok true ->
  process_nifty_options_data data s = (Raise e, s') -> e = Unmodelled.
Proof.
  intros Htruth. unfold process_nifty_options_data, M_bind, lift.
  rewrite Htruth. cbn [negb]. cbv iota.
  unfold try_except, M_bind, lift, M_ret, print, emit.
  destruct (collect data s) as [[raws|e0] s3].
  - destruct (pd_DataFrame NIFTY.column_names NIFTY.to_row raws) as [d|e0];
      [discriminate|].
    destruct e0; intros Heq; inversion Heq; reflexivity.
  - destruct e0; intros Heq; inversion Heq; reflexivity.
Qed.

(** X13.  The index tab shows the error that the fetch failed both when the
    scraper fails and when it answers with a payload that is false, an empty
    dictionary for one.  For a payload that is true it warns that the data
    could not be processed when the shaper returns [None] or an empty frame.
    On a frame with records, all of them CE or PE records of NIFTY, the
    figures are built outside any handler: when they are built, which they
    are on a plottable frame, the tab shows them with the frame and its
    metrics, the total being the number of records, positive, and the sum
    of the count of CE records and the count of PE records; when they are
    not, the run ends with their exception, a type error on a volume column
    of nulls for one. *)
Theorem nifty_options_view_spec (E : Env) (s : state E) :
  let reply := scrapper E "NIFTY" (world s) in
  let out := nifty_options_view s in
  match fst reply with
  | Failure _ => fst out = Ok (NiftyError "Failed to fetch NIFTY options data.")
  | Reply data =>
      match truthy data with
      | Ok false =>
          fst out = Ok (NiftyError "Failed to fetch NIFTY options data.")
      | Ok true =>
          match fst (process_nifty_options_data data
                       (snd (fetch_nifty_options s))) with
          | Ok (Some df) =>
              if empty df
              then fst out
                   = Ok (NiftyWarning "Could not process NIFTY options data.")
              else
                Forall nifty_tagged (rows df) /\
                (0 < List.length (rows df))%nat /\
                List.length (rows df)
                = (count_type "CE" (rows df) + count_type "PE" (rows df))%nat /\
                match generate_nifty_plots (Some df) with
                | Ok figures =>
                    figures <> None /\
                    fst out
                    = Ok (NiftyDashboard
                            {| total_contracts := List.length (rows df);
                               call_options := count_type "CE" (rows df);
                               put_options := count_type "PE" (rows df);
                               nifty_value := underlying_metric (rows df) |}
                            figures df)
                | Raise e =>
                    e = Unmodelled \/
                    ((e = ValueError \/ e = TypeError) /\ fst out = Raise e)
                end /\
                (plottable "CE" "PE" (rows df) = true ->
                 exists (metrics : nifty_metrics)
                        (figures : oi_figure * volume_figure NIFTY.row
                                   * ratio_figure),
                   fst out = Ok (NiftyDashboard metrics (Some figures) df))
          | Ok None =>
              fst out = Ok (NiftyWarning "Could not process NIFTY options data.")
          | Raise e => e = Unmodelled
          end
      | Raise e => fst out = Raise e
      end
  end.
Proof.
  cbv zeta. destruct (fetch_nifty_options_result E s) as (s1 & Hfetch).
  unfold nifty_options_view, M_bind, lift, M_ret. rewrite Hfetch. cbn [snd].
  destruct (scrapper E "NIFTY" (world s)) as [[data|msg] w1]; cbn [fst];
    [|reflexivity].
  destruct (truthy data) as [[|]|e] eqn:Htruth; try reflexivity.
  pose proof (fun s' df => process_nifty_tagged data s1 s' df) as Htagged.
  pose proof (fun s' e => process_nifty_raises E data s1 s' e Htruth) as Hraise.
  destruct (process_nifty_options_data data s1) as [[[df|]|e] s2]; cbn [fst].
  - destruct (empty df) eqn:Hempty; cbn [negb fst]; [reflexivity|].
    specialize (Htagged s2 df eq_refl).
    split; [exact Htagged|]. split.
    { unfold empty in Hempty. destruct (columns df); [discriminate|].
      destruct (rows df); [discriminate | simpl; lia]. }
    split; [apply count_types, Htagged|].
    pose proof (generate_nifty_plots_raises (Some df)) as Hraises.
    pose proof (generate_nifty_plots_some df) as Hsome.
    pose proof (generate_nifty_plots_plottable df Hempty) as Hbuilt.
    destruct (generate_nifty_plots (Some df)) as [figures|e]; cbn [fst].
    + split; [split; [apply (Hsome figures Hempty eq_refl) | reflexivity]|].
      intros Hp. destruct (Hbuilt Hp) as (fig1 & fig2 & Heq).
      inversion Heq. eexists. exists (fig1, fig2, ratio_plot df). reflexivity.
    + split.
      * destruct (Hraises e eq_refl) as [->|[->| ->]];
          [right; split; [left|]; reflexivity
          |right; split; [right|]; reflexivity
          |left; reflexivity].
      * intros Hp. destruct (Hbuilt Hp) as (fig1 & fig2 & Heq). discriminate.
  - reflexivity.
  - apply (Hraise s2 e eq_refl).
Qed.

(** ** The default strike range *)

Lemma fold_Qmin_spec (l : list Q) (q : Q) :
  In (fold_left Qmin_bool l q) (q :: l) /\
  forall x, In x (q :: l) -> (fold_left Qmin_bool l q <= x)%Q.
Proof.
  revert q. induction l as [|y l IH]; intros q; simpl.
  - split; [left; reflexivity|]. intros x [<-|[]]. apply Qle_refl.
  - destruct (IH (Qmin_bool q y)) as [Hin Hle]. split.
    + destruct Hin as [Heq|Hin]; [|right; right; exact Hin].
      rewrite <- Heq. unfold Qmin_bool. destruct (Qle_bool q y); auto.
    + assert (Hq : (Qmin_bool q y <= q)%Q /\ (Qmin_bool q y <= y)%Q).
      { unfold Qmin_bool. destruct (Qle_bool q y) eqn:Hqy.
        - split; [apply Qle_refl | apply Qle_bool_iff, Hqy].
        - split; [|apply Qle_refl]. apply Qlt_le_weak, Qnot_le_lt.
          intros Hc. apply Qle_bool_iff in Hc. congruence. }
      intros x [<-|[<-|Hx]].
      * eapply Qle_trans; [apply Hle; left; reflexivity | apply Hq].
      * eapply Qle_trans; [apply Hle; left; reflexivity | apply Hq].
      * apply Hle. right. exact Hx.
Qed.

Lemma fold_Qmax_spec (l : list Q) (q : Q) :
  In (fold_left Qmax_bool l q) (q :: l) /\
  forall x, In x (q :: l) -> (x <= fold_left Qmax_bool l q)%Q.
Proof.
  revert q. induction l as [|y l IH]; intros q; simpl.
  - split; [left; reflexivity|]. intros x [<-|[]]. apply Qle_refl.
  - destruct (IH (Qmax_bool q y)) as [Hin Hle]. split.
    + destruct Hin as [Heq|Hin]; [|right; right; exact Hin].
      rewrite <- Heq. unfold Qmax_bool. destruct (Qle_bool q y); auto.
    + assert (Hq : (q <= Qmax_bool q y)%Q /\ (y <= Qmax_bool q y)%Q).
      { unfold Qmax_bool. destruct (Qle_bool q y) eqn:Hqy.
        - split; [apply Qle_bool_iff, Hqy | apply Qle_refl].
        - split; [apply Qle_refl|]. apply Qlt_le_weak, Qnot_le_lt.
          intros Hc. apply Qle_bool_iff in Hc. congruence. }
      intros x [<-|[<-|Hx]].
      * eapply Qle_trans; [apply Hq | apply Hle; left; reflexivity].
      * eapply Qle_trans; [apply Hq | apply Hle; left; reflexivity].
      * apply Hle. right. exact Hx.
Qed.

Lemma py_int_whole (q : Q) (z : Z) :
  (q == inject_Z z)%Q -> py_int (Some q) = Ok z.
Proof.
  unfold Qeq, inject_Z, py_int. simpl. intros Heq. f_equal.
  rewrite Z.mul_1_r in Heq. rewrite Heq. apply Z.quot_mul. discriminate.
Qed.

(** X14.  The range the strike slider starts with cannot be computed when
    every strike of the table is null: taking the integer of the null
    minimum raises a value error.  When it can be computed and every strike
    is null or a whole number, showing all types over that range keeps every
    row that has a strike, in order; only the rows with a null strike go. *)
Theorem default_strike_range_spec (df_nifty : DataFrame NIFTY.row) :
  (default_strike_range df_nifty = Raise ValueError <->
   Forall (fun r => NIFTY.Strike r = None) (rows df_nifty)) /\
  (forall strike_range : Z * Z,
      empty df_nifty = false ->
      default_strike_range df_nifty = Ok strike_range ->
      Forall (fun r => whole (NIFTY.Strike r)) (rows df_nifty) ->
      rows (filter_frame "All" strike_range df_nifty)
      = filter has_strike (rows df_nifty)).
Proof.
  set (cs := map NIFTY.Strike (rows df_nifty)).
  assert (Hnone : Forall (fun r => NIFTY.Strike r = None) (rows df_nifty)
                  <-> numbers cs = []).
  { rewrite <- numbers_nil. unfold cs. rewrite Forall_map. reflexivity. }
  split.
  - rewrite Hnone. unfold default_strike_range, column_min, column_max.
    fold cs. destruct (numbers cs) as [|q l]; simpl.
    + split; reflexivity.
    + split; discriminate.
  - intros [lo hi] Hne Hrange Hwhole.
    unfold default_strike_range, column_min, column_max in Hrange. fold cs in Hrange.
    destruct (numbers cs) as [|q0 l] eqn:Hnum; [discriminate|].
    destruct (fold_Qmin_spec l q0) as [Hmin_in Hmin].
    destruct (fold_Qmax_spec l q0) as [Hmax_in Hmax].
    rewrite <- Hnum in Hmin_in, Hmin, Hmax_in, Hmax.
    assert (Hint : forall q, In q (numbers cs) ->
               exists z, (q == inject_Z z)%Q).
    { intros q Hq. apply numbers_in in Hq. unfold cs in Hq.
      apply in_map_iff in Hq. destruct Hq as (r & Hr & Hin).
      rewrite Forall_forall in Hwhole. specialize (Hwhole r Hin).
      rewrite Hr in Hwhole. exact Hwhole. }
    destruct (Hint _ Hmin_in) as (zlo & Hzlo).
    destruct (Hint _ Hmax_in) as (zhi & Hzhi).
    rewrite (py_int_whole _ _ Hzlo), (py_int_whole _ _ Hzhi) in Hrange.
    cbn [res_bind] in Hrange. inversion Hrange; subst zlo zhi.
    unfold filter_frame. rewrite Hne. cbn [negb String.eqb rows].
    change ("All" =? "All") with true. cbn [negb rows].
    apply filter_ext_in. intros r Hr.
    unfold has_strike, in_range. cbn [row_strike NIFTY.option_row fst snd].
    destruct (NIFTY.Strike r) as [q|] eqn:Hq; [|reflexivity].
    assert (Hin : In q (numbers cs)).
    { apply numbers_in. unfold cs. rewrite <- Hq. apply in_map, Hr. }
    apply andb_true_iff. split; apply Qle_bool_iff.
    + rewrite <- Hzlo. apply Hmin, Hin.
    + rewrite <- Hzhi. apply Hmax, Hin.
Qed.

(** * The further properties on samples *)

(** X1 on the sample index payload. *)
Lemma process_nifty_frame_invariants_sample :
  exists (df : DataFrame NIFTY.row) (s' : state sample_env),
    process_nifty_options_data sample_index_payload (at_time 0)
    = (Ok (Some df), s') /\
    StronglySorted (fun a b => type_strike_leb a b = true) (rows df) /\
    Forall nifty_tagged (rows df) /\
    columns df = NIFTY.column_names.
Proof.
  eexists. eexists. split; [reflexivity|].
  destruct (process_nifty_frame_invariants (E := sample_env)
              sample_index_payload (at_time 0) _ _ eq_refl)
    as (Hsorted & Htagged & Hcolumns & _).
  repeat split; assumption.
Defined.

(** X2 on the sample index payload, and on a payload whose records are a
    number. *)
Lemma process_nifty_contains_errors_sample :
  trace (snd (process_nifty_options_data sample_index_payload (at_time 0))) = [] /\
  exists e : exn,
    trace (snd (process_nifty_options_data
                  (VDict [("records", VNum 1%Q)]) (at_time 0)))
    = [Printed ("Error processing NIFTY data: " ++ str_exn e)].
Proof.
  split.
  - exact (proj2 (process_nifty_contains_errors (E := sample_env)
                    sample_index_payload (at_time 0) true eq_refl)).
  - destruct (process_nifty_contains_errors (E := sample_env)
                (VDict [("records", VNum 1%Q)]) (at_time 0) true eq_refl)
      as [(Hfalse & _) | (_ & e & Htrace)]; [discriminate Hfalse|].
    exists e. exact Htrace.
Defined.

(** X3 on the sample entries with a number between them. *)
Lemma process_nifty_broken_entry_sample :
  fst (collect (E := sample_env)
         (VDict [("records",
                  VDict [("data", VList [VDict sample_entry_150; VNum 7%Q;
                                         VDict sample_entry_100])])])
         (at_time 0))
  = Raise AttributeError /\
  exists (s' : state sample_env) (message : string),
    process_nifty_options_data
      (VDict [("records",
               VDict [("data", VList [VDict sample_entry_150; VNum 7%Q;
                                      VDict sample_entry_100])])])
      (at_time 0)
    = (Ok None, s') /\
    trace s' = [Printed ("Error processing NIFTY data: " ++ message)].
Proof.
  exact (process_nifty_broken_entry (E := sample_env)
           [("records",
             VDict [("data", VList [VDict sample_entry_150; VNum 7%Q;
                                    VDict sample_entry_100])])]
           [("data", VList [VDict sample_entry_150; VNum 7%Q;
                            VDict sample_entry_100])]
           [VDict sample_entry_150] [VDict sample_entry_100] (VNum 7%Q)
           (at_time 0) eq_refl eq_refl eq_refl eq_refl).
Defined.

(** X4 on a string, on chains without their symbol or their date, and on a
    chain whose puts are a list. *)
Lemma process_options_data_errors_sample :
  process_options_data (VStr "AAPL") = Raise TypeError /\
  process_options_data (VDict [("calls", sample_calls)])
  = Raise (KeyError "symbol") /\
  process_options_data (VDict [("symbol", VStr "AAPL"); ("calls", sample_calls)])
  = Raise (KeyError "expiration_date") /\
  process_options_data
    (VDict [("symbol", VStr "AAPL"); ("expiration_date", VStr "2024-01-19");
            ("calls", sample_calls); ("puts", VList [VNum 1%Q])])
  = Raise AttributeError.
Proof.
  destruct process_options_data_errors as (Hscalar & Hsymbol & Hdate & Htable).
  split; [apply Hscalar; reflexivity|].
  split; [apply Hsymbol; reflexivity|].
  split; [apply (Hdate _ (VStr "AAPL")); reflexivity|].
  apply (Htable _ (VStr "AAPL") (VStr "2024-01-19")); try reflexivity.
  right. split; reflexivity.
Defined.

(** X5 on the sample chain. *)
Lemma process_options_data_frame_invariants_sample :
  exists df : DataFrame US.row,
    process_options_data (VDict sample_chain) = Ok (Some df) /\
    Forall (us_tagged (VStr "AAPL") (VStr "2024-01-19")) (rows df) /\
    columns df = US.column_names.
Proof.
  eexists. split; [reflexivity|].
  destruct (process_options_data_frame_invariants (VDict sample_chain) _ eq_refl)
    as (symbol & expiration_date & Hsymbol & Hdate & Htagged & Hcolumns & _).
  inversion Hsymbol; subst symbol. inversion Hdate; subst expiration_date.
  split; assumption.
Defined.

(** X8 on the sample frame: the CE records between strikes 100 and 200. *)
Lemma filter_frame_spec_sample :
  rows (filter_frame "CE" (100, 200)%Z sample_frame) = [sample_ce] /\
  rows (filter_frame "CE" (100, 200)%Z
          (filter_frame "CE" (100, 200)%Z sample_frame))
  = [sample_ce].
Proof.
  destruct (filter_frame_spec "CE" (100, 200)%Z sample_frame eq_refl)
    as (Hrows & _ & _ & _ & Hagain).
  split; [exact Hrows|]. rewrite Hagain. exact Hrows.
Defined.

(** X10 on the sample frame: a pie of two slices, green and red. *)
Lemma oi_plot_spec_sample :
  exists (slices : list (string * Q)) (colors : list (option string)),
    oi_plot "CE" "PE" (rows sample_frame) = Ok (OIPie slices colors) /\
    slices = oi_by_type (rows sample_frame) /\
    (0 < total_open_interest (rows sample_frame))%Q /\
    colors = [Some "g"; Some "r"].
Proof.
  assert (Hguard : has_number (map row_open_interest (rows sample_frame))
                   && exact_column (map row_open_interest (rows sample_frame))
                   = true) by reflexivity.
  destruct (oi_plot_spec "CE" "PE" (rows sample_frame) Hguard)
    as (_ & _ & _ & Hfigure).
  destruct (oi_plot "CE" "PE" (rows sample_frame))
    as [[slices colors|msg]|e] eqn:Hrun.
  - destruct Hfigure as (Hslices & Hpositive & _ & _ & Hcolors).
    exists slices, colors. split; [reflexivity|].
    split; [exact Hslices|]. split; [exact Hpositive|].
    rewrite Hcolors, Hslices. reflexivity.
  - vm_compute in Hrun. discriminate Hrun.
  - vm_compute in Hrun. discriminate Hrun.
Defined.

(** X11 on the sample frame: one strike, both records drawn. *)
Lemma volume_plot_spec_sample :
  plot_rows (rows sample_frame) = [sample_ce; sample_pe] /\
  exists order : list Q,
    volume_plot TypeError "CE" "PE" (rows sample_frame)
    = Ok (VolumeBars [sample_ce; sample_pe] order).
Proof.
  assert (Hguard : has_number (map row_strike (rows sample_frame))
                   && exact_column (map row_strike (rows sample_frame))
                   && exact_column (map row_volume (rows sample_frame))
                   = true) by reflexivity.
  pose proof (volume_plot_spec TypeError "CE" "PE" (rows sample_frame) Hguard)
    as Hspec.
  destruct (volume_plot TypeError "CE" "PE" (rows sample_frame))
    as [[data order|msg]|e] eqn:Hrun.
  - destruct Hspec as (_ & _ & Hall & Hdata & _).
    assert (Hrows : plot_rows (rows sample_frame) = [sample_ce; sample_pe]).
    { rewrite Hall; [reflexivity|]. vm_compute. lia. }
    split; [exact Hrows|]. exists order. rewrite Hdata, Hrows. reflexivity.
  - vm_compute in Hrun. discriminate Hrun.
  - vm_compute in Hrun. discriminate Hrun.
Defined.

(** X12 on the sample client. *)
Lemma us_options_view_spec_sample :
  exists (figures : oi_figure * volume_figure US.row) (df : DataFrame US.row),
    fst (us_options_view (E := sample_env) "AAPL" (at_time 0))
    = Ok (USDashboard (Some figures) df) /\
    List.length (rows df) = 3%nat.
Proof.
  destruct (us_options_view_spec sample_env "AAPL" (at_time 0)
              [[("strike", VNum 150%Q); ("volume", VNum 1000%Q);
                ("openInterest", VNum 500%Q)];
               [("strike", VNum 145%Q); ("lastPrice", VNum (21 # 2)%Q);
                ("openInterest", VNum 120%Q)]]
              [[("strike", VNum 150%Q); ("volume", VNum 800%Q);
                ("openInterest", VNum 300%Q)]]
              eq_refl eq_refl eq_refl) as [_ Hbuilt].
  destruct (Hbuilt eq_refl) as (figures & Hout).
  exists figures. eexists. split; [exact Hout | reflexivity].
Defined.

(** X13 on the sample scraper. *)
Lemma nifty_options_view_spec_sample :
  exists (metrics : nifty_metrics)
         (figures : oi_figure * volume_figure NIFTY.row * ratio_figure)
         (df : DataFrame NIFTY.row),
    fst (nifty_options_view (E := sample_env) (at_time 0))
    = Ok (NiftyDashboard metrics (Some figures) df) /\
    List.length (rows df) = 3%nat.
Proof.
  destruct (nifty_options_view_spec sample_env (at_time 0))
    as (_ & _ & _ & _ & Hbuilt).
  destruct (Hbuilt eq_refl) as (metrics & figures & Hout).
  exists metrics, figures. eexists. split; [exact Hout | reflexivity].
Defined.

(** X14 on the sample frame: strikes from 150 to 150. *)
Lemma default_strike_range_spec_sample :
  default_strike_range sample_frame = Ok (150, 150)%Z /\
  rows (filter_frame "All" (150, 150)%Z sample_frame) = rows sample_frame.
Proof.
  split; [reflexivity|].
  destruct (default_strike_range_spec sample_frame) as (_ & Hrange).
  rewrite (Hrange (150, 150)%Z eq_refl eq_refl); [reflexivity|].
  repeat constructor; exists 150%Z; reflexivity.
Defined.
